(** * UMLS terminology import

    A shallow embedding of the script that streams the pipe-delimited UMLS
    release files (MRCONSO, MRSAT, MRREL), decodes each line positionally,
    filters and cross-references the records, and posts batches of at most
    500 items per coding system to the [CodeSystem/$import] operation.

    Conventions of the embedding:
    - a JavaScript string is a [string]; the only character the script
      inspects is the ASCII pipe, so the encoding of other characters does
      not matter;
    - a JavaScript value of type [string | undefined] is an [option string];
    - JavaScript numbers used as counters and lengths are integers in [Z];
    - objects created with [Object.create(null)] and used as dictionaries
      are finite maps; where the script later iterates over them with
      [Object.entries] they are insertion-ordered association lists (their
      keys are URIs, never array indices);
    - object literals used as dictionaries keep their prototype chain: a
      read of a missing own key falls back to [Object.prototype];
    - [await client.post(...)] is recorded as an entry of a send log; a
      rejected request is outside the model;
    - a thrown [TypeError] is the [TypeError] outcome of a loop body. *)

From Stdlib Require Import ZArith List Lia Bool Ascii String Permutation Sorted.
From stdpp Require Import gmap strings list fin_maps.

Import ListNotations.
Open Scope string_scope.
Open Scope list_scope.
Open Scope Z_scope.

(** ** JavaScript values and strings *)

(** [String(v)] for a [string | undefined], as used when such a value is a
    property key or an operand of [+] with a string. *)
Definition jsStr (v : option string) : string :=
  match v with
  | Some s => s
  | None => "undefined"
  end.

(** Truthiness of a [string | undefined]: [undefined] and [''] are falsy. *)
Definition truthy (v : option string) : bool :=
  match v with
  | Some s => negb (String.eqb s "")
  | None => false
  end.

(** [a === b] on [string | undefined]. *)
Definition strictEq (a b : option string) : bool :=
  match a, b with
  | Some x, Some y => String.eqb x y
  | None, None => true
  | _, _ => false
  end.

Definition pipe : ascii := "|"%char.

(** [line.split('|')]: never empty, one more field than there are pipes. *)
Fixpoint split (line : string) : list string :=
  match line with
  | EmptyString => [EmptyString]
  | String c rest =>
      if Ascii.eqb c pipe then EmptyString :: split rest
      else match split rest with
           | [] => [String c EmptyString]
           | f :: fs => String c f :: fs
           end
  end.

(** Array destructuring reads position [i]; past the end it is [undefined]. *)
Definition column (cols : list string) (i : nat) : option string :=
  nth_error cols i.

Fixpoint hasPipe (s : string) : bool :=
  match s with
  | EmptyString => false
  | String c rest => Ascii.eqb c pipe || hasPipe rest
  end.

Fixpoint hasSlash (s : string) : bool :=
  match s with
  | EmptyString => false
  | String c rest => Ascii.eqb c "/"%char || hasSlash rest
  end.

(** [arr.includes(v)] and [arr.indexOf(v)] on an array of strings, with a
    [string | undefined] needle: [undefined] is never found. *)
Fixpoint indexOfFrom (tty : list string) (x : string) (i : Z) : Z :=
  match tty with
  | [] => -1
  | t :: rest => if String.eqb t x then i else indexOfFrom rest x (i + 1)
  end.

Definition indexOf (tty : list string) (v : option string) : Z :=
  match v with
  | Some x => indexOfFrom tty x 0
  | None => -1
  end.

Definition includes (tty : list string) (v : option string) : bool :=
  match v with
  | Some x => existsb (String.eqb x) tty
  | None => false
  end.

(** ** Outcomes of a loop body *)

Inductive outcome (A : Type) : Type :=
| Done (a : A)
| TypeError.
Arguments Done {A} a.
Arguments TypeError {A}.

Definition bind {A B : Type} (o : outcome A) (k : A -> outcome B) : outcome B :=
  match o with
  | Done a => k a
  | TypeError => TypeError
  end.

(** [for await (const line of rl) { body }]: the body runs on each line in
    file order; a throw ends the loop and rejects the pass. *)
Fixpoint forAwait {S : Type} (body : string -> S -> outcome S)
  (lines : list string) (st : S) : outcome S :=
  match lines with
  | [] => Done st
  | line :: rest => bind (body line st) (forAwait body rest)
  end.

(** ** Property reads on object literals *)

(** The names every object literal inherits from [Object.prototype]; each
    of them reads as a function or object, hence truthy, and none of those
    values has a [tty], [system], [resource] or [code] property. *)
Definition ObjectPrototype : list string :=
  [ "constructor"; "__defineGetter__"; "__defineSetter__"; "hasOwnProperty";
    "__lookupGetter__"; "__lookupSetter__"; "isPrototypeOf";
    "propertyIsEnumerable"; "toString"; "valueOf"; "__proto__";
    "toLocaleString" ].

Inductive PropertyRead (A : Type) : Type :=
| Own (a : A)
| Inherited
| Missing.
Arguments Own {A} a.
Arguments Inherited {A}.
Arguments Missing {A}.

Fixpoint ownProperty {A : Type} (obj : list (string * A)) (key : string) : option A :=
  match obj with
  | [] => None
  | (k, v) :: rest => if String.eqb k key then Some v else ownProperty rest key
  end.

(** [obj[key]] on an object literal [obj]. *)
Definition readProperty {A : Type} (obj : list (string * A)) (key : string)
  : PropertyRead A :=
  match ownProperty obj key with
  | Some v => Own v
  | None => if existsb (String.eqb key) ObjectPrototype then Inherited else Missing
  end.

(** ** Insertion-ordered dictionaries ([Object.create(null)] + [Object.entries]) *)

Definition odict (V : Type) : Type := list (string * V).

Fixpoint oget {V : Type} (d : odict V) (key : string) : option V :=
  match d with
  | [] => None
  | (k, v) :: rest => if String.eqb k key then Some v else oget rest key
  end.

(** [d[key] = v]: an existing key keeps its position, a new key goes last. *)
Fixpoint oset {V : Type} (d : odict V) (key : string) (v : V) : odict V :=
  match d with
  | [] => [(key, v)]
  | (k, w) :: rest =>
      if String.eqb k key then (k, v) :: rest else (k, w) :: oset rest key v
  end.

(** [counts[key] = (counts[key] ?? 0) + 1]. *)
Definition increment (counts : odict Z) (key : string) : odict Z :=
  oset counts key (match oget counts key with Some n => n | None => 0 end + 1).

(** ** Records decoded from the release files *)

Module UmlsConcept.

Record t : Type := mk {
  CUI : option string;
  LAT : option string;
  TS : option string;
  LUI : option string;
  STT : option string;
  SUI : option string;
  ISPREF : option string;
  AUI : option string;
  SAUI : option string;
  SCUI : option string;
  SDUI : option string;
  SAB : option string;
  TTY : option string;
  CODE : option string;
  STR : option string;
  SRL : option string;
  SUPPRESS : option string
}.

Definition constructor (line : string) : t :=
  let cols := split line in
  mk (column cols 0) (column cols 1) (column cols 2) (column cols 3)
     (column cols 4) (column cols 5) (column cols 6) (column cols 7)
     (column cols 8) (column cols 9) (column cols 10) (column cols 11)
     (column cols 12) (column cols 13) (column cols 14) (column cols 15)
     (column cols 16).

End UmlsConcept.

Module UmlsAttribute.

Record t : Type := mk {
  CUI : option string;
  LUI : option string;
  SUI : option string;
  METAUI : option string;
  STYPE : option string;
  CODE : option string;
  ATUI : option string;
  SATUI : option string;
  ATN : option string;
  SAB : option string;
  ATV : option string;
  SUPPRESS : option string
}.

Definition constructor (line : string) : t :=
  let cols := split line in
  mk (column cols 0) (column cols 1) (column cols 2) (column cols 3)
     (column cols 4) (column cols 5) (column cols 6) (column cols 7)
     (column cols 8) (column cols 9) (column cols 10) (column cols 11).

End UmlsAttribute.

Module UmlsRelationship.

Record t : Type := mk {
  CUI1 : option string;
  AUI1 : option string;
  STYPE1 : option string;
  REL : option string;
  CUI2 : option string;
  AUI2 : option string;
  STYPE2 : option string;
  RELA : option string;
  RUI : option string;
  SRUI : option string;
  SAB : option string;
  SL : option string;
  RG : option string;
  DIR : option string;
  SUPPRESS : option string
}.

Definition constructor (line : string) : t :=
  let cols := split line in
  mk (column cols 0) (column cols 1) (column cols 2) (column cols 3)
     (column cols 4) (column cols 5) (column cols 6) (column cols 7)
     (column cols 8) (column cols 9) (column cols 10) (column cols 11)
     (column cols 12) (column cols 13) (column cols 14).

End UmlsRelationship.

(** ** Emitted items and the code-system resources *)

Module Coding.

Record t : Type := mk {
  code : option string;
  display : option string
}.

End Coding.

Module Property.

Record t : Type := mk {
  code : option string;
  property : option string;
  value : option string
}.

End Property.

Module CodeSystem.

(** [CodeSystem.property[i]]: only [code] and [uri] are read by the script. *)
Record property_t : Type := mkProperty {
  code : option string;
  uri : option string
}.

Record t : Type := mk {
  property : option (list property_t)
}.

End CodeSystem.

(** The seven resources imported from [./codesystems]. *)
Record CodeSystems : Type := {
  snomed : CodeSystem.t;
  loinc : CodeSystem.t;
  rxnorm : CodeSystem.t;
  cpt : CodeSystem.t;
  cvx : CodeSystem.t;
  icd10pcs : CodeSystem.t;
  icd10cm : CodeSystem.t
}.

Record Source : Type := {
  system : string;
  tty : list string;
  resource : CodeSystem.t
}.

(** ** The batch emitter shared by the three passes *)

(** [pending] is the dictionary of open batches ([codings] or [properties]
    in the script); [posted] lists the [sendCodings] / [sendProperties]
    calls in the order they were made. *)
Record Emitter (A : Type) : Type := mkEmitter {
  pending : odict (list A);
  posted : list (string * list A)
}.
Arguments mkEmitter {A} pending posted.
Arguments pending {A} e.
Arguments posted {A} e.

Definition emptyEmitter {A : Type} : Emitter A := mkEmitter [] [].

(** Lines 728-741 of [processConcepts]: push onto the system's array (or
    start one), post it and store a new empty array when it has reached
    500 items, store it back otherwise. *)
Definition pushCoding {A : Type} (sys : string) (coding : A) (e : Emitter A)
  : Emitter A :=
  let foundCodings :=
    match oget (pending e) sys with
    | Some found => found ++ [coding]
    | None => [coding]
    end in
  if 500 <=? Z.of_nat (length foundCodings)
  then mkEmitter (oset (pending e) sys []) (posted e ++ [(sys, foundCodings)])
  else mkEmitter (oset (pending e) sys foundCodings) (posted e).

(** Lines 938-951 of [processProperties] (and 1103-1115 of
    [processRelationships]).  The batch posted is [properties[system]], not
    the local [foundProperties]: after [push] on a stored array both are the
    same object, but a freshly created array is not in the dictionary yet,
    and posting [undefined] throws in [sendProperties]. *)
Definition pushProperty {A : Type} (sys : string) (prop : A) (e : Emitter A)
  : outcome (Emitter A) :=
  let stored := oget (pending e) sys in
  let foundProperties :=
    match stored with
    | Some found => found ++ [prop]
    | None => [prop]
    end in
  let properties :=
    match stored with
    | Some _ => oset (pending e) sys foundProperties
    | None => pending e
    end in
  if 500 <=? Z.of_nat (length foundProperties)
  then match oget properties sys with
       | Some batch =>
           Done (mkEmitter (oset properties sys []) (posted e ++ [(sys, batch)]))
       | None => TypeError
       end
  else Done (mkEmitter (oset properties sys foundProperties) (posted e)).

(** Lines 745-749, 958-962, 1122-1126: post every non-empty open batch, in
    the order of [Object.entries]. *)
Definition flushAll {A : Type} (e : Emitter A) : Emitter A :=
  mkEmitter (pending e)
    (posted e ++
     List.filter (fun entry => 0 <? Z.of_nat (length (snd entry))) (pending e)).

(** A stream of appends followed by the end-of-stream flush. *)
Definition emitCodings {A : Type} (items : list (string * A)) : Emitter A :=
  flushAll (fold_left (fun e item => pushCoding (fst item) (snd item) e)
              items emptyEmitter).

Fixpoint pushProperties {A : Type} (items : list (string * A)) (e : Emitter A)
  : outcome (Emitter A) :=
  match items with
  | [] => Done e
  | item :: rest =>
      bind (pushProperty (fst item) (snd item) e) (pushProperties rest)
  end.

Definition emitProperties {A : Type} (items : list (string * A))
  : outcome (Emitter A) :=
  bind (pushProperties items emptyEmitter) (fun e => Done (flushAll e)).

(** The batches posted for one system, in order. *)
Definition postedFor {A : Type} (sys : string) (log : list (string * list A))
  : list (list A) :=
  map snd (List.filter (fun entry => String.eqb (fst entry) sys) log).

(** The items of a stream destined for one system, in order. *)
Definition itemsFor {A : Type} (sys : string) (items : list (string * A))
  : list A :=
  map snd (List.filter (fun item => String.eqb (fst item) sys) items).

(** Everything appended so far for one system: posted batches, then the
    open batch. *)
Definition appended {A : Type} (sys : string) (e : Emitter A) : list A :=
  concat (postedFor sys (posted e)) ++
  match oget (pending e) sys with Some found => found | None => [] end.

(** The sum of the lengths of a sequence of batches. *)
Definition totalLength {A : Type} (batches : list (list A)) : Z :=
  fold_right (fun b n => Z.of_nat (length b) + n) 0 batches.

(** The open batch of a system, empty when it has none. *)
Definition openFor {A : Type} (sys : string) (e : Emitter A) : list A :=
  match oget (pending e) sys with
  | Some found => found
  | None => []
  end.

(** What has been established about one system after some appends: no
    key is repeated, the open batch is below capacity, every posted batch
    is full, and posted batches plus open batch are the appended items. *)
Definition tracked {A : Type} (sys : string) (e : Emitter A) (its : list A)
  : Prop :=
  List.NoDup (map fst (pending e))
  /\ Z.of_nat (length (openFor sys e)) < 500
  /\ Forall (fun b => Z.of_nat (length b) = 500) (postedFor sys (posted e))
  /\ concat (postedFor sys (posted e)) ++ openFor sys e = its.

(** An emitter state reached from the empty one by [n] appends. *)
Definition streamOf {A : Type} (e : Emitter A) (n : Z) : Prop :=
  exists items,
    e = fold_left (fun e item => pushCoding (fst item) (snd item) e)
          items emptyEmitter
    /\ Z.of_nat (length items) = n.

(** The number of items appended so far, over all systems. *)
Definition appendedCount {A : Type} (e : Emitter A) : Z :=
  totalLength (map snd (posted e)) + totalLength (map snd (pending e)).

(** ** The run reporter *)

(** [Array.prototype.sort(cmp)] is stable: insertion of each element in
    front of the first later element it does not compare greater than. *)
Fixpoint insertSorted {A : Type} (cmp : A -> A -> Z) (x : A) (l : list A)
  : list A :=
  match l with
  | [] => [x]
  | y :: rest =>
      if cmp x y <=? 0 then x :: y :: rest else y :: insertSorted cmp x rest
  end.

Definition sort {A : Type} (cmp : A -> A -> Z) (l : list A) : list A :=
  fold_right (insertSorted cmp) [] l.

(** Lines 753-755: [Object.entries(counts).sort((l, r) => r[1] - l[1])]. *)
Definition conceptSummary (counts : odict Z) : list (string * Z) :=
  sort (fun l r => snd r - snd l) counts.

(** [key.split('|', 1)[0]]. *)
Definition systemPart (key : string) : string :=
  match split key with
  | s :: _ => s
  | [] => key
  end.

(** Lines 966-968 and 1130-1132: order by the system part of the key in
    reverse [localeCompare] order, then by descending count.  The collation
    [String.prototype.localeCompare] is supplied by the host. *)
Definition propertySummary (localeCompare : string -> string -> Z)
  (counts : odict Z) : list (string * Z) :=
  sort (fun l r =>
          let bySystem := localeCompare (systemPart (fst r)) (systemPart (fst l)) in
          if bySystem =? 0 then snd r - snd l else bySystem)
       counts.

(** Descending by count. *)
Definition byCount (a b : string * Z) : Prop := snd b <= snd a.

(** A collation that is a total preorder: what [localeCompare] provides. *)
Definition consistent (localeCompare : string -> string -> Z) : Prop :=
  (forall a b, localeCompare a b = 0 <-> localeCompare b a = 0)
  /\ (forall a b, localeCompare a b < 0 <-> 0 < localeCompare b a)
  /\ (forall a b c,
        localeCompare a b <= 0 -> localeCompare b c <= 0 ->
        localeCompare a c <= 0).

(** Greater system first, then descending by count. *)
Definition bySystemThenCount (localeCompare : string -> string -> Z)
  (a b : string * Z) : Prop :=
  let bySystem := localeCompare (systemPart (fst b)) (systemPart (fst a)) in
  bySystem < 0 \/ (bySystem = 0 /\ snd b <= snd a).

(** ** State of each pass *)

Module Concepts.

Record state : Type := mk {
  processed : Z;
  skipped : Z;
  counts : odict Z;
  codings : Emitter Coding.t;
  mappedConcepts : gmap string UmlsConcept.t
}.

Definition initial : state := mk 0 0 [] emptyEmitter ∅.

End Concepts.

Module Properties.

Record state : Type := mk {
  processed : Z;
  skipped : Z;
  counts : odict Z;
  properties : Emitter Property.t
}.

Definition initial : state := mk 0 0 [] emptyEmitter.

End Properties.

Module Relationships.

(** One [console.warn] call of the relationship pass: the property name,
    the ["REL/RELA"] label and the atom identifier reported as missing. *)
Record warning : Type := mkWarning {
  propertyName : string;
  label : string;
  atom : option string
}.

Record state : Type := mk {
  processed : Z;
  skipped : Z;
  counts : odict Z;
  properties : Emitter Property.t;
  warnings : list warning
}.

Definition initial : state := mk 0 0 [] emptyEmitter [].

End Relationships.

Definition PARENT_PROPERTY : string := "http://hl7.org/fhir/concept-properties#parent".
Definition CHILD_PROPERTY : string := "http://hl7.org/fhir/concept-properties#child".

Definition mappedProperties : list (string * string) :=
  [ ("LOINC_COMPONENT", "COMPONENT");
    ("LOINC_METHOD_TYP", "METHOD_TYP");
    ("LOINC_PROPERTY", "PROPERTY");
    ("LOINC_SCALE_TYP", "SCALE_TYP");
    ("LOINC_SYSTEM", "SYSTEM");
    ("LOINC_TIME_ASPECT", "TIME_ASPCT");
    ("LOR", "ORDER_OBS");
    ("LQS", "SURVEY_QUEST_SRC");
    ("LQT", "SURVEY_QUEST_TEXT");
    ("LRN2", "RELATEDNAMES2");
    ("LCL", "CLASS");
    ("LCN", "CLASSTYPE");
    ("LCS", "STATUS");
    ("LCT", "CHNG_TYPE");
    ("LEA", "EXMPL_ANSWERS");
    ("LFO", "FORMULA");
    ("LMP", "MAP_TO");
    ("LUR", "UNITSREQUIRED");
    ("LC", "LONG_COMMON_NAME") ].

(** What the counts depend on: which keys of the index are still free, and
    the count of each system.  [bumpAt sys key v] is the value under [key]
    after [counts[sys]] was incremented, given its value [v] before. *)
Definition isNew (mapped : gmap string UmlsConcept.t) (key : string) : bool :=
  match mapped !! key with
  | None => true
  | Some _ => false
  end.

Definition bumpAt (sys key : string) (v : option Z) : option Z :=
  if String.eqb sys key
  then Some (match v with Some n => n | None => 0 end + 1)
  else v.

(** ** What a pass prints when it completes *)

(** Lines 750-755, 963-970 and 1127-1134: the number of processed rows, the
    number of skipped rows, and one line per entry of the sorted counts.
    [fmtNum] only renders a number. *)
Record Report : Type := mkReport {
  total : Z;
  skippedRows : Z;
  entries : list (string * Z)
}.

Definition conceptReport (st : Concepts.state) : Report :=
  mkReport (Concepts.processed st) (Concepts.skipped st)
    (conceptSummary (Concepts.counts st)).

Definition propertyReport (localeCompare : string -> string -> Z)
  (st : Properties.state) : Report :=
  mkReport (Properties.processed st) (Properties.skipped st)
    (propertySummary localeCompare (Properties.counts st)).

Definition relationshipReport (localeCompare : string -> string -> Z)
  (st : Relationships.state) : Report :=
  mkReport (Relationships.processed st) (Relationships.skipped st)
    (propertySummary localeCompare (Relationships.counts st)).

(** No two entries tie under the comparator of the property summaries:
    system parts that collate equal and equal counts. *)
Definition untied (localeCompare : string -> string -> Z)
  (counts : list (string * Z)) : Prop :=
  forall a b,
    In a counts -> In b counts ->
    localeCompare (systemPart (fst a)) (systemPart (fst b)) = 0 ->
    snd a = snd b ->
    a = b.

(** What one row does to the counters of a property pass: nothing, one
    more skipped row, or one more processed row counted under a key. *)
Inductive tally : Type :=
| Ignored
| Skipped
| Counted (key : string).

Definition applyTally (t : tally) (c : Z * Z * odict Z) : Z * Z * odict Z :=
  match t with
  | Ignored => c
  | Skipped => (fst (fst c), snd (fst c) + 1, snd c)
  | Counted key => (fst (fst c) + 1, snd (fst c), increment (snd c) key)
  end.

(** The tallies of the rows of a stream, for a pass that completes. *)
Definition tallies (tallyOf : string -> option tally) (lines : list string)
  : list tally :=
  flat_map (fun line => match tallyOf line with
                        | Some t => [t]
                        | None => []
                        end)
    lines.

(** Counters that agree: same totals, same count under every key. *)
Definition sameCounters (c1 c2 : Z * Z * odict Z) : Prop :=
  fst (fst c1) = fst (fst c2)
  /\ snd (fst c1) = snd (fst c2)
  /\ forall key, oget (snd c1) key = oget (snd c2) key.

(** ** The documentation file and the relationship-property map *)

Module UmlsDoc.

Record t : Type := mk {
  DOCKEY : option string;
  VALUE : option string;
  TYPE : option string;
  EXPL : option string
}.

Definition constructor (line : string) : t :=
  let cols := split line in
  mk (column cols 0) (column cols 1) (column cols 2) (column cols 3).

End UmlsDoc.

(** A value of [propertyMappings]: [{ rel?: string; rela?: string }].  A
    field that is absent and a field that holds [undefined] are both [None];
    the script reads them only through [?? '']. *)
Module RelMapping.

Record t : Type := mk {
  rel : option string;
  rela : option string
}.

End RelMapping.

(** [v ?? '']. *)
Definition nullish (v : option string) : string :=
  match v with
  | Some s => s
  | None => ""
  end.

Definition isRelRow (doc : UmlsDoc.t) : bool :=
  strictEq (UmlsDoc.DOCKEY doc) (Some "REL")
  && strictEq (UmlsDoc.TYPE doc) (Some "snomedct_rel_mapping").

Definition isRelaRow (doc : UmlsDoc.t) : bool :=
  strictEq (UmlsDoc.DOCKEY doc) (Some "RELA")
  && strictEq (UmlsDoc.TYPE doc) (Some "snomedct_rela_mapping").

(** Lines 803-808, the body of the loop of [prepareRelationshipProperties]:
    [{ ...propertyMappings[doc.VALUE], rel: doc.EXPL }] keeps the other
    field of the previous value, if there is one. *)
Definition prepareRelationshipProperties_body (line : string)
  (propertyMappings : odict RelMapping.t) : odict RelMapping.t :=
  let doc := UmlsDoc.constructor line in
  let previous := oget propertyMappings (jsStr (UmlsDoc.VALUE doc)) in
  if isRelRow doc then
    oset propertyMappings (jsStr (UmlsDoc.VALUE doc))
      (RelMapping.mk (UmlsDoc.EXPL doc)
         (match previous with Some m => RelMapping.rela m | None => None end))
  else if isRelaRow doc then
    oset propertyMappings (jsStr (UmlsDoc.VALUE doc))
      (RelMapping.mk
         (match previous with Some m => RelMapping.rel m | None => None end)
         (UmlsDoc.EXPL doc))
  else propertyMappings.

(** [propertyMappings] after the loop of lines 802-809. *)
Definition propertyMappingsOf (lines : list string) : odict RelMapping.t :=
  fold_left (fun propertyMappings line =>
               prepareRelationshipProperties_body line propertyMappings)
    lines [].

(** A property key that is an array index: the canonical decimal form of
    an integer between 0 and 2^32 - 2. *)
Definition isDigit (c : ascii) : bool :=
  (48 <=? N_of_ascii c)%N && (N_of_ascii c <=? 57)%N.

Fixpoint digitsValue (s : string) (acc : N) : option N :=
  match s with
  | EmptyString => Some acc
  | String c rest =>
      if isDigit c then digitsValue rest (10 * acc + (N_of_ascii c - 48))%N
      else None
  end.

Definition arrayIndex (key : string) : option N :=
  match key with
  | EmptyString => None
  | String c rest =>
      if Ascii.eqb c "0"%char then
        match rest with
        | EmptyString => Some 0%N
        | String _ _ => None
        end
      else
        match digitsValue key 0 with
        | Some n => if (n <=? 4294967294)%N then Some n else None
        | None => None
        end
  end.

Definition isArrayIndex (key : string) : bool :=
  match arrayIndex key with
  | Some _ => true
  | None => false
  end.

(** [Object.entries(d)] on a dictionary whose keys may be array indices:
    those come first, in ascending numeric order, then the other keys in
    the order in which they were created. *)
Definition ownEntries {V : Type} (d : odict V) : list (string * V) :=
  sort (fun l r =>
          Z.of_N (match arrayIndex (fst l) with Some n => n | None => 0%N end)
          - Z.of_N (match arrayIndex (fst r) with Some n => n | None => 0%N end))
       (List.filter (fun e => isArrayIndex (fst e)) d)
  ++ List.filter (fun e => negb (isArrayIndex (fst e))) d.

(** [`SNOMEDCT_US/${rel ?? ''}/${rela ?? ''}`]. *)
Definition stageAKey (m : RelMapping.t) : string :=
  "SNOMEDCT_US/" +:+ nullish (RelMapping.rel m) +:+ "/"
  +:+ nullish (RelMapping.rela m).

(** [Object.fromEntries(pairs)], read by key: a later pair replaces an
    earlier one with the same key. *)
Definition fromEntries (pairs : list (string * string)) : gmap string string :=
  fold_left (fun m pair => <[fst pair := snd pair]> m) pairs ∅.

(** Lines 791-816. *)
Definition prepareRelationshipProperties (lines : list string)
  : gmap string string :=
  fromEntries
    (map (fun entry => (stageAKey (snd entry), fst entry))
       (ownEntries (propertyMappingsOf lines))).

(** The matching rows of the documentation file for one [VALUE], and the
    [EXPL] of the last row of a kind. *)
Definition mapsValue (value : string) (line : string) : bool :=
  let doc := UmlsDoc.constructor line in
  (isRelRow doc || isRelaRow doc) && String.eqb (jsStr (UmlsDoc.VALUE doc)) value.

Definition lastExpl (kind : UmlsDoc.t -> bool) (value : string)
  (lines : list string) : option string :=
  match List.find (fun line =>
                     kind (UmlsDoc.constructor line)
                     && String.eqb (jsStr (UmlsDoc.VALUE (UmlsDoc.constructor line)))
                          value)
          (rev lines) with
  | Some line => UmlsDoc.EXPL (UmlsDoc.constructor line)
  | None => None
  end.

(** The mapping a [VALUE] ends with, read off the file. *)
Definition mappingOf (value : string) (lines : list string) : RelMapping.t :=
  RelMapping.mk (lastExpl isRelRow value lines) (lastExpl isRelaRow value lines).

(** The [VALUE]s of the matching rows whose final mapping gives [key]. *)
Definition keyOwners (key : string) (lines : list string) : list string :=
  List.filter
    (fun value => String.eqb (stageAKey (mappingOf value lines)) key)
    (map (fun line => jsStr (UmlsDoc.VALUE (UmlsDoc.constructor line)))
       (List.filter
          (fun line => isRelRow (UmlsDoc.constructor line)
                       || isRelaRow (UmlsDoc.constructor line))
          lines)).

(** ** The import requests *)

(** One entry of [parameters.parameter] in [sendCodings] and
    [sendProperties]: the system, a concept with its coding, or a property
    with its three parts. *)
Inductive parameter : Type :=
| SystemParameter (valueUri : string)
| ConceptParameter (valueCoding : Coding.t)
| PropertyParameter (code property value : option string).

(** Lines 761-764: the [parameter] array built by [sendCodings]. *)
Definition sendCodings (codings : list Coding.t) (system : string)
  : list parameter :=
  SystemParameter system :: map ConceptParameter codings.

(** Lines 1138-1151: the [parameter] array built by [sendProperties]. *)
Definition sendProperties (properties : list Property.t) (system : string)
  : list parameter :=
  SystemParameter system
  :: map (fun p => PropertyParameter (Property.code p) (Property.property p)
                     (Property.value p))
       properties.

(** The last coding of a log that carries a given code: what a destination
    that keeps the last write per code ends with. *)
Definition lastCoding (code : option string) (log : list Coding.t)
  : option Coding.t :=
  List.find (fun coding => strictEq (Coding.code coding) code) (rev log).

(** The items of a list of batches, each with the system of its batch. *)
Definition keyed {A : Type} (batches : list (string * list A))
  : list (string * A) :=
  flat_map (fun entry => map (fun item => (fst entry, item)) (snd entry)) batches.

(** All the items an emitter holds, posted or pending. *)
Definition allItems {A : Type} (e : Emitter A) : list (string * A) :=
  keyed (posted e) ++ keyed (pending e).

(** The sum of the counts of a summary. *)
Definition sumCounts (counts : odict Z) : Z :=
  fold_right (fun entry n => snd entry + n) 0 counts.

(** ** The search-parameter index of the documentation generator *)

Section SearchParameters.

(** A [SearchParameter] resource; the index reads only its [base]. *)
Variable SearchParameter : Type.
Variable base : SearchParameter -> option (list string).

(** Lines 114-117: [results] is an object literal, so the test
    [!results[resType]] also sees the members of [Object.prototype], none
    of which has a [push] method. *)
Definition indexSearchParameters_add (searchParam : SearchParameter)
  (resType : string) (results : odict (list SearchParameter))
  : outcome (odict (list SearchParameter)) :=
  match oget results resType with
  | Some found => Done (oset results resType (found ++ [searchParam]))
  | None =>
      if existsb (String.eqb resType) ObjectPrototype then TypeError
      else Done (oset results resType [searchParam])
  end.

(** [for (const resType of searchParam.base || [])]. *)
Fixpoint indexSearchParameters_bases (searchParam : SearchParameter)
  (bases : list string) (results : odict (list SearchParameter))
  : outcome (odict (list SearchParameter)) :=
  match bases with
  | [] => Done results
  | resType :: rest =>
      bind (indexSearchParameters_add searchParam resType results)
        (indexSearchParameters_bases searchParam rest)
  end.

Definition basesOf (searchParam : SearchParameter) : list string :=
  match base searchParam with
  | Some bases => bases
  | None => []
  end.

Fixpoint indexSearchParameters_from (searchParams : list SearchParameter)
  (results : odict (list SearchParameter))
  : outcome (odict (list SearchParameter)) :=
  match searchParams with
  | [] => Done results
  | searchParam :: rest =>
      bind (indexSearchParameters_bases searchParam (basesOf searchParam) results)
        (indexSearchParameters_from rest)
  end.

(** Lines 110-121. *)
Definition indexSearchParameters (searchParams : list SearchParameter)
  : outcome (odict (list SearchParameter)) :=
  indexSearchParameters_from searchParams [].

(** The search parameters that name a resource type among their bases,
    once per mention, in the order of the input. *)
Definition mentions (resType : string) (searchParams : list SearchParameter)
  : list SearchParameter :=
  flat_map (fun searchParam =>
              map (fun _ => searchParam)
                (List.filter (String.eqb resType) (basesOf searchParam)))
    searchParams.

(** A base that names a member of [Object.prototype]. *)
Definition inheritedBase (searchParams : list SearchParameter) : bool :=
  existsb (fun searchParam =>
             existsb (fun resType => existsb (String.eqb resType) ObjectPrototype)
               (basesOf searchParam))
    searchParams.

End SearchParameters.

Arguments indexSearchParameters_add {SearchParameter} searchParam resType results.
Arguments indexSearchParameters_bases {SearchParameter} searchParam bases results.
Arguments basesOf {SearchParameter} base searchParam.
Arguments indexSearchParameters_from {SearchParameter} base searchParams results.
Arguments indexSearchParameters {SearchParameter} base searchParams.
Arguments mentions {SearchParameter} base resType searchParams.
Arguments inheritedBase {SearchParameter} base searchParams.

(** An entry of the index: absent rather than empty. *)
Definition nonEmpty {A : Type} (l : list A) : option (list A) :=
  match l with
  | [] => None
  | _ :: _ => Some l
  end.

(** What holds between two steps of the index loops: [results] holds the
    non-empty lists [L], and no member of [Object.prototype] has one. *)
Definition holds {SearchParameter : Type}
  (results : odict (list SearchParameter))
  (L : string -> list SearchParameter) : Prop :=
  (forall resType, oget results resType = nonEmpty (L resType))
  /\ (forall resType,
        existsb (String.eqb resType) ObjectPrototype = true -> L resType = []).

(** ** Rows used in the concrete runs *)

(** A code-system resource that declares the two hierarchy properties. *)
Definition hierarchy : CodeSystem.t :=
  CodeSystem.mk
    (Some [ CodeSystem.mkProperty (Some "parent") (Some PARENT_PROPERTY);
            CodeSystem.mkProperty (Some "child") (Some CHILD_PROPERTY) ]).

Definition sampleCodeSystems : CodeSystems :=
  {| snomed := hierarchy; loinc := hierarchy; rxnorm := hierarchy;
     cpt := hierarchy; cvx := hierarchy; icd10pcs := hierarchy;
     icd10cm := hierarchy |}.

Definition sampleSnomed : Source :=
  {| system := "http://snomed.info/sct";
     tty := ["FN"; "PT"; "SY"];
     resource := hierarchy |}.

(** Two MRCONSO rows for SNOMED CT code 73211009: a synonym (index 2) and
    the fully specified name (index 0). *)
Definition rowSynonym : string :=
  "C0011849|ENG|S|L0011849|PF|S0033587|Y|A0000001||73211009||SNOMEDCT_US|SY|73211009|DM|9|N|256|".
Definition rowFullName : string :=
  "C0011849|ENG|P|L0011850|PF|S0033588|Y|A0000002||73211009||SNOMEDCT_US|FN|73211009|Diabetes mellitus (disorder)|9|N|256|".

(** A second synonym of the same code, with another string. *)
Definition rowSynonym2 : string :=
  "C0011849|ENG|S|L0011851|PF|S0033589|Y|A0000003||73211009||SNOMEDCT_US|SY|73211009|Diabetes|9|N|256|".

(** A LOINC row, an obsolete row of a source outside the registry, an
    obsolete SNOMED CT row, and a SNOMED CT row with an empty code. *)
Definition rowLoinc : string :=
  "C0202054|ENG|P|L0202054|PF|S0278321|Y|A0000004||||LNC|LC|2345-7|Glucose [Mass/volume] in Serum or Plasma|0|N|256|".
Definition rowObsoleteMesh : string :=
  "C0000005|ENG|P|L0000005|PF|S0007492|Y|A0000005||M0019694|D012711|MSH|PEP|D012711|(131)I-Macroaggregated Albumin|0|O|256|".
Definition rowObsoleteSnomed : string :=
  "C0011849|ENG|S|L0011852|PF|S0033590|Y|A0000006||73211009||SNOMEDCT_US|SY|73211009|Diabetes mellitus, NOS|9|O|256|".
Definition rowEmptyCode : string :=
  "C0011860|ENG|P|L0011860|PF|S0033600|Y|A0000007||44054006||SNOMEDCT_US|PT||Type 2 diabetes mellitus|9|N|256|".

(** MRREL rows between atoms: a parent link from the full name to the
    synonym, a parent link from an atom that was never indexed, a link with
    another label and sub-label, and a parent link from the empty-code
    atom. *)
Definition relParent : string :=
  "C0011849|A0000002|AUI|PAR|C0011849|A0000001|AUI||R0000001||SNOMEDCT_US|SNOMEDCT_US|||N||".
Definition relMissing : string :=
  "C0011849|A0000009|AUI|PAR|C0011849|A0000001|AUI||R0000002||SNOMEDCT_US|SNOMEDCT_US|||N||".
Definition relOther : string :=
  "C0011849|A0000002|AUI|RO|C0011849|A0000001|AUI|associated_with|R0000003||SNOMEDCT_US|SNOMEDCT_US|||N||".
Definition relEmptyCode : string :=
  "C0011860|A0000007|AUI|PAR|C0011849|A0000001|AUI||R0000004||SNOMEDCT_US|SNOMEDCT_US|||N||".

(** The atom index used by the relationship rows. *)
Definition sampleIndex : gmap string UmlsConcept.t :=
  <["A0000001" := UmlsConcept.constructor rowSynonym]>
    (<["A0000002" := UmlsConcept.constructor rowFullName]>
       (<["A0000007" := UmlsConcept.constructor rowEmptyCode]> ∅)).

(** A simple collation for the concrete runs: shorter strings first. *)
Definition byLength (a b : string) : Z :=
  Z.of_nat (String.length a) - Z.of_nat (String.length b).

(** MRDOC rows: the two mappings of attribute 47429007, the two mappings
    of attribute 999 to the same pair, and a row of another kind. *)
Definition docRel : string := "REL|47429007|snomedct_rel_mapping|RO|".
Definition docRela : string :=
  "RELA|47429007|snomedct_rela_mapping|associated_with|".
Definition docRelShared : string := "REL|999|snomedct_rel_mapping|RO|".
Definition docRelaShared : string :=
  "RELA|999|snomedct_rela_mapping|associated_with|".
Definition docOther : string := "ATN|LT|expanded_form|Lexical Tag|".

(** An MRSAT row that gives the [parent] property of code 73211009, and a
    LOINC relationship row. *)
Definition attrParent : string :=
  "C0011849|L0011849|S0033587|A0000001|AUI|73211009|AT0000001||parent|SNOMEDCT_US|138875005|N||".
Definition relLoinc : string :=
  "C0202054|A0000004|AUI|PAR|C0202054|A0000004|AUI||R0000005||LNC|LNC|||N||".

(** An MRDOC row with an empty [VALUE], and a child link between the two
    atoms of code 73211009. *)
Definition docEmptyValue : string := "REL||snomedct_rel_mapping|CHD|".
Definition relChild : string :=
  "C0011849|A0000002|AUI|CHD|C0011849|A0000001|AUI||R0000006||SNOMEDCT_US|SNOMEDCT_US|||N||".

(** An MRSAT row that gives the [child] property of code 73211009. *)
Definition attrChild : string :=
  "C0011849|L0011849|S0033587|A0000001|AUI|73211009|AT0000002||child|SNOMEDCT_US|73211009|N||".

(** A search parameter is represented by its name and its bases. *)
Definition sampleBase (searchParam : string * option (list string))
  : option (list string) :=
  snd searchParam.

(** ** The three passes *)

Section Passes.

(** The resources of [./codesystems] are supplied from outside the script. *)
Variable codesystems : CodeSystems.

Definition umlsSources : list (string * Source) :=
  [ ("SNOMEDCT_US",
     {| system := "http://snomed.info/sct";
        tty := ["FN"; "PT"; "SY"];
        resource := snomed codesystems |});
    ("LNC",
     {| system := "http://loinc.org";
        tty := ["LC"; "LPDN"; "LA"; "DN"; "HC"; "LN"; "LG"];
        resource := loinc codesystems |});
    ("RXNORM",
     {| system := "http://www.nlm.nih.gov/research/umls/rxnorm";
        tty := ["PSN"; "MIN"; "SBD"; "SCD"; "SBDG"; "SCDG"; "GPCK"; "SY"];
        resource := rxnorm codesystems |});
    ("CPT",
     {| system := "http://www.ama-assn.org/go/cpt";
        tty := ["PT"; "HT"; "POS"; "MP"; "GLP"];
        resource := cpt codesystems |});
    ("CVX",
     {| system := "http://hl7.org/fhir/sid/cvx";
        tty := ["PT"];
        resource := cvx codesystems |});
    ("ICD10PCS",
     {| system := "http://hl7.org/fhir/sid/icd-10-pcs";
        tty := ["PT"; "HT"];
        resource := icd10pcs codesystems |});
    ("ICD10CM",
     {| system := "http://hl7.org/fhir/sid/icd-10-cm";
        tty := ["PT"; "HT"];
        resource := icd10cm codesystems |}) ].

(** *** Concept pass *)

(** [concept.SAB + '|' + concept.CODE]. *)
Definition winnerKey (concept : UmlsConcept.t) : string :=
  jsStr (UmlsConcept.SAB concept) +:+ "|" +:+ jsStr (UmlsConcept.CODE concept).

(** Lines 726-742: store the winner, append its coding, count it. *)
Definition emitWinner (source : Source) (concept : UmlsConcept.t)
  (counts : odict Z) (mapped : gmap string UmlsConcept.t)
  (st : Concepts.state) : Concepts.state :=
  Concepts.mk
    (Concepts.processed st + 1)
    (Concepts.skipped st)
    counts
    (pushCoding (system source)
       (Coding.mk (UmlsConcept.CODE concept) (UmlsConcept.STR concept))
       (Concepts.codings st))
    (<[winnerKey concept := concept]> mapped).

(** Lines 696-742, the body of the loop of [processConcepts]. *)
Definition processConcepts_body (line : string) (st : Concepts.state)
  : outcome Concepts.state :=
  let concept := UmlsConcept.constructor line in
  match readProperty umlsSources (jsStr (UmlsConcept.SAB concept)) with
  | Missing => Done st
  | Inherited =>
      if negb (strictEq (UmlsConcept.LAT concept) (Some "ENG")) then Done st
      else TypeError
  | Own source =>
      if negb (strictEq (UmlsConcept.LAT concept) (Some "ENG")) then Done st
      else if negb (includes (tty source) (UmlsConcept.TTY concept)) then Done st
      else if negb (strictEq (UmlsConcept.SUPPRESS concept) (Some "N")) then
        Done (Concepts.mk (Concepts.processed st) (Concepts.skipped st + 1)
                (Concepts.counts st) (Concepts.codings st)
                (Concepts.mappedConcepts st))
      else
        let mapped :=
          <[jsStr (UmlsConcept.AUI concept) := concept]> (Concepts.mappedConcepts st) in
        match mapped !! winnerKey concept with
        | Some existingConcept =>
            let priority := indexOf (tty source) (UmlsConcept.TTY concept) in
            let existingPriority :=
              indexOf (tty source) (UmlsConcept.TTY existingConcept) in
            if existingPriority <=? priority then
              Done (Concepts.mk (Concepts.processed st) (Concepts.skipped st)
                      (Concepts.counts st) (Concepts.codings st) mapped)
            else
              Done (emitWinner source concept (Concepts.counts st) mapped st)
        | None =>
            Done (emitWinner source concept
                    (increment (Concepts.counts st) (system source)) mapped st)
        end
  end.

(** The state at the end of [processConcepts]: the loop, then the final
    flush of lines 745-749.  The function returns [mappedConcepts]. *)
Definition processConcepts (lines : list string) : outcome Concepts.state :=
  bind (forAwait processConcepts_body lines Concepts.initial)
    (fun st =>
       Done (Concepts.mk (Concepts.processed st) (Concepts.skipped st)
               (Concepts.counts st) (flushAll (Concepts.codings st))
               (Concepts.mappedConcepts st))).

(** The filters of lines 697-711 as one test: the source a record is
    accepted for, if it is accepted. *)
Definition passesFilters (concept : UmlsConcept.t) : option Source :=
  match readProperty umlsSources (jsStr (UmlsConcept.SAB concept)) with
  | Own source =>
      if strictEq (UmlsConcept.LAT concept) (Some "ENG")
         && includes (tty source) (UmlsConcept.TTY concept)
         && strictEq (UmlsConcept.SUPPRESS concept) (Some "N")
      then Some source
      else None
  | _ => None
  end.

(** The term-type priority index of a record within its own source. *)
Definition priorityOf (concept : UmlsConcept.t) : Z :=
  match readProperty umlsSources (jsStr (UmlsConcept.SAB concept)) with
  | Own source => indexOf (tty source) (UmlsConcept.TTY concept)
  | _ => -1
  end.

(** The state left by a record that passed the filters (lines 713-742). *)
Definition acceptConcept (source : Source) (concept : UmlsConcept.t)
  (st : Concepts.state) : Concepts.state :=
  let mapped :=
    <[jsStr (UmlsConcept.AUI concept) := concept]> (Concepts.mappedConcepts st) in
  match mapped !! winnerKey concept with
  | Some existingConcept =>
      if indexOf (tty source) (UmlsConcept.TTY existingConcept)
         <=? indexOf (tty source) (UmlsConcept.TTY concept)
      then Concepts.mk (Concepts.processed st) (Concepts.skipped st)
             (Concepts.counts st) (Concepts.codings st) mapped
      else emitWinner source concept (Concepts.counts st) mapped st
  | None =>
      emitWinner source concept
        (increment (Concepts.counts st) (system source)) mapped st
  end.

(** A line that contributes a record to the [SAB|CODE] key [key]. *)
Definition candidate (key : string) (line : string) : bool :=
  match passesFilters (UmlsConcept.constructor line) with
  | Some _ => String.eqb (winnerKey (UmlsConcept.constructor line)) key
  | None => false
  end.

(** The one way the body of the concept loop throws: [source.tty] on a
    member of [Object.prototype]. *)
Definition conceptThrows (line : string) : bool :=
  let concept := UmlsConcept.constructor line in
  match readProperty umlsSources (jsStr (UmlsConcept.SAB concept)) with
  | Inherited => strictEq (UmlsConcept.LAT concept) (Some "ENG")
  | _ => false
  end.

(** Every entry of [mappedConcepts] sits under its own atom identifier when
    the key has no pipe, and under its own [SAB|CODE] when it has one. *)
Definition indexed (mapped : gmap string UmlsConcept.t) : Prop :=
  forall key concept,
    mapped !! key = Some concept ->
    if hasPipe key then winnerKey concept = key
    else jsStr (UmlsConcept.AUI concept) = key.

(** What the index says about the lines read so far: a key that had a
    candidate has a winner, and the winner of a key is a candidate that
    strictly outranks every earlier candidate and is outranked by no later
    one. *)
Definition winnersOf (seen : list string) (mapped : gmap string UmlsConcept.t)
  : Prop :=
  (forall key line,
     In line seen -> candidate key line = true -> is_Some (mapped !! key))
  /\ (forall key winner,
        hasPipe key = true -> mapped !! key = Some winner ->
        exists before line after,
          seen = before ++ line :: after
          /\ winner = UmlsConcept.constructor line
          /\ candidate key line = true
          /\ (forall x, In x before -> candidate key x = true ->
              priorityOf winner < priorityOf (UmlsConcept.constructor x))
          /\ (forall x, In x after -> candidate key x = true ->
              priorityOf winner <= priorityOf (UmlsConcept.constructor x))).

(** The records of a stream that concern the source and code of [concept]. *)
Definition samePair (concept : UmlsConcept.t) (x : string) : Prop :=
  passesFilters (UmlsConcept.constructor x) <> None
  /\ UmlsConcept.SAB (UmlsConcept.constructor x) = UmlsConcept.SAB concept
  /\ UmlsConcept.CODE (UmlsConcept.constructor x) = UmlsConcept.CODE concept.

Definition accepted (line : string) : bool :=
  match passesFilters (UmlsConcept.constructor line) with
  | Some _ => true
  | None => false
  end.

Definition systemOfLine (line : string) : string :=
  match passesFilters (UmlsConcept.constructor line) with
  | Some source => system source
  | None => ""
  end.

Definition touches (line key : string) : bool :=
  accepted line
  && (String.eqb key (jsStr (UmlsConcept.AUI (UmlsConcept.constructor line)))
      || String.eqb key (winnerKey (UmlsConcept.constructor line))).

Definition sameTally (s1 s2 : Concepts.state) : Prop :=
  (forall key,
     isNew (Concepts.mappedConcepts s1) key = isNew (Concepts.mappedConcepts s2) key)
  /\ (forall sys, oget (Concepts.counts s1) sys = oget (Concepts.counts s2) sys).

(** *** Attribute pass *)

(** [mappedProperties[attr.ATN] === p.code]. *)
Definition aliasMatches (ATN code : option string) : bool :=
  match readProperty mappedProperties (jsStr ATN) with
  | Own alias => strictEq (Some alias) code
  | Inherited => false
  | Missing => strictEq None code
  end.

(** [source?.resource?.property?.find(...)] of lines 931-933. *)
Definition findAttributeProperty (source : PropertyRead Source) (ATN : option string)
  : option CodeSystem.property_t :=
  match source with
  | Own src =>
      match CodeSystem.property (resource src) with
      | Some props =>
          List.find (fun p => strictEq ATN (CodeSystem.code p)
                              || aliasMatches ATN (CodeSystem.code p)) props
      | None => None
      end
  | _ => None
  end.

(** [source.system], [undefined] on a member of [Object.prototype]. *)
Definition systemOf (source : PropertyRead Source) : option string :=
  match source with
  | Own src => Some (system src)
  | _ => None
  end.

(** Lines 920-955, the body of the loop of [processProperties]. *)
Definition processProperties_body (line : string) (st : Properties.state)
  : outcome Properties.state :=
  let attr := UmlsAttribute.constructor line in
  let source := readProperty umlsSources (jsStr (UmlsAttribute.SAB attr)) in
  match source with
  | Missing => Done st
  | _ =>
      if negb (strictEq (UmlsAttribute.SUPPRESS attr) (Some "N")) then
        Done (Properties.mk (Properties.processed st) (Properties.skipped st + 1)
                (Properties.counts st) (Properties.properties st))
      else
        match findAttributeProperty source (UmlsAttribute.ATN attr) with
        | None => Done st
        | Some property =>
            let prop := Property.mk (UmlsAttribute.CODE attr)
                          (CodeSystem.code property) (UmlsAttribute.ATV attr) in
            bind (pushProperty (jsStr (systemOf source)) prop (Properties.properties st))
              (fun e =>
                 let key := jsStr (systemOf source) +:+ "|"
                            +:+ jsStr (CodeSystem.code property) in
                 Done (Properties.mk (Properties.processed st + 1)
                         (Properties.skipped st)
                         (increment (Properties.counts st) key) e))
        end
  end.

Definition processProperties (lines : list string) : outcome Properties.state :=
  bind (forAwait processProperties_body lines Properties.initial)
    (fun st =>
       Done (Properties.mk (Properties.processed st) (Properties.skipped st)
               (Properties.counts st) (flushAll (Properties.properties st)))).

(** *** Relationship pass *)

(** [source.resource.property?.find((p) => p.uri === URI)?.code ?? ''] of
    lines 1080 and 1082; [source.resource] is [undefined] on a member of
    [Object.prototype], and reading [.property] of it throws. *)
Definition configuredProperty (uri : string) (source : PropertyRead Source)
  : outcome (option string) :=
  match source with
  | Own src =>
      match CodeSystem.property (resource src) with
      | Some props =>
          match List.find (fun p => strictEq (CodeSystem.uri p) (Some uri)) props with
          | Some p =>
              match CodeSystem.code p with
              | Some c => Done (Some c)
              | None => Done (Some "")
              end
          | None => Done (Some "")
          end
      | None => Done (Some "")
      end
  | _ => TypeError
  end.

(** [rel.SAB + '/' + rel.REL + '/' + rel.RELA]. *)
Definition relationshipKey (rel : UmlsRelationship.t) : string :=
  jsStr (UmlsRelationship.SAB rel) +:+ "/" +:+ jsStr (UmlsRelationship.REL rel)
  +:+ "/" +:+ jsStr (UmlsRelationship.RELA rel).

(** Lines 1075-1083.  Every key read from [relationshipProperties] contains
    a slash, so the read never reaches [Object.prototype]. *)
Definition resolvePropertyName (relationshipProperties : gmap string string)
  (source : PropertyRead Source) (rel : UmlsRelationship.t)
  : outcome (option string) :=
  let mappedPropertyName := relationshipProperties !! relationshipKey rel in
  if truthy mappedPropertyName then Done mappedPropertyName
  else if strictEq (UmlsRelationship.REL rel) (Some "PAR") then
    configuredProperty PARENT_PROPERTY source
  else if strictEq (UmlsRelationship.REL rel) (Some "CHD") then
    configuredProperty CHILD_PROPERTY source
  else Done None.

(** [mappedCodes[aui]?.CODE]. *)
Definition resolveCode (mappedCodes : gmap string UmlsConcept.t)
  (aui : option string) : option string :=
  match mappedCodes !! jsStr aui with
  | Some concept => UmlsConcept.CODE concept
  | None => None
  end.

(** Lines 1065-1119, the body of the loop of [processRelationships]. *)
Definition processRelationships_body
  (relationshipProperties : gmap string string)
  (mappedCodes : gmap string UmlsConcept.t)
  (line : string) (st : Relationships.state) : outcome Relationships.state :=
  let rel := UmlsRelationship.constructor line in
  let source := readProperty umlsSources (jsStr (UmlsRelationship.SAB rel)) in
  match source with
  | Missing => Done st
  | _ =>
      if negb (strictEq (UmlsRelationship.SUPPRESS rel) (Some "N")) then
        Done (Relationships.mk (Relationships.processed st)
                (Relationships.skipped st + 1) (Relationships.counts st)
                (Relationships.properties st) (Relationships.warnings st))
      else
        bind (resolvePropertyName relationshipProperties source rel)
          (fun propertyName =>
             if negb (truthy propertyName) then Done st
             else
               let code := resolveCode mappedCodes (UmlsRelationship.AUI1 rel) in
               let value := resolveCode mappedCodes (UmlsRelationship.AUI2 rel) in
               let label := jsStr (UmlsRelationship.REL rel) +:+ "/"
                            +:+ jsStr (UmlsRelationship.RELA rel) in
               if negb (truthy code) || negb (truthy value) then
                 Done (Relationships.mk (Relationships.processed st)
                         (Relationships.skipped st + 1)
                         (Relationships.counts st)
                         (Relationships.properties st)
                         (Relationships.warnings st ++
                          [Relationships.mkWarning (jsStr propertyName) label
                             (if truthy code then UmlsRelationship.AUI2 rel
                              else UmlsRelationship.AUI1 rel)]))
               else
                 let property := Property.mk code propertyName value in
                 bind (pushProperty (jsStr (systemOf source)) property
                         (Relationships.properties st))
                   (fun e =>
                      let key := jsStr (systemOf source) +:+ "|"
                                 +:+ jsStr propertyName +:+ " (" +:+ label +:+ ")" in
                      Done (Relationships.mk (Relationships.processed st + 1)
                              (Relationships.skipped st)
                              (increment (Relationships.counts st) key) e
                              (Relationships.warnings st))))
  end.

Definition processRelationships
  (relationshipProperties : gmap string string)
  (mappedCodes : gmap string UmlsConcept.t)
  (lines : list string) : outcome Relationships.state :=
  bind (forAwait (processRelationships_body relationshipProperties mappedCodes)
          lines Relationships.initial)
    (fun st =>
       Done (Relationships.mk (Relationships.processed st)
               (Relationships.skipped st) (Relationships.counts st)
               (flushAll (Relationships.properties st))
               (Relationships.warnings st))).


(** *** What a row does to the counters *)

(** Lines 703-711: a row of the concept file that is counted as skipped. *)
Definition conceptSkips (line : string) : bool :=
  let concept := UmlsConcept.constructor line in
  match readProperty umlsSources (jsStr (UmlsConcept.SAB concept)) with
  | Own source =>
      strictEq (UmlsConcept.LAT concept) (Some "ENG")
      && includes (tty source) (UmlsConcept.TTY concept)
      && negb (strictEq (UmlsConcept.SUPPRESS concept) (Some "N"))
  | _ => false
  end.

(** Lines 920-955: what a row of the attribute file does to the counters. *)
Definition attributeTally (line : string) : option tally :=
  let attr := UmlsAttribute.constructor line in
  let source := readProperty umlsSources (jsStr (UmlsAttribute.SAB attr)) in
  match source with
  | Missing => Some Ignored
  | _ =>
      if negb (strictEq (UmlsAttribute.SUPPRESS attr) (Some "N")) then Some Skipped
      else
        match findAttributeProperty source (UmlsAttribute.ATN attr) with
        | None => Some Ignored
        | Some property =>
            Some (Counted (jsStr (systemOf source) +:+ "|"
                           +:+ jsStr (CodeSystem.code property)))
        end
  end.

(** Lines 1065-1119: what a row of the relationship file does to the
    counters; [None] when the body throws. *)
Definition relationshipTally (relationshipProperties : gmap string string)
  (mappedCodes : gmap string UmlsConcept.t) (line : string) : option tally :=
  let rel := UmlsRelationship.constructor line in
  let source := readProperty umlsSources (jsStr (UmlsRelationship.SAB rel)) in
  match source with
  | Missing => Some Ignored
  | _ =>
      if negb (strictEq (UmlsRelationship.SUPPRESS rel) (Some "N")) then
        Some Skipped
      else
        match resolvePropertyName relationshipProperties source rel with
        | TypeError => None
        | Done propertyName =>
            if negb (truthy propertyName) then Some Ignored
            else if negb (truthy (resolveCode mappedCodes
                                    (UmlsRelationship.AUI1 rel)))
                    || negb (truthy (resolveCode mappedCodes
                                       (UmlsRelationship.AUI2 rel)))
            then Some Skipped
            else
              Some (Counted
                      (jsStr (systemOf source) +:+ "|" +:+ jsStr propertyName
                       +:+ " ("
                       +:+ (jsStr (UmlsRelationship.REL rel) +:+ "/"
                            +:+ jsStr (UmlsRelationship.RELA rel))
                       +:+ ")"))
        end
  end.

(** *** The property code of a relationship record *)

(** The first property of a code system that carries a uri: what
    [property.find((p) => p.uri === uri)] returns. *)
Definition firstWithUri (uri : string) (props : list CodeSystem.property_t)
  (q : CodeSystem.property_t) : Prop :=
  exists before after,
    props = before ++ q :: after
    /\ CodeSystem.uri q = Some uri
    /\ forall x, In x before -> CodeSystem.uri x <> Some uri.

(** A source whose code system gives no usable code for a uri: it has no
    property list, or no property with that uri, or the first such property
    has no code or an empty one. *)
Definition declaresNoCode (uri : string) (source : Source) : Prop :=
  CodeSystem.property (resource source) = None
  \/ (exists props,
        CodeSystem.property (resource source) = Some props
        /\ forall x, In x props -> CodeSystem.uri x <> Some uri)
  \/ (exists props q,
        CodeSystem.property (resource source) = Some props
        /\ firstWithUri uri props q
        /\ (CodeSystem.code q = None \/ CodeSystem.code q = Some "")).

(** What the loop body does with a record of a registered source once its
    property code is [name]: with both endpoints resolved it appends the
    assertion that carries [name] for the system of the source and counts
    it under [system|name (REL/RELA)]; otherwise it skips the record with a
    warning that carries [name]. *)
Definition proceedsWith (relationshipProperties : gmap string string)
  (mappedCodes : gmap string UmlsConcept.t) (line : string)
  (st : Relationships.state) (source : Source) (name : string) : Prop :=
  let rel := UmlsRelationship.constructor line in
  let code := resolveCode mappedCodes (UmlsRelationship.AUI1 rel) in
  let value := resolveCode mappedCodes (UmlsRelationship.AUI2 rel) in
  let label := jsStr (UmlsRelationship.REL rel) +:+ "/"
               +:+ jsStr (UmlsRelationship.RELA rel) in
  processRelationships_body relationshipProperties mappedCodes line st
  = if truthy code && truthy value then
      Done (Relationships.mk (Relationships.processed st + 1)
              (Relationships.skipped st)
              (increment (Relationships.counts st)
                 (system source +:+ "|" +:+ name +:+ " (" +:+ label +:+ ")"))
              (pushCoding (system source) (Property.mk code (Some name) value)
                 (Relationships.properties st))
              (Relationships.warnings st))
    else
      Done (Relationships.mk (Relationships.processed st)
              (Relationships.skipped st + 1) (Relationships.counts st)
              (Relationships.properties st)
              (Relationships.warnings st ++
               [Relationships.mkWarning name label
                  (if truthy code then UmlsRelationship.AUI2 rel
                   else UmlsRelationship.AUI1 rel)])).

(** The record takes the code that the code system of its source declares
    for [uri], and is dropped when there is no usable one. *)
Definition usesDeclaredCode (relationshipProperties : gmap string string)
  (mappedCodes : gmap string UmlsConcept.t) (line : string)
  (st : Relationships.state) (source : Source) (uri : string) : Prop :=
  (forall props q name,
     CodeSystem.property (resource source) = Some props ->
     firstWithUri uri props q ->
     CodeSystem.code q = Some name ->
     name <> "" ->
     proceedsWith relationshipProperties mappedCodes line st source name)
  /\ (declaresNoCode uri source ->
      processRelationships_body relationshipProperties mappedCodes line st
      = Done st).

(** *** The whole run *)

(** The last accepted row of the concept file that carries an atom
    identifier. *)
Definition lastAtom (aui : string) (lines : list string) : option string :=
  List.find
    (fun line =>
       accepted line
       && String.eqb (jsStr (UmlsConcept.AUI (UmlsConcept.constructor line))) aui)
    (rev lines).

(** The distinct keys accepted for a system. *)
Definition distinctCodes (sys : string) (lines : list string) : gset string :=
  list_to_set
    (map (fun line => winnerKey (UmlsConcept.constructor line))
       (List.filter
          (fun line => accepted line && String.eqb (systemOfLine line) sys)
          lines)).

(** What the concept loop maintains about the codings appended so far:
    the last coding appended for the code of a winner is the coding of that
    winner. *)
Definition winnersSent (st : Concepts.state) : Prop :=
  forall key winner source,
    hasPipe key = true ->
    Concepts.mappedConcepts st !! key = Some winner ->
    passesFilters winner = Some source ->
    lastCoding (UmlsConcept.CODE winner)
      (appended (system source) (Concepts.codings st))
    = Some (Coding.mk (UmlsConcept.CODE winner) (UmlsConcept.STR winner)).

(** The one way the body of the relationship loop throws once the
    relationship-property map comes from the documentation file:
    [source.resource.property] on a member of [Object.prototype]. *)
Definition relationshipThrows (line : string) : bool :=
  let rel := UmlsRelationship.constructor line in
  match readProperty umlsSources (jsStr (UmlsRelationship.SAB rel)) with
  | Inherited =>
      strictEq (UmlsRelationship.SUPPRESS rel) (Some "N")
      && (strictEq (UmlsRelationship.REL rel) (Some "PAR")
          || strictEq (UmlsRelationship.REL rel) (Some "CHD"))
  | _ => false
  end.

(** What the three passes leave behind. *)
Record Run : Type := mkRun {
  concepts : Concepts.state;
  attributes : Properties.state;
  relationships : Relationships.state
}.

(** Lines 571-580.  [addSources] only registers the code systems; the four
    arguments are the lines of MRCONSO, MRSAT, MRDOC and MRREL. *)
Definition main (mrconso mrsat mrdoc mrrel : list string) : outcome Run :=
  bind (processConcepts mrconso) (fun concepts =>
  let mappedCodes := Concepts.mappedConcepts concepts in
  bind (processProperties mrsat) (fun attributes =>
  let relationshipProperties := prepareRelationshipProperties mrdoc in
  bind (processRelationships relationshipProperties mappedCodes mrrel)
    (fun relationships => Done (mkRun concepts attributes relationships)))).

(** A relationship row that asserts a property between two resolved
    codes, for the system of its source. *)
Definition assertedBy (relationshipProperties : gmap string string)
  (mappedCodes : gmap string UmlsConcept.t)
  (line sys : string) (property : Property.t) : Prop :=
  let rel := UmlsRelationship.constructor line in
  let source := readProperty umlsSources (jsStr (UmlsRelationship.SAB rel)) in
  source <> Missing
  /\ sys = jsStr (systemOf source)
  /\ strictEq (UmlsRelationship.SUPPRESS rel) (Some "N") = true
  /\ resolvePropertyName relationshipProperties source rel
     = Done (Property.property property)
  /\ Property.code property = resolveCode mappedCodes (UmlsRelationship.AUI1 rel)
  /\ Property.value property = resolveCode mappedCodes (UmlsRelationship.AUI2 rel)
  /\ truthy (Property.code property) = true
  /\ truthy (Property.value property) = true
  /\ truthy (Property.property property) = true.

(** An attribute row that gives a declared property of its code system. *)
Definition declaredBy (line sys : string) (prop : Property.t) : Prop :=
  let attr := UmlsAttribute.constructor line in
  exists source declared properties,
    readProperty umlsSources (jsStr (UmlsAttribute.SAB attr)) = Own source
    /\ sys = system source
    /\ strictEq (UmlsAttribute.SUPPRESS attr) (Some "N") = true
    /\ CodeSystem.property (resource source) = Some properties
    /\ In declared properties
    /\ (strictEq (UmlsAttribute.ATN attr) (CodeSystem.code declared)
        || aliasMatches (UmlsAttribute.ATN attr) (CodeSystem.code declared)) = true
    /\ prop = Property.mk (UmlsAttribute.CODE attr) (CodeSystem.code declared)
                (UmlsAttribute.ATV attr).

(** ** The batch emitter: capacity *)

Section EmitterFacts.

Context {A : Type}.
Implicit Types (e : Emitter A) (d : odict (list A)) (sys key : string).

Lemma oget_oset_eq {V : Type} (d : odict V) (key : string) (v : V) :
  oget (oset d key v) key = Some v.
Proof.
  induction d as [|[k w] d IH]; simpl.
  - now rewrite String.eqb_refl.
  - destruct (String.eqb k key) eqn:Hk; simpl; now rewrite Hk.
Qed.

Lemma oget_oset_ne {V : Type} (d : odict V) (key key' : string) (v : V) :
  key <> key' -> oget (oset d key v) key' = oget d key'.
Proof.
  intros Hne. induction d as [|[k w] d IH]; simpl.
  - destruct (String.eqb_spec key key'); [contradiction | reflexivity].
  - destruct (String.eqb_spec k key) as [->|Hk]; simpl.
    + destruct (String.eqb_spec key key'); [contradiction | reflexivity].
    + now rewrite IH.
Qed.

Lemma oset_oset {V : Type} (d : odict V) (key : string) (v w : V) :
  oset (oset d key v) key w = oset d key w.
Proof.
  induction d as [|[k u] d IH]; simpl.
  - now rewrite String.eqb_refl.
  - destruct (String.eqb k key) eqn:Hk; simpl; rewrite Hk; [reflexivity|].
    now rewrite IH.
Qed.

Lemma oget_None_keys {V : Type} (d : odict V) (key : string) :
  oget d key = None <-> ~ In key (map fst d).
Proof.
  induction d as [|[k w] d IH]; simpl.
  - tauto.
  - destruct (String.eqb_spec k key) as [->|Hk].
    + split; [discriminate | intros H; exfalso; apply H; now left].
    + rewrite IH. tauto.
Qed.

Lemma oset_keys {V : Type} (d : odict V) (key : string) (v : V) :
  map fst (oset d key v)
  = match oget d key with
    | Some _ => map fst d
    | None => map fst d ++ [key]
    end.
Proof.
  induction d as [|[k w] d IH]; simpl; [reflexivity|].
  destruct (String.eqb k key) eqn:Hk; simpl; [reflexivity|].
  rewrite IH. now destruct (oget d key).
Qed.

Lemma oset_NoDup {V : Type} (d : odict V) (key : string) (v : V) :
  List.NoDup (map fst d) -> List.NoDup (map fst (oset d key v)).
Proof.
  intros Hd. rewrite oset_keys. destruct (oget d key) eqn:Hg; [exact Hd|].
  apply oget_None_keys in Hg.
  apply List.NoDup_app; [exact Hd | repeat constructor; intros [] |].
  intros x Hx [<-|[]]. contradiction.
Qed.

Lemma postedFor_app sys (l1 l2 : list (string * list A)) :
  postedFor sys (l1 ++ l2) = postedFor sys l1 ++ postedFor sys l2.
Proof. unfold postedFor. now rewrite List.filter_app, map_app. Qed.

Lemma postedFor_single sys (s : string) (b : list A) :
  postedFor sys [(s, b)] = if String.eqb s sys then [b] else [].
Proof. unfold postedFor. simpl. now destruct (String.eqb s sys). Qed.

(** One append, seen from one system. *)
Lemma pushCoding_other sys s (x : A) e :
  s <> sys ->
  postedFor sys (posted (pushCoding s x e)) = postedFor sys (posted e)
  /\ openFor sys (pushCoding s x e) = openFor sys e.
Proof.
  intros Hne. unfold pushCoding, openFor.
  destruct (500 <=? _); simpl.
  - rewrite postedFor_app, postedFor_single.
    destruct (String.eqb_spec s sys); [contradiction|].
    rewrite app_nil_r, oget_oset_ne by assumption. auto.
  - rewrite oget_oset_ne by assumption. auto.
Qed.

Lemma pushCoding_same sys (x : A) e :
  let found := openFor sys e ++ [x] in
  (500 <= Z.of_nat (length found)
   /\ postedFor sys (posted (pushCoding sys x e))
      = postedFor sys (posted e) ++ [found]
   /\ openFor sys (pushCoding sys x e) = [])
  \/ (Z.of_nat (length found) < 500
      /\ postedFor sys (posted (pushCoding sys x e)) = postedFor sys (posted e)
      /\ openFor sys (pushCoding sys x e) = found).
Proof.
  unfold pushCoding, openFor. simpl.
  assert (Hf : match oget (pending e) sys with
               | Some found => found ++ [x]
               | None => [x]
               end
               = match oget (pending e) sys with
                 | Some found => found
                 | None => []
                 end ++ [x]) by now destruct (oget (pending e) sys).
  rewrite Hf.
  destruct (Z.leb_spec 500 (Z.of_nat (length
             (match oget (pending e) sys with
              | Some found => found
              | None => []
              end ++ [x])))) as [Hge|Hlt]; simpl.
  - left. rewrite postedFor_app, postedFor_single, String.eqb_refl, oget_oset_eq.
    auto.
  - right. rewrite oget_oset_eq. auto.
Qed.

Lemma pushCoding_NoDup s (x : A) e :
  List.NoDup (map fst (pending e)) ->
  List.NoDup (map fst (pending (pushCoding s x e))).
Proof.
  intros Hd. unfold pushCoding. destruct (500 <=? _); simpl; now apply oset_NoDup.
Qed.

(** The property emitter posts the stored array; with a capacity of 500
    that is always the array just pushed to. *)
Lemma pushProperty_pushCoding s (x : A) e :
  pushProperty s x e = Done (pushCoding s x e).
Proof.
  unfold pushProperty, pushCoding.
  destruct (oget (pending e) s) as [found|] eqn:Hg.
  - rewrite oget_oset_eq, !oset_oset. now destruct (500 <=? _).
  - reflexivity.
Qed.

Lemma pushProperties_fold (items : list (string * A)) e :
  pushProperties items e
  = Done (fold_left (fun e item => pushCoding (fst item) (snd item) e) items e).
Proof.
  revert e. induction items as [|item items IH]; intros e; simpl; [reflexivity|].
  rewrite pushProperty_pushCoding. simpl. apply IH.
Qed.

Lemma tracked_empty sys : tracked (A := A) sys emptyEmitter [].
Proof.
  unfold tracked, openFor, postedFor. simpl.
  split; [apply List.NoDup_nil|]. split; [lia|]. split; [constructor | reflexivity].
Qed.

Lemma tracked_push sys s (x : A) e its :
  tracked sys e its ->
  tracked sys (pushCoding s x e)
    (its ++ if String.eqb s sys then [x] else []).
Proof.
  intros (Hd & Hopen & Hfull & Hits).
  split; [now apply pushCoding_NoDup|].
  destruct (String.eqb_spec s sys) as [->|Hne].
  - destruct (pushCoding_same sys x e) as [(Hge & Hp & Ho) | (Hlt & Hp & Ho)];
      rewrite Hp, Ho.
    + split; [simpl; lia|]. split.
      * apply Forall_app. split; [exact Hfull|].
        constructor; [|constructor].
        rewrite length_app in *. simpl in *. lia.
      * rewrite concat_app. simpl. rewrite !app_nil_r, <- Hits.
        now rewrite app_assoc.
    + split; [exact Hlt|]. split; [exact Hfull|].
      rewrite <- Hits. now rewrite app_assoc.
  - destruct (pushCoding_other sys s x e Hne) as [-> ->].
    rewrite app_nil_r. auto.
Qed.

Lemma itemsFor_cons sys (item : string * A) (items : list (string * A)) :
  itemsFor sys (item :: items)
  = (if String.eqb (fst item) sys then [snd item] else []) ++ itemsFor sys items.
Proof. unfold itemsFor. simpl. now destruct (String.eqb (fst item) sys). Qed.

Lemma tracked_fold sys (items : list (string * A)) e its :
  tracked sys e its ->
  tracked sys
    (fold_left (fun e item => pushCoding (fst item) (snd item) e) items e)
    (its ++ itemsFor sys items).
Proof.
  revert e its. induction items as [|item items IH]; intros e its Ht; simpl.
  - unfold itemsFor. simpl. now rewrite app_nil_r.
  - rewrite itemsFor_cons, app_assoc. apply IH. now apply tracked_push.
Qed.

(** The end-of-stream flush posts the open batch of a system once, when it
    is not empty. *)
Lemma postedFor_flush_entries sys d :
  List.NoDup (map fst d) ->
  postedFor sys
    (List.filter (fun entry => 0 <? Z.of_nat (length (snd entry))) d)
  = match oget d sys with
    | Some found => if 0 <? Z.of_nat (length found) then [found] else []
    | None => []
    end.
Proof.
  induction d as [|[k b] d IH]; intros Hd; simpl; [reflexivity|].
  inversion Hd as [|? ? Hk Hd']; subst.
  destruct (String.eqb_spec k sys) as [->|Hne].
  - assert (Hrest : postedFor sys
              (List.filter (fun entry => 0 <? Z.of_nat (length (snd entry))) d) = []).
    { rewrite IH by assumption.
      destruct (oget d sys) eqn:Hg; [|reflexivity].
      assert (Hn : oget d sys = None) by now apply oget_None_keys.
      congruence. }
    destruct (0 <? Z.of_nat (length b)); simpl.
    + unfold postedFor in *. simpl. rewrite String.eqb_refl. simpl.
      now rewrite Hrest.
    + exact Hrest.
  - destruct (0 <? Z.of_nat (length b)); simpl.
    + unfold postedFor in *. simpl.
      destruct (String.eqb_spec k sys); [contradiction|]. now apply IH.
    + now apply IH.
Qed.

Lemma postedFor_flushAll sys e :
  List.NoDup (map fst (pending e)) ->
  postedFor sys (posted (flushAll e))
  = postedFor sys (posted e)
    ++ (if 0 <? Z.of_nat (length (openFor sys e)) then [openFor sys e] else []).
Proof.
  intros Hd. unfold flushAll. simpl.
  rewrite postedFor_app, postedFor_flush_entries by assumption.
  unfold openFor. now destruct (oget (pending e) sys).
Qed.

Lemma totalLength_concat (batches : list (list A)) :
  totalLength batches = Z.of_nat (length (concat batches)).
Proof.
  induction batches as [|b batches IH]; simpl; [reflexivity|].
  rewrite length_app, IH. lia.
Qed.

Lemma totalLength_full (batches : list (list A)) :
  Forall (fun b => Z.of_nat (length b) = 500) batches ->
  totalLength batches = 500 * Z.of_nat (length batches).
Proof.
  induction 1 as [|b batches Hb _ IH]; simpl; [reflexivity|].
  rewrite IH, Hb. lia.
Qed.

End EmitterFacts.

(** Capacity of the emitter on an arbitrary stream of appends. *)
Lemma emitter_capacity (A : Type) (items : list (string * A))
  (sys : string) :
  let N := Z.of_nat (length (itemsFor sys items)) in
  let loop :=
    fold_left (fun e item => pushCoding (fst item) (snd item) e)
      items emptyEmitter in
  let early := postedFor sys (posted loop) in
  let flushed := postedFor sys (posted (emitCodings items)) in
  emitProperties items = Done (emitCodings items)
  /\ Z.of_nat (length flushed) = (N + 499) / 500
  /\ totalLength flushed = N
  /\ concat flushed = itemsFor sys items
  /\ Forall (fun b => Z.of_nat (length b) = 500) early
  /\ (flushed = early
      \/ exists last,
           flushed = early ++ [last] /\ 0 < Z.of_nat (length last) < 500).
Proof.
  intros N loop early flushed.
  split; [unfold emitProperties; rewrite pushProperties_fold; reflexivity|].
  destruct (tracked_fold sys items emptyEmitter [] (tracked_empty sys))
    as (Hd & Hopen & Hfull & Hits).
  fold loop in Hd, Hopen, Hfull, Hits. fold early in Hfull, Hits.
  simpl in Hits.
  assert (Hflushed : flushed
            = early ++ (if 0 <? Z.of_nat (length (openFor sys loop))
                        then [openFor sys loop] else []))
    by (apply postedFor_flushAll; exact Hd).
  assert (Hlen : 500 * Z.of_nat (length early)
                 + Z.of_nat (length (openFor sys loop)) = N).
  { unfold N. rewrite <- Hits, length_app, <- totalLength_full by assumption.
    rewrite totalLength_concat. lia. }
  destruct (Z.ltb_spec 0 (Z.of_nat (length (openFor sys loop)))) as [Hpos|Hzero].
  - assert (Hcat : concat flushed = itemsFor sys items).
    { rewrite Hflushed, concat_app. simpl. now rewrite app_nil_r. }
    split; [|split; [|split; [exact Hcat|split; [exact Hfull|]]]].
    + rewrite Hflushed, length_app. simpl.
      apply Z.div_unique with (r := Z.of_nat (length (openFor sys loop)) - 1); lia.
    + rewrite totalLength_concat, Hcat. reflexivity.
    + right. exists (openFor sys loop). split; [exact Hflushed | lia].
  - assert (Hnil : openFor sys loop = []).
    { destruct (openFor sys loop); [reflexivity | simpl in Hzero; lia]. }
    rewrite Hnil in *. simpl in *. rewrite app_nil_r in Hflushed, Hits.
    assert (Hcat : concat flushed = itemsFor sys items) by now rewrite Hflushed.
    split; [|split; [|split; [exact Hcat|split; [exact Hfull|]]]].
    + rewrite Hflushed. apply Z.div_unique with (r := 499); lia.
    + rewrite totalLength_concat, Hcat. reflexivity.
    + left. exact Hflushed.
Qed.

(** ** Facts about strings, keys and the loop *)

Lemma hasPipe_append (a b : string) :
  hasPipe (a +:+ b) = hasPipe a || hasPipe b.
Proof.
  induction a as [|c a IH]; simpl; [reflexivity|].
  rewrite IH. now rewrite orb_assoc.
Qed.

Lemma split_nonempty (line : string) : split line <> [].
Proof.
  destruct line as [|c rest]; simpl; [discriminate|].
  destruct (Ascii.eqb c pipe); [discriminate|].
  destruct (split rest); discriminate.
Qed.

Lemma split_fields_pipe_free (line : string) :
  Forall (fun f => hasPipe f = false) (split line).
Proof.
  induction line as [|c rest IH]; simpl.
  - constructor; [reflexivity | constructor].
  - destruct (Ascii.eqb c pipe) eqn:Hc.
    + constructor; [reflexivity | exact IH].
    + destruct (split rest) as [|f fs] eqn:Hs.
      * constructor; [simpl; now rewrite Hc | constructor].
      * inversion IH as [|? ? Hf Hfs]; subst.
        constructor; [simpl; now rewrite Hc, Hf | exact Hfs].
Qed.

Lemma column_pipe_free (line : string) (i : nat) (f : string) :
  column (split line) i = Some f -> hasPipe f = false.
Proof.
  unfold column. intros H. apply nth_error_In in H.
  pose proof (split_fields_pipe_free line) as HF.
  rewrite List.Forall_forall in HF. now apply HF.
Qed.

Lemma jsStr_column_pipe_free (line : string) (i : nat) :
  hasPipe (jsStr (column (split line) i)) = false.
Proof.
  destruct (column (split line) i) as [f|] eqn:H; simpl.
  - now apply column_pipe_free in H.
  - reflexivity.
Qed.

Lemma forAwait_app {S : Type} (body : string -> S -> outcome S)
  (l1 l2 : list string) (st : S) :
  forAwait body (l1 ++ l2) st = bind (forAwait body l1 st) (forAwait body l2).
Proof.
  revert st. induction l1 as [|x l1 IH]; intros st; simpl; [reflexivity|].
  destruct (body x st) as [st1|]; simpl; [apply IH | reflexivity].
Qed.

Lemma forAwait_invariant {S : Type} (body : string -> S -> outcome S)
  (P : S -> Prop) :
  (forall line st st', P st -> body line st = Done st' -> P st') ->
  forall lines st st', P st -> forAwait body lines st = Done st' -> P st'.
Proof.
  intros Hstep lines. induction lines as [|x lines IH]; intros st st' HP Hrun.
  - simpl in Hrun. now inversion Hrun; subst.
  - simpl in Hrun. destruct (body x st) as [st1|] eqn:Hb; simpl in Hrun.
    + eapply IH; [eapply Hstep; eassumption | exact Hrun].
    + discriminate.
Qed.

Lemma AUI_pipe_free (line : string) :
  hasPipe (jsStr (UmlsConcept.AUI (UmlsConcept.constructor line))) = false.
Proof. apply jsStr_column_pipe_free. Qed.

Lemma winnerKey_has_pipe (concept : UmlsConcept.t) :
  hasPipe (winnerKey concept) = true.
Proof.
  unfold winnerKey. rewrite !hasPipe_append. simpl.
  now rewrite orb_true_r.
Qed.

Lemma AUI_not_winnerKey (line : string) (concept : UmlsConcept.t) :
  jsStr (UmlsConcept.AUI (UmlsConcept.constructor line)) <> winnerKey concept.
Proof.
  intros Heq. pose proof (AUI_pipe_free line) as Ha.
  rewrite Heq, winnerKey_has_pipe in Ha. discriminate.
Qed.

(** What one run of the loop body does to [mappedConcepts]. *)
Lemma body_mappedConcepts (line : string) (st st' : Concepts.state) :
  processConcepts_body line st = Done st' ->
  let concept := UmlsConcept.constructor line in
  let atoms := <[jsStr (UmlsConcept.AUI concept) := concept]> (Concepts.mappedConcepts st) in
  Concepts.mappedConcepts st' = Concepts.mappedConcepts st
  \/ Concepts.mappedConcepts st' = atoms
  \/ Concepts.mappedConcepts st' = <[winnerKey concept := concept]> atoms.
Proof.
  unfold processConcepts_body. intros H. simpl.
  destruct (readProperty umlsSources _) as [source| |].
  - destruct (negb (strictEq _ (Some "ENG"))); [inversion H; auto|].
    destruct (negb (includes _ _)); [inversion H; auto|].
    destruct (negb (strictEq _ (Some "N"))); [inversion H; auto|].
    destruct (_ !! _) as [existing|].
    + destruct (_ <=? _); inversion H; auto.
    + inversion H; auto.
  - destruct (negb _); [inversion H; auto | discriminate].
  - inversion H; auto.
Qed.

Lemma indexed_insert_atom (line : string) (mapped : gmap string UmlsConcept.t) :
  indexed mapped ->
  indexed (<[jsStr (UmlsConcept.AUI (UmlsConcept.constructor line))
             := UmlsConcept.constructor line]> mapped).
Proof.
  intros Hi key concept. rewrite lookup_insert.
  destruct (decide (_ = key)) as [<-|Hne].
  - intros [= <-]. now rewrite AUI_pipe_free.
  - apply Hi.
Qed.

Lemma indexed_insert_winner (concept : UmlsConcept.t)
  (mapped : gmap string UmlsConcept.t) :
  indexed mapped -> indexed (<[winnerKey concept := concept]> mapped).
Proof.
  intros Hi key c. rewrite lookup_insert.
  destruct (decide (_ = key)) as [<-|Hne].
  - intros [= <-]. now rewrite winnerKey_has_pipe.
  - apply Hi.
Qed.

Lemma body_indexed (line : string) (st st' : Concepts.state) :
  indexed (Concepts.mappedConcepts st) ->
  processConcepts_body line st = Done st' ->
  indexed (Concepts.mappedConcepts st').
Proof.
  intros Hi H. apply body_mappedConcepts in H. simpl in H.
  destruct H as [-> | [-> | ->]].
  - exact Hi.
  - now apply indexed_insert_atom.
  - now apply indexed_insert_winner, indexed_insert_atom.
Qed.

Lemma processConcepts_loop_indexed (lines : list string) (st : Concepts.state) :
  forAwait processConcepts_body lines Concepts.initial = Done st ->
  indexed (Concepts.mappedConcepts st).
Proof.
  apply (forAwait_invariant processConcepts_body
           (fun s => indexed (Concepts.mappedConcepts s))).
  - intros line s s'. apply body_indexed.
  - intros key concept. simpl. rewrite lookup_empty. discriminate.
Qed.

(** The state the loop reached, recovered from the result of the pass. *)
Lemma processConcepts_inv (lines : list string) (st : Concepts.state) :
  processConcepts lines = Done st ->
  exists loop,
    forAwait processConcepts_body lines Concepts.initial = Done loop
    /\ Concepts.mappedConcepts st = Concepts.mappedConcepts loop
    /\ Concepts.counts st = Concepts.counts loop
    /\ Concepts.processed st = Concepts.processed loop
    /\ Concepts.skipped st = Concepts.skipped loop
    /\ Concepts.codings st = flushAll (Concepts.codings loop).
Proof.
  unfold processConcepts. intros H.
  destruct (forAwait _ _ _) as [loop|]; simpl in H; [|discriminate].
  inversion H; subst; simpl. exists loop. repeat split; reflexivity.
Qed.

(** ** Keyspaces of the atom index *)

(** C10: every column of a split line is free of pipes, so an atom key
    ([AUI]) has no pipe while a winner key ([SAB|CODE]) has one; the two
    never coincide; in the index returned by the concept pass a read under
    either atom identifier of a relationship line yields, if anything, a
    record stored under its own atom identifier; and a run of the loop body
    leaves every pipe-free key alone except the atom identifier of its own
    record, which it can only bind to that record. *)
Theorem atom_and_winner_keys_disjoint :
  (forall line i f, column (split line) i = Some f -> hasPipe f = false)
  /\ (forall line,
        hasPipe (jsStr (UmlsConcept.AUI (UmlsConcept.constructor line))) = false
        /\ hasPipe (winnerKey (UmlsConcept.constructor line)) = true)
  /\ (forall line line',
        jsStr (UmlsConcept.AUI (UmlsConcept.constructor line))
        <> winnerKey (UmlsConcept.constructor line'))
  /\ (forall lines st relLine aui concept,
        processConcepts lines = Done st ->
        aui = UmlsRelationship.AUI1 (UmlsRelationship.constructor relLine)
        \/ aui = UmlsRelationship.AUI2 (UmlsRelationship.constructor relLine) ->
        Concepts.mappedConcepts st !! jsStr aui = Some concept ->
        jsStr (UmlsConcept.AUI concept) = jsStr aui
        /\ winnerKey concept <> jsStr aui)
  /\ (forall line st st' key,
        processConcepts_body line st = Done st' ->
        hasPipe key = false ->
        (key <> jsStr (UmlsConcept.AUI (UmlsConcept.constructor line)) ->
         Concepts.mappedConcepts st' !! key = Concepts.mappedConcepts st !! key)
        /\ (Concepts.mappedConcepts st' !! key = Concepts.mappedConcepts st !! key
            \/ Concepts.mappedConcepts st' !! key
               = Some (UmlsConcept.constructor line))).
Proof.
  split; [exact column_pipe_free|].
  split; [intros line; split; [apply AUI_pipe_free | apply winnerKey_has_pipe]|].
  split; [intros line line'; apply AUI_not_winnerKey|].
  split.
  - intros lines st relLine aui concept Hrun Haui Hget.
    apply processConcepts_inv in Hrun as (loop & Hloop & Hm & _).
    apply processConcepts_loop_indexed in Hloop.
    rewrite Hm in Hget. specialize (Hloop _ _ Hget).
    assert (Hp : hasPipe (jsStr aui) = false)
      by (destruct Haui as [-> | ->]; apply jsStr_column_pipe_free).
    rewrite Hp in Hloop. split; [exact Hloop|].
    intros Hk. pose proof (winnerKey_has_pipe concept) as Hw.
    rewrite Hk, Hp in Hw. discriminate.
  - intros line st st' key Hbody Hkey.
    apply body_mappedConcepts in Hbody. simpl in Hbody.
    assert (Hw : winnerKey (UmlsConcept.constructor line) <> key).
    { intros <-. rewrite winnerKey_has_pipe in Hkey. discriminate. }
    destruct Hbody as [-> | [-> | ->]].
    + split; auto.
    + split.
      * intros Hne. rewrite lookup_insert_ne; auto.
      * rewrite lookup_insert. destruct (decide _); auto.
    + rewrite (lookup_insert_ne _ _ _ _ Hw). split.
      * intros Hne. rewrite lookup_insert_ne; auto.
      * rewrite lookup_insert. destruct (decide _); auto.
Qed.

(** ** The concept pass, record by record *)

Lemma passesFilters_Own (concept : UmlsConcept.t) (source : Source) :
  passesFilters concept = Some source ->
  readProperty umlsSources (jsStr (UmlsConcept.SAB concept)) = Own source
  /\ strictEq (UmlsConcept.LAT concept) (Some "ENG") = true
  /\ includes (tty source) (UmlsConcept.TTY concept) = true
  /\ strictEq (UmlsConcept.SUPPRESS concept) (Some "N") = true.
Proof.
  unfold passesFilters.
  destruct (readProperty umlsSources _) as [src| |]; try discriminate.
  destruct (strictEq (UmlsConcept.LAT concept) _); simpl; try discriminate.
  destruct (includes (tty src) _) eqn:Ht; simpl; try discriminate.
  destruct (strictEq (UmlsConcept.SUPPRESS concept) _); simpl; try discriminate.
  intros [= <-]. repeat split. exact Ht.
Qed.

(** A record that passes the filters is handled by lines 713-742. *)
Lemma body_accepts (line : string) (st : Concepts.state) (source : Source) :
  passesFilters (UmlsConcept.constructor line) = Some source ->
  processConcepts_body line st
  = Done (acceptConcept source (UmlsConcept.constructor line) st).
Proof.
  intros H. apply passesFilters_Own in H as (Hs & Hl & Ht & Hn).
  unfold processConcepts_body, acceptConcept. rewrite Hs, Hl, Ht, Hn. simpl.
  destruct (_ !! _) as [existing|]; [|reflexivity].
  now destruct (_ <=? _).
Qed.

(** A record that fails a filter changes nothing except, possibly, the
    skip counter; it throws when its [SAB] names a member of
    [Object.prototype] and its language is English. *)
Lemma body_rejects (line : string) (st : Concepts.state) :
  passesFilters (UmlsConcept.constructor line) = None ->
  processConcepts_body line st = TypeError
  \/ exists n,
       (n = 0 \/ n = 1)
       /\ processConcepts_body line st
          = Done (Concepts.mk (Concepts.processed st) (Concepts.skipped st + n)
                    (Concepts.counts st) (Concepts.codings st)
                    (Concepts.mappedConcepts st)).
Proof.
  unfold passesFilters, processConcepts_body. cbv zeta.
  set (c := UmlsConcept.constructor line).
  assert (Hst : st = Concepts.mk (Concepts.processed st) (Concepts.skipped st + 0)
                       (Concepts.counts st) (Concepts.codings st)
                       (Concepts.mappedConcepts st))
    by (destruct st; simpl; f_equal; lia).
  assert (Hsame : exists n, (n = 0 \/ n = 1)
            /\ Done st = Done (Concepts.mk (Concepts.processed st)
                                (Concepts.skipped st + n) (Concepts.counts st)
                                (Concepts.codings st) (Concepts.mappedConcepts st)))
    by (exists 0; split; [now left | now rewrite <- Hst]).
  destruct (readProperty umlsSources (jsStr (UmlsConcept.SAB c))) as [src| |].
  - destruct (strictEq (UmlsConcept.LAT c) (Some "ENG")); cbn [negb andb];
      [|intros _; right; exact Hsame].
    destruct (includes (tty src) (UmlsConcept.TTY c)); cbn [negb andb];
      [|intros _; right; exact Hsame].
    destruct (strictEq (UmlsConcept.SUPPRESS c) (Some "N")); cbn [negb andb];
      [discriminate|].
    intros _. right. exists 1. split; [now right | reflexivity].
  - intros _. destruct (strictEq (UmlsConcept.LAT c) (Some "ENG")); cbn [negb];
      [now left | right; exact Hsame].
  - intros _. right. exact Hsame.
Qed.

Lemma winner_lookup_after_atom (line : string) (concept : UmlsConcept.t)
  (mapped : gmap string UmlsConcept.t) :
  (<[jsStr (UmlsConcept.AUI (UmlsConcept.constructor line))
     := UmlsConcept.constructor line]> mapped) !! winnerKey concept
  = mapped !! winnerKey concept.
Proof. apply lookup_insert_ne, AUI_not_winnerKey. Qed.

Lemma oget_increment_eq (counts : odict Z) (key : string) :
  oget (increment counts key) key
  = Some (match oget counts key with Some n => n | None => 0 end + 1).
Proof. unfold increment. apply oget_oset_eq. Qed.

Lemma oget_increment_ne (counts : odict Z) (key key' : string) :
  key <> key' -> oget (increment counts key) key' = oget counts key'.
Proof. unfold increment. apply oget_oset_ne. Qed.

Lemma appended_pushCoding {A : Type} (sys s : string) (x : A) (e : Emitter A) :
  appended sys (pushCoding s x e)
  = appended sys e ++ (if String.eqb s sys then [x] else []).
Proof.
  unfold appended. fold (openFor sys (pushCoding s x e)). fold (openFor sys e).
  destruct (String.eqb_spec s sys) as [->|Hne].
  - destruct (pushCoding_same sys x e) as [(_ & -> & ->) | (_ & -> & ->)].
    + rewrite concat_app. simpl. now rewrite !app_nil_r, app_assoc.
    + now rewrite app_assoc.
  - destruct (pushCoding_other sys s x e Hne) as [-> ->]. now rewrite app_nil_r.
Qed.

(** The winner and the counts after lines 713-726, by cases on the
    incumbent. *)
Lemma acceptConcept_winner (line : string) (st : Concepts.state) (source : Source) :
  let concept := UmlsConcept.constructor line in
  let st' := acceptConcept source concept st in
  match Concepts.mappedConcepts st !! winnerKey concept with
  | None =>
      Concepts.mappedConcepts st' !! winnerKey concept = Some concept
      /\ Concepts.counts st' = increment (Concepts.counts st) (system source)
  | Some existingConcept =>
      Concepts.counts st' = Concepts.counts st
      /\ Concepts.mappedConcepts st' !! winnerKey concept
         = Some (if indexOf (tty source) (UmlsConcept.TTY concept)
                    <? indexOf (tty source) (UmlsConcept.TTY existingConcept)
                 then concept else existingConcept)
  end.
Proof.
  intros concept st'. subst concept st'.
  unfold acceptConcept. rewrite winner_lookup_after_atom.
  destruct (Concepts.mappedConcepts st !! _) as [existing|] eqn:Hw.
  - destruct (Z.leb_spec (indexOf (tty source) (UmlsConcept.TTY existing))
                (indexOf (tty source)
                   (UmlsConcept.TTY (UmlsConcept.constructor line))))
      as [Hle|Hlt]; cbn [Concepts.counts Concepts.mappedConcepts emitWinner].
    + split; [reflexivity|]. rewrite winner_lookup_after_atom, Hw.
      destruct (Z.ltb_spec
                  (indexOf (tty source)
                     (UmlsConcept.TTY (UmlsConcept.constructor line)))
                  (indexOf (tty source) (UmlsConcept.TTY existing)));
        [lia | reflexivity].
    + split; [reflexivity|]. rewrite lookup_insert_eq.
      destruct (Z.ltb_spec
                  (indexOf (tty source)
                     (UmlsConcept.TTY (UmlsConcept.constructor line)))
                  (indexOf (tty source) (UmlsConcept.TTY existing)));
        [reflexivity | lia].
  - cbn [Concepts.counts Concepts.mappedConcepts emitWinner].
    split; [apply lookup_insert_eq | reflexivity].
Qed.

(** C2: for a record that passes the filters, when no winner is stored
    under its [SAB|CODE] key the record becomes the winner and the count of
    its system goes up by exactly one, every other count staying as it was;
    when a winner is stored, the record replaces it exactly when its
    priority index is strictly lower, and the counts do not change.  For two
    such records of one source and code with priority indices 2 and 0, both
    arrival orders end with the index-0 record as winner and a count of
    exactly one for the system. *)
Theorem winner_update_and_first_occurrence :
  (forall line st source,
     let concept := UmlsConcept.constructor line in
     passesFilters concept = Some source ->
     exists st',
       processConcepts_body line st = Done st'
       /\ match Concepts.mappedConcepts st !! winnerKey concept with
          | None =>
              Concepts.mappedConcepts st' !! winnerKey concept = Some concept
              /\ oget (Concepts.counts st') (system source)
                 = Some (match oget (Concepts.counts st) (system source) with
                         | Some n => n
                         | None => 0
                         end + 1)
              /\ (forall other, other <> system source ->
                  oget (Concepts.counts st') other = oget (Concepts.counts st) other)
          | Some existingConcept =>
              Concepts.counts st' = Concepts.counts st
              /\ Concepts.mappedConcepts st' !! winnerKey concept
                 = Some (if indexOf (tty source) (UmlsConcept.TTY concept)
                            <? indexOf (tty source) (UmlsConcept.TTY existingConcept)
                         then concept else existingConcept)
          end)
  /\ (forall lineA lineB source,
        let a := UmlsConcept.constructor lineA in
        let b := UmlsConcept.constructor lineB in
        passesFilters a = Some source ->
        passesFilters b = Some source ->
        UmlsConcept.SAB a = UmlsConcept.SAB b ->
        UmlsConcept.CODE a = UmlsConcept.CODE b ->
        indexOf (tty source) (UmlsConcept.TTY a) = 2 ->
        indexOf (tty source) (UmlsConcept.TTY b) = 0 ->
        forall lines, lines = [lineA; lineB] \/ lines = [lineB; lineA] ->
        exists st,
          processConcepts lines = Done st
          /\ Concepts.mappedConcepts st !! winnerKey b = Some b
          /\ oget (Concepts.counts st) (system source) = Some 1).
Proof.
  split.
  - intros line st source concept Hp. subst concept.
    exists (acceptConcept source (UmlsConcept.constructor line) st).
    split; [exact (body_accepts line st source Hp)|].
    pose proof (acceptConcept_winner line st source) as Hstep.
    cbv zeta in Hstep.
    destruct (Concepts.mappedConcepts st !! _) as [existing|]; [exact Hstep|].
    destruct Hstep as [Hw ->]. split; [exact Hw|]. split.
    + apply oget_increment_eq.
    + intros other Hne. apply oget_increment_ne. congruence.
  - intros lineA lineB source a b Ha Hb Hsab Hcode Hia Hib lines Hlines.
    subst a b.
    assert (Hkey : winnerKey (UmlsConcept.constructor lineA)
                   = winnerKey (UmlsConcept.constructor lineB))
      by (unfold winnerKey; now rewrite Hsab, Hcode).
    unfold processConcepts.
    destruct Hlines as [-> | ->]; cbn [forAwait bind].
    + rewrite (body_accepts lineA _ source Ha). cbn [bind].
      rewrite (body_accepts lineB _ source Hb). cbn [bind].
      eexists. split; [reflexivity|].
      cbn [Concepts.counts Concepts.mappedConcepts].
      pose proof (acceptConcept_winner lineA Concepts.initial source) as H1.
      cbv zeta in H1. cbn [Concepts.mappedConcepts Concepts.initial] in H1.
      rewrite lookup_empty in H1. destruct H1 as [Hw1 Hc1].
      pose proof (acceptConcept_winner lineB
                    (acceptConcept source (UmlsConcept.constructor lineA)
                       Concepts.initial) source) as H2.
      cbv zeta in H2. rewrite <- Hkey, Hw1, Hkey, Hia, Hib in H2.
      destruct H2 as [Hc2 Hw2]. split; [exact Hw2|].
      rewrite Hc2, Hc1. apply oget_increment_eq.
    + rewrite (body_accepts lineB _ source Hb). cbn [bind].
      rewrite (body_accepts lineA _ source Ha). cbn [bind].
      eexists. split; [reflexivity|].
      cbn [Concepts.counts Concepts.mappedConcepts].
      pose proof (acceptConcept_winner lineB Concepts.initial source) as H1.
      cbv zeta in H1. cbn [Concepts.mappedConcepts Concepts.initial] in H1.
      rewrite lookup_empty in H1. destruct H1 as [Hw1 Hc1].
      pose proof (acceptConcept_winner lineA
                    (acceptConcept source (UmlsConcept.constructor lineB)
                       Concepts.initial) source) as H2.
      cbv zeta in H2. rewrite Hkey, Hw1, Hia, Hib in H2.
      destruct H2 as [Hc2 Hw2]. split; [exact Hw2|].
      rewrite Hc2, Hc1. apply oget_increment_eq.
Qed.

(** C3 (as amended): a record whose [SUPPRESS] is not ['N'] never changes
    the atom index, the winners, the counts, the batches or the processed
    counter; it adds exactly one to the skip counter when it passed the
    source, language and term-type filters, and leaves the skip counter
    alone when one of those earlier filters rejected it. *)
Theorem suppressed_record_is_dropped (line : string) (st : Concepts.state) :
  let concept := UmlsConcept.constructor line in
  strictEq (UmlsConcept.SUPPRESS concept) (Some "N") = false ->
  (forall st',
     processConcepts_body line st = Done st' ->
     Concepts.mappedConcepts st' = Concepts.mappedConcepts st
     /\ Concepts.counts st' = Concepts.counts st
     /\ Concepts.codings st' = Concepts.codings st
     /\ Concepts.processed st' = Concepts.processed st)
  /\ (forall source,
        readProperty umlsSources (jsStr (UmlsConcept.SAB concept)) = Own source ->
        strictEq (UmlsConcept.LAT concept) (Some "ENG") = true ->
        includes (tty source) (UmlsConcept.TTY concept) = true ->
        processConcepts_body line st
        = Done (Concepts.mk (Concepts.processed st) (Concepts.skipped st + 1)
                  (Concepts.counts st) (Concepts.codings st)
                  (Concepts.mappedConcepts st)))
  /\ (readProperty umlsSources (jsStr (UmlsConcept.SAB concept)) = Missing
      \/ strictEq (UmlsConcept.LAT concept) (Some "ENG") = false
      \/ (exists source,
            readProperty umlsSources (jsStr (UmlsConcept.SAB concept)) = Own source
            /\ includes (tty source) (UmlsConcept.TTY concept) = false) ->
      processConcepts_body line st = Done st).
Proof.
  intros concept Hsup. subst concept.
  assert (Hnone : passesFilters (UmlsConcept.constructor line) = None).
  { unfold passesFilters. destruct (readProperty umlsSources _); [|reflexivity..].
    rewrite Hsup. now rewrite andb_false_r. }
  split; [|split].
  - intros st' Hbody.
    destruct (body_rejects line st Hnone) as [Hthrow | (n & _ & Hdone)];
      [congruence|].
    rewrite Hdone in Hbody. inversion Hbody; subst. simpl. auto.
  - intros source Hs Hl Ht. unfold processConcepts_body. cbv zeta.
    now rewrite Hs, Hl, Ht, Hsup.
  - unfold processConcepts_body. cbv zeta.
    intros [Hm | [Hl | (source & Hs & Ht)]].
    + now rewrite Hm.
    + rewrite Hl. now destruct (readProperty umlsSources _).
    + rewrite Hs, Ht. now destruct (strictEq (UmlsConcept.LAT _) _).
Qed.

Lemma totalLength_app {A : Type} (l1 l2 : list (list A)) :
  totalLength (l1 ++ l2) = totalLength l1 + totalLength l2.
Proof. induction l1 as [|b l1 IH]; simpl; [reflexivity | rewrite IH; lia]. Qed.

Lemma totalLength_oset {A : Type} (d : odict (list A)) (key : string) (v : list A) :
  totalLength (map snd (oset d key v))
  = totalLength (map snd d)
    - Z.of_nat (length (match oget d key with Some l => l | None => [] end))
    + Z.of_nat (length v).
Proof.
  induction d as [|[k w] d IH]; simpl; [lia|].
  destruct (String.eqb k key); simpl; [lia|]. rewrite IH. lia.
Qed.

Lemma appendedCount_pushCoding {A : Type} (s : string) (x : A) (e : Emitter A) :
  appendedCount (pushCoding s x e) = appendedCount e + 1.
Proof.
  unfold appendedCount, pushCoding.
  assert (Hf : Z.of_nat (length (match oget (pending e) s with
                                 | Some found => found ++ [x]
                                 | None => [x]
                                 end))
               = Z.of_nat (length (match oget (pending e) s with
                                   | Some l => l
                                   | None => []
                                   end)) + 1).
  { destruct (oget (pending e) s); [rewrite length_app|]; simpl; lia. }
  destruct (500 <=? _); cbn [posted pending].
  - rewrite map_app, totalLength_app, totalLength_oset. simpl. lia.
  - rewrite totalLength_oset. lia.
Qed.

(** C7 (as amended): a record that passes the filters appends its own
    [{code, display}] to the batch of its system exactly when it becomes the
    winner of its [SAB|CODE] key or displaces the incumbent with a strictly
    lower priority index, and is then counted as processed; a record that
    does not outrank the incumbent appends nothing.  At every point of the
    loop the number of codings appended so far is the processed counter. *)
Theorem coding_appended_only_for_new_winner :
  (forall line st source,
     let concept := UmlsConcept.constructor line in
     let wins :=
       match Concepts.mappedConcepts st !! winnerKey concept with
       | None => true
       | Some existingConcept =>
           indexOf (tty source) (UmlsConcept.TTY concept)
           <? indexOf (tty source) (UmlsConcept.TTY existingConcept)
       end in
     passesFilters concept = Some source ->
     exists st',
       processConcepts_body line st = Done st'
       /\ (forall sys,
             appended sys (Concepts.codings st')
             = appended sys (Concepts.codings st)
               ++ (if wins && String.eqb (system source) sys
                   then [Coding.mk (UmlsConcept.CODE concept)
                           (UmlsConcept.STR concept)]
                   else []))
       /\ Concepts.processed st'
          = Concepts.processed st + (if wins then 1 else 0))
  /\ (forall lines st,
        forAwait processConcepts_body lines Concepts.initial = Done st ->
        appendedCount (Concepts.codings st) = Concepts.processed st).
Proof.
  split.
  - intros line st source concept wins Hp. subst concept wins.
    exists (acceptConcept source (UmlsConcept.constructor line) st).
    split; [exact (body_accepts line st source Hp)|].
    unfold acceptConcept. rewrite winner_lookup_after_atom.
    destruct (Concepts.mappedConcepts st !! _) as [existing|].
    + destruct (Z.leb_spec (indexOf (tty source) (UmlsConcept.TTY existing))
                  (indexOf (tty source)
                     (UmlsConcept.TTY (UmlsConcept.constructor line))))
        as [Hle|Hlt];
        destruct (Z.ltb_spec
                    (indexOf (tty source)
                       (UmlsConcept.TTY (UmlsConcept.constructor line)))
                    (indexOf (tty source) (UmlsConcept.TTY existing)));
        try lia; cbn [Concepts.codings Concepts.processed emitWinner andb].
      * split; [intros sys; now rewrite app_nil_r | lia].
      * split; [intros sys; apply appended_pushCoding | reflexivity].
    + cbn [Concepts.codings Concepts.processed emitWinner andb].
      split; [intros sys; apply appended_pushCoding | reflexivity].
  - intros lines st.
    apply (forAwait_invariant processConcepts_body
             (fun s => appendedCount (Concepts.codings s) = Concepts.processed s));
      [|reflexivity].
    clear. intros line s s' Hinv Hbody.
    destruct (passesFilters (UmlsConcept.constructor line)) as [source|] eqn:Hp.
    + rewrite (body_accepts line s source Hp) in Hbody.
      inversion Hbody; subst; clear Hbody.
      unfold acceptConcept. destruct (_ !! _) as [existing|].
      * destruct (_ <=? _); cbn [Concepts.codings Concepts.processed emitWinner];
          [exact Hinv | rewrite appendedCount_pushCoding; lia].
      * cbn [Concepts.codings Concepts.processed emitWinner].
        rewrite appendedCount_pushCoding. lia.
    + destruct (body_rejects line s Hp) as [Hthrow | (n & _ & Hdone)];
        [congruence|].
      rewrite Hdone in Hbody. inversion Hbody; subst. exact Hinv.
Qed.

(** ** The relationship pass, record by record *)

(** A relationship record of a known source that is not suppressed gets
    past lines 1066-1073. *)
Lemma relationship_body_filtered_in
  (relationshipProperties : gmap string string)
  (mappedCodes : gmap string UmlsConcept.t)
  (line : string) (st : Relationships.state) (source : Source) :
  let rel := UmlsRelationship.constructor line in
  readProperty umlsSources (jsStr (UmlsRelationship.SAB rel)) = Own source ->
  strictEq (UmlsRelationship.SUPPRESS rel) (Some "N") = true ->
  processRelationships_body relationshipProperties mappedCodes line st
  = bind (resolvePropertyName relationshipProperties (Own source) rel)
      (fun propertyName =>
         if negb (truthy propertyName) then Done st
         else
           let code := resolveCode mappedCodes (UmlsRelationship.AUI1 rel) in
           let value := resolveCode mappedCodes (UmlsRelationship.AUI2 rel) in
           let label := jsStr (UmlsRelationship.REL rel) +:+ "/"
                        +:+ jsStr (UmlsRelationship.RELA rel) in
           if negb (truthy code) || negb (truthy value) then
             Done (Relationships.mk (Relationships.processed st)
                     (Relationships.skipped st + 1)
                     (Relationships.counts st)
                     (Relationships.properties st)
                     (Relationships.warnings st ++
                      [Relationships.mkWarning (jsStr propertyName) label
                         (if truthy code then UmlsRelationship.AUI2 rel
                          else UmlsRelationship.AUI1 rel)]))
           else
             Done (Relationships.mk (Relationships.processed st + 1)
                     (Relationships.skipped st)
                     (increment (Relationships.counts st)
                        (system source +:+ "|" +:+ jsStr propertyName
                         +:+ " (" +:+ label +:+ ")"))
                     (pushCoding (system source)
                        (Property.mk code propertyName value)
                        (Relationships.properties st))
                     (Relationships.warnings st))).
Proof.
  intros rel Hs Hn. subst rel. unfold processRelationships_body. cbv zeta.
  rewrite Hs, Hn. cbn [negb].
  destruct (resolvePropertyName _ _ _) as [propertyName|]; [|reflexivity].
  cbn [bind]. destruct (negb (truthy propertyName)); [reflexivity|].
  destruct (negb (truthy _) || negb (truthy _)); [reflexivity|].
  rewrite pushProperty_pushCoding. reflexivity.
Qed.

Lemma hasSlash_append (a b : string) :
  hasSlash (a +:+ b) = hasSlash a || hasSlash b.
Proof.
  induction a as [|c a IH]; simpl; [reflexivity|].
  rewrite IH. now rewrite orb_assoc.
Qed.

(** The key read from [relationshipProperties] is never the name of a
    member of [Object.prototype], so the read is a plain dictionary lookup
    although that object has a prototype. *)
Lemma relationshipKey_not_inherited (rel : UmlsRelationship.t) :
  existsb (String.eqb (relationshipKey rel)) ObjectPrototype = false.
Proof.
  assert (Hkey : hasSlash (relationshipKey rel) = true).
  { unfold relationshipKey. rewrite !hasSlash_append. simpl.
    now rewrite orb_true_r. }
  assert (Hnames : Forall (fun name => hasSlash name = false) ObjectPrototype)
    by (repeat constructor).
  induction Hnames as [|name names Hname _ IH]; simpl; [reflexivity|].
  rewrite IH, orb_false_r. apply String.eqb_neq. intros Heq.
  rewrite Heq, Hname in Hkey. discriminate.
Qed.

Lemma strictEq_ne (v : option string) (x : string) :
  v <> Some x -> strictEq v (Some x) = false.
Proof.
  destruct v as [y|]; simpl; [|reflexivity]. intros Hv.
  destruct (String.eqb_spec y x); [subst; contradiction | reflexivity].
Qed.

Lemma find_firstWithUri (uri : string) (props : list CodeSystem.property_t)
  (q : CodeSystem.property_t) :
  firstWithUri uri props q ->
  List.find (fun p => strictEq (CodeSystem.uri p) (Some uri)) props = Some q.
Proof.
  intros (before & after & -> & Hq & Hbefore).
  induction before as [|x before IH]; cbn [app List.find].
  - rewrite Hq. cbn [strictEq]. now rewrite String.eqb_refl.
  - rewrite (strictEq_ne _ _ (Hbefore x (or_introl eq_refl))).
    apply IH. intros y Hy. apply Hbefore. now right.
Qed.

Lemma find_no_uri (uri : string) (props : list CodeSystem.property_t) :
  (forall x, In x props -> CodeSystem.uri x <> Some uri) ->
  List.find (fun p => strictEq (CodeSystem.uri p) (Some uri)) props = None.
Proof.
  induction props as [|x props IH]; intros Hnone; cbn [List.find]; [reflexivity|].
  rewrite (strictEq_ne _ _ (Hnone x (or_introl eq_refl))).
  apply IH. intros y Hy. apply Hnone. now right.
Qed.

Lemma configuredProperty_declared (uri : string) (source : Source)
  (props : list CodeSystem.property_t) (q : CodeSystem.property_t)
  (name : string) :
  CodeSystem.property (resource source) = Some props ->
  firstWithUri uri props q ->
  CodeSystem.code q = Some name ->
  configuredProperty uri (Own source) = Done (Some name).
Proof.
  intros Hprops Hfirst Hcode. unfold configuredProperty.
  now rewrite Hprops, (find_firstWithUri _ _ _ Hfirst), Hcode.
Qed.

Lemma configuredProperty_undeclared (uri : string) (source : Source) :
  declaresNoCode uri source ->
  configuredProperty uri (Own source) = Done (Some "").
Proof.
  unfold configuredProperty.
  intros [Hnone|[(props & Hprops & Hno)|(props & q & Hprops & Hfirst & Hcode)]].
  - now rewrite Hnone.
  - now rewrite Hprops, (find_no_uri _ _ Hno).
  - rewrite Hprops, (find_firstWithUri _ _ _ Hfirst).
    now destruct Hcode as [-> | ->].
Qed.

Lemma resolved_name_proceeds (relationshipProperties : gmap string string)
  (mappedCodes : gmap string UmlsConcept.t) (line : string)
  (st : Relationships.state) (source : Source) (name : string) :
  readProperty umlsSources
    (jsStr (UmlsRelationship.SAB (UmlsRelationship.constructor line)))
  = Own source ->
  strictEq (UmlsRelationship.SUPPRESS (UmlsRelationship.constructor line))
    (Some "N") = true ->
  resolvePropertyName relationshipProperties (Own source)
    (UmlsRelationship.constructor line) = Done (Some name) ->
  name <> "" ->
  proceedsWith relationshipProperties mappedCodes line st source name.
Proof.
  intros Hs Hn Hres Hname. unfold proceedsWith. cbv zeta.
  rewrite (relationship_body_filtered_in _ _ _ _ source Hs Hn), Hres.
  cbn [bind truthy]. rewrite (proj2 (String.eqb_neq name "") Hname).
  cbn [negb jsStr systemOf].
  destruct (truthy (resolveCode mappedCodes (UmlsRelationship.AUI1 _))),
    (truthy (resolveCode mappedCodes (UmlsRelationship.AUI2 _)));
    cbn [negb orb andb];
    first [reflexivity | now rewrite pushProperty_pushCoding].
Qed.

Lemma unresolved_name_is_dropped (relationshipProperties : gmap string string)
  (mappedCodes : gmap string UmlsConcept.t) (line : string)
  (st : Relationships.state) (source : Source) (name : option string) :
  readProperty umlsSources
    (jsStr (UmlsRelationship.SAB (UmlsRelationship.constructor line)))
  = Own source ->
  strictEq (UmlsRelationship.SUPPRESS (UmlsRelationship.constructor line))
    (Some "N") = true ->
  resolvePropertyName relationshipProperties (Own source)
    (UmlsRelationship.constructor line) = Done name ->
  truthy name = false ->
  processRelationships_body relationshipProperties mappedCodes line st = Done st.
Proof.
  intros Hs Hn Hres Hfalsy.
  rewrite (relationship_body_filtered_in _ _ _ _ source Hs Hn), Hres.
  cbn [bind]. now rewrite Hfalsy.
Qed.

(** C8 (as amended): for a relationship record of a registered source that
    is not suppressed, (a) a non-empty value stored under [SAB/REL/RELA] in
    the relationship-property map is the property code, whatever the label;
    an absent entry and an entry bound to the empty string are treated
    alike: then (b) when [REL] is ['PAR'] the property code is the code of
    the first property of the source's code system whose uri is the parent
    uri, (c) when [REL] is ['CHD'] likewise with the child uri, and in both
    cases the record is dropped when the code system has no property list,
    no property with that uri, or gives it no code or an empty one; (d) with
    any other label the record is dropped.  A record with a property code
    goes on to the endpoints with exactly that code: the assertion appended
    and the summary key carry it, and so does the warning when an endpoint
    is missing; a dropped record changes nothing. *)
Theorem property_code_resolution_order
  (relationshipProperties : gmap string string)
  (mappedCodes : gmap string UmlsConcept.t)
  (line : string) (st : Relationships.state) (source : Source) :
  let rel := UmlsRelationship.constructor line in
  let stageA := relationshipProperties !! relationshipKey rel in
  readProperty umlsSources (jsStr (UmlsRelationship.SAB rel)) = Own source ->
  strictEq (UmlsRelationship.SUPPRESS rel) (Some "N") = true ->
  (forall name, stageA = Some name -> name <> "" ->
     proceedsWith relationshipProperties mappedCodes line st source name)
  /\ (stageA = None \/ stageA = Some "" ->
      UmlsRelationship.REL rel = Some "PAR" ->
      usesDeclaredCode relationshipProperties mappedCodes line st source
        PARENT_PROPERTY)
  /\ (stageA = None \/ stageA = Some "" ->
      UmlsRelationship.REL rel = Some "CHD" ->
      usesDeclaredCode relationshipProperties mappedCodes line st source
        CHILD_PROPERTY)
  /\ (stageA = None \/ stageA = Some "" ->
      UmlsRelationship.REL rel <> Some "PAR" ->
      UmlsRelationship.REL rel <> Some "CHD" ->
      processRelationships_body relationshipProperties mappedCodes line st
      = Done st).
Proof.
  intros rel stageA Hs Hn. subst rel stageA.
  assert (Hfalsy : forall v : option string,
            v = None \/ v = Some "" -> truthy v = false).
  { intros v [-> | ->]; reflexivity. }
  assert (Hresolve : forall uri label,
            relationshipProperties
              !! relationshipKey (UmlsRelationship.constructor line) = None
            \/ relationshipProperties
                 !! relationshipKey (UmlsRelationship.constructor line)
               = Some "" ->
            resolvePropertyName relationshipProperties (Own source)
              (UmlsRelationship.constructor line)
            = configuredProperty uri (Own source) ->
            UmlsRelationship.REL (UmlsRelationship.constructor line)
            = Some label ->
            usesDeclaredCode relationshipProperties mappedCodes line st source
              uri).
  { intros uri label Hstage Hres Hrel. split.
    - intros props q name Hprops Hfirst Hcode Hname.
      apply resolved_name_proceeds; try assumption.
      rewrite Hres. now apply (configuredProperty_declared uri source props q).
    - intros Hnone.
      apply (unresolved_name_is_dropped _ _ _ _ source (Some "") Hs Hn);
        [|reflexivity].
      rewrite Hres. now apply configuredProperty_undeclared. }
  split; [|split; [|split]].
  - intros name Hget Hname. apply resolved_name_proceeds; try assumption.
    unfold resolvePropertyName. rewrite Hget. cbn [truthy].
    now rewrite (proj2 (String.eqb_neq name "") Hname).
  - intros Hstage Hrel. apply (Hresolve _ "PAR" Hstage); [|exact Hrel].
    unfold resolvePropertyName. now rewrite (Hfalsy _ Hstage), Hrel.
  - intros Hstage Hrel. apply (Hresolve _ "CHD" Hstage); [|exact Hrel].
    unfold resolvePropertyName. now rewrite (Hfalsy _ Hstage), Hrel.
  - intros Hstage Hpar Hchd.
    apply (unresolved_name_is_dropped _ _ _ _ source None Hs Hn);
      [|reflexivity].
    unfold resolvePropertyName.
    now rewrite (Hfalsy _ Hstage), (strictEq_ne _ _ Hpar), (strictEq_ne _ _ Hchd).
Qed.

(** C5 (as amended): for a relationship record of a known source that is
    not suppressed and has a usable property code, when both atom
    identifiers are in the index with non-empty codes exactly one assertion
    [{code of the first atom, property code, code of the second atom}] is
    appended for the source's system and nothing is skipped or logged; when
    either identifier is absent nothing is appended, the skip counter goes
    up by one, one warning is logged and the body returns normally; the
    warning names the absent identifier when the first is absent, and when
    the first resolves to a non-empty code and the second is absent. *)
Theorem relationship_endpoint_resolution
  (relationshipProperties : gmap string string)
  (mappedCodes : gmap string UmlsConcept.t)
  (line : string) (st : Relationships.state) (source : Source) (name : string) :
  let rel := UmlsRelationship.constructor line in
  let label := jsStr (UmlsRelationship.REL rel) +:+ "/"
               +:+ jsStr (UmlsRelationship.RELA rel) in
  let skip (missing : option string) :=
    Relationships.mk (Relationships.processed st) (Relationships.skipped st + 1)
      (Relationships.counts st) (Relationships.properties st)
      (Relationships.warnings st ++ [Relationships.mkWarning name label missing]) in
  readProperty umlsSources (jsStr (UmlsRelationship.SAB rel)) = Own source ->
  strictEq (UmlsRelationship.SUPPRESS rel) (Some "N") = true ->
  resolvePropertyName relationshipProperties (Own source) rel = Done (Some name) ->
  name <> "" ->
  (forall first second code value,
     mappedCodes !! jsStr (UmlsRelationship.AUI1 rel) = Some first ->
     mappedCodes !! jsStr (UmlsRelationship.AUI2 rel) = Some second ->
     UmlsConcept.CODE first = Some code -> code <> "" ->
     UmlsConcept.CODE second = Some value -> value <> "" ->
     exists st',
       processRelationships_body relationshipProperties mappedCodes line st
       = Done st'
       /\ (forall sys,
             appended sys (Relationships.properties st')
             = appended sys (Relationships.properties st)
               ++ (if String.eqb (system source) sys
                   then [Property.mk (Some code) (Some name) (Some value)]
                   else []))
       /\ Relationships.processed st' = Relationships.processed st + 1
       /\ Relationships.skipped st' = Relationships.skipped st
       /\ Relationships.warnings st' = Relationships.warnings st)
  /\ (mappedCodes !! jsStr (UmlsRelationship.AUI1 rel) = None
      \/ mappedCodes !! jsStr (UmlsRelationship.AUI2 rel) = None ->
      exists missing,
        (missing = UmlsRelationship.AUI1 rel \/ missing = UmlsRelationship.AUI2 rel)
        /\ processRelationships_body relationshipProperties mappedCodes line st
           = Done (skip missing))
  /\ (mappedCodes !! jsStr (UmlsRelationship.AUI1 rel) = None ->
      processRelationships_body relationshipProperties mappedCodes line st
      = Done (skip (UmlsRelationship.AUI1 rel)))
  /\ (forall first code,
        mappedCodes !! jsStr (UmlsRelationship.AUI1 rel) = Some first ->
        UmlsConcept.CODE first = Some code -> code <> "" ->
        mappedCodes !! jsStr (UmlsRelationship.AUI2 rel) = None ->
        processRelationships_body relationshipProperties mappedCodes line st
        = Done (skip (UmlsRelationship.AUI2 rel))).
Proof.
  intros rel label skip Hs Hn Hres Hname. subst rel label skip.
  assert (Htruthy : forall x : string, x <> "" -> truthy (Some x) = true).
  { intros x Hx. simpl. destruct (String.eqb_spec x ""); [contradiction | reflexivity]. }
  rewrite (relationship_body_filtered_in _ _ _ _ source Hs Hn), Hres.
  cbn [bind]. rewrite (Htruthy name Hname). cbn [negb jsStr].
  split; [|split; [|split]].
  - intros first second code value H1 H2 Hc1 Hcode Hc2 Hvalue.
    unfold resolveCode. rewrite H1, H2, Hc1, Hc2.
    rewrite (Htruthy code Hcode), (Htruthy value Hvalue). cbn [negb orb].
    eexists. split; [reflexivity|].
    cbn [Relationships.properties Relationships.processed
         Relationships.skipped Relationships.warnings].
    split; [intros sys; apply appended_pushCoding | auto].
  - intros [H1 | H2]; unfold resolveCode.
    + rewrite H1. exists (UmlsRelationship.AUI1 (UmlsRelationship.constructor line)).
      split; [now left | reflexivity].
    + rewrite H2. cbn [truthy negb]. rewrite orb_true_r.
      destruct (truthy _); eexists; (split; [|reflexivity]); auto.
  - intros H1. unfold resolveCode. rewrite H1. reflexivity.
  - intros first code H1 Hc1 Hcode H2. unfold resolveCode.
    rewrite H1, H2, Hc1, (Htruthy code Hcode). reflexivity.
Qed.


(** ** The winner of a key over a whole stream *)

Lemma key_parts_unique (a a' b b' : string) :
  hasPipe a = false -> hasPipe a' = false ->
  a +:+ "|" +:+ b = a' +:+ "|" +:+ b' -> a = a' /\ b = b'.
Proof.
  revert a'. induction a as [|c a IH]; intros [|c' a'] Ha Ha' Heq; simpl in *.
  - inversion Heq. auto.
  - inversion Heq; subst. simpl in Ha'. discriminate.
  - inversion Heq; subst. simpl in Ha. discriminate.
  - inversion Heq; subst.
    apply orb_false_iff in Ha as [_ Ha]. apply orb_false_iff in Ha' as [_ Ha'].
    destruct (IH a' Ha Ha' H1) as [-> ->]. auto.
Qed.

Lemma winnerKey_parts (line line' : string) :
  winnerKey (UmlsConcept.constructor line)
  = winnerKey (UmlsConcept.constructor line') ->
  jsStr (UmlsConcept.SAB (UmlsConcept.constructor line))
  = jsStr (UmlsConcept.SAB (UmlsConcept.constructor line'))
  /\ jsStr (UmlsConcept.CODE (UmlsConcept.constructor line))
     = jsStr (UmlsConcept.CODE (UmlsConcept.constructor line')).
Proof.
  unfold winnerKey. apply key_parts_unique; apply jsStr_column_pipe_free.
Qed.

Lemma column_before (cols : list string) (i j : nat) (f : string) :
  (i <= j)%nat -> column cols j = Some f -> exists g, column cols i = Some g.
Proof.
  unfold column. intros Hij Hj.
  destruct (nth_error cols i) as [g|] eqn:Hi; [now exists g|].
  apply nth_error_None in Hi.
  assert (Hlen : (j < length cols)%nat) by (apply nth_error_Some; congruence).
  lia.
Qed.

(** A record that passes the filters has a source abbreviation and a code. *)
Lemma passesFilters_defined (line : string) (source : Source) :
  passesFilters (UmlsConcept.constructor line) = Some source ->
  (exists sab, UmlsConcept.SAB (UmlsConcept.constructor line) = Some sab)
  /\ (exists code, UmlsConcept.CODE (UmlsConcept.constructor line) = Some code).
Proof.
  intros Hp. apply passesFilters_Own in Hp as (_ & _ & _ & Hn).
  unfold UmlsConcept.constructor in *. cbn [UmlsConcept.SUPPRESS
    UmlsConcept.SAB UmlsConcept.CODE] in *.
  destruct (column (split line) 16) as [f|] eqn:H16; [|discriminate].
  split; eapply column_before; try exact H16; lia.
Qed.

Lemma same_key_same_pair (line line' : string) (source source' : Source) :
  passesFilters (UmlsConcept.constructor line) = Some source ->
  passesFilters (UmlsConcept.constructor line') = Some source' ->
  winnerKey (UmlsConcept.constructor line)
  = winnerKey (UmlsConcept.constructor line') ->
  UmlsConcept.SAB (UmlsConcept.constructor line)
  = UmlsConcept.SAB (UmlsConcept.constructor line')
  /\ UmlsConcept.CODE (UmlsConcept.constructor line)
     = UmlsConcept.CODE (UmlsConcept.constructor line')
  /\ source = source'.
Proof.
  intros Hp Hp' Hkey. apply winnerKey_parts in Hkey as [Hsab Hcode].
  destruct (passesFilters_defined _ _ Hp) as [[sab Hs] [code Hc]].
  destruct (passesFilters_defined _ _ Hp') as [[sab' Hs'] [code' Hc']].
  apply passesFilters_Own in Hp as (Hr & _). apply passesFilters_Own in Hp' as (Hr' & _).
  rewrite Hsab, Hr' in Hr. rewrite Hs, Hs' in Hsab. rewrite Hc, Hc' in Hcode.
  simpl in Hsab, Hcode. subst. rewrite Hs, Hs', Hc, Hc'.
  inversion Hr. auto.
Qed.

Lemma priorityOf_source (concept : UmlsConcept.t) (source : Source) :
  passesFilters concept = Some source ->
  priorityOf concept = indexOf (tty source) (UmlsConcept.TTY concept).
Proof.
  intros Hp. apply passesFilters_Own in Hp as (Hr & _).
  unfold priorityOf. now rewrite Hr.
Qed.

Lemma candidate_spec (key line : string) :
  candidate key line = true <->
  (exists source, passesFilters (UmlsConcept.constructor line) = Some source)
  /\ winnerKey (UmlsConcept.constructor line) = key.
Proof.
  unfold candidate. destruct (passesFilters _) as [source|].
  - rewrite String.eqb_eq. split; [intros H; split; eauto | tauto].
  - split; [discriminate | intros [[source Hs] _]; discriminate].
Qed.

Lemma forAwait_prefix_invariant {S : Type} (body : string -> S -> outcome S)
  (P : list string -> S -> Prop) :
  (forall seen line st st',
     P seen st -> body line st = Done st' -> P (seen ++ [line]) st') ->
  forall lines seen st st',
    P seen st -> forAwait body lines st = Done st' -> P (seen ++ lines) st'.
Proof.
  intros Hstep lines. induction lines as [|x lines IH]; intros seen st st' HP Hrun.
  - simpl in Hrun. inversion Hrun; subst. now rewrite app_nil_r.
  - simpl in Hrun. destruct (body x st) as [st1|] eqn:Hb; simpl in Hrun;
      [|discriminate].
    replace (seen ++ x :: lines) with ((seen ++ [x]) ++ lines)
      by now rewrite <- app_assoc.
    eapply IH; [eapply Hstep; eassumption | exact Hrun].
Qed.

Lemma acceptConcept_other_keys (line key : string) (st : Concepts.state)
  (source : Source) :
  hasPipe key = true ->
  key <> winnerKey (UmlsConcept.constructor line) ->
  Concepts.mappedConcepts (acceptConcept source (UmlsConcept.constructor line) st)
    !! key
  = Concepts.mappedConcepts st !! key.
Proof.
  intros Hpipe Hne.
  assert (Haui : jsStr (UmlsConcept.AUI (UmlsConcept.constructor line)) <> key).
  { intros <-. rewrite AUI_pipe_free in Hpipe. discriminate. }
  unfold acceptConcept. destruct (_ !! winnerKey _) as [existing|].
  - destruct (_ <=? _); cbn [Concepts.mappedConcepts emitWinner].
    + now rewrite lookup_insert_ne.
    + rewrite lookup_insert_ne by congruence. now rewrite lookup_insert_ne.
  - cbn [Concepts.mappedConcepts emitWinner].
    rewrite lookup_insert_ne by congruence. now rewrite lookup_insert_ne.
Qed.

Lemma winnersOf_rejected (seen : list string) (line : string)
  (mapped : gmap string UmlsConcept.t) :
  passesFilters (UmlsConcept.constructor line) = None ->
  winnersOf seen mapped -> winnersOf (seen ++ [line]) mapped.
Proof.
  intros Hp [Hsome Hwin].
  assert (Hnot : forall key, candidate key line = false)
    by (intros key; unfold candidate; now rewrite Hp).
  split.
  - intros key x Hin Hc. apply in_app_or in Hin as [Hin | [<- | []]].
    + eapply Hsome; eassumption.
    + rewrite Hnot in Hc. discriminate.
  - intros key winner Hpipe Hget.
    destruct (Hwin key winner Hpipe Hget)
      as (before & l & after & -> & Hw & Hc & Hb & Ha).
    exists before, l, (after ++ [line]).
    split; [now rewrite <- app_assoc|]. split; [exact Hw|].
    split; [exact Hc|]. split; [exact Hb|].
    intros x Hin Hcx. apply in_app_or in Hin as [Hin | [<- | []]].
    + now apply Ha.
    + rewrite Hnot in Hcx. discriminate.
Qed.

Lemma winnersOf_accepted (seen : list string) (line : string)
  (st : Concepts.state) (source : Source) :
  passesFilters (UmlsConcept.constructor line) = Some source ->
  winnersOf seen (Concepts.mappedConcepts st) ->
  winnersOf (seen ++ [line])
    (Concepts.mappedConcepts
       (acceptConcept source (UmlsConcept.constructor line) st)).
Proof.
  intros Hp [Hsome Hwin].
  pose proof (acceptConcept_winner line st source) as Hstep.
  cbv zeta in Hstep.
  assert (Hself : candidate (winnerKey (UmlsConcept.constructor line)) line = true).
  { apply candidate_spec. split; [now exists source | reflexivity]. }
  assert (Hline : forall key, candidate key line = true -> key = winnerKey (UmlsConcept.constructor line)).
  { intros key Hc. apply candidate_spec in Hc as [_ <-]. reflexivity. }
  assert (Hprio : forall x, candidate (winnerKey (UmlsConcept.constructor line)) x = true ->
            priorityOf (UmlsConcept.constructor x)
            = indexOf (tty source) (UmlsConcept.TTY (UmlsConcept.constructor x))).
  { intros x Hc. apply candidate_spec in Hc as [[src Hsrc] Hk].
    destruct (same_key_same_pair _ _ _ _ Hsrc Hp Hk) as (_ & _ & ->).
    now apply priorityOf_source. }
  split.
  - intros key x Hin Hc.
    destruct (String.eqb_spec key (winnerKey (UmlsConcept.constructor line))) as [->|Hne].
    + destruct (Concepts.mappedConcepts st !! winnerKey (UmlsConcept.constructor line));
        destruct Hstep as [H1 H2]; rewrite ?H1, ?H2; eauto.
    + rewrite acceptConcept_other_keys; [| |exact Hne].
      * apply in_app_or in Hin as [Hin | [<- | []]].
        -- eapply Hsome; eassumption.
        -- apply Hline in Hc. contradiction.
      * apply candidate_spec in Hc as [_ <-]. apply winnerKey_has_pipe.
  - intros key winner Hpipe Hget.
    destruct (String.eqb_spec key (winnerKey (UmlsConcept.constructor line))) as [->|Hne].
    + destruct (Concepts.mappedConcepts st !! winnerKey (UmlsConcept.constructor line))
        as [existing|] eqn:Hold.
      * destruct Hstep as [_ Hnew].  rewrite Hnew in Hget.
        destruct (Hwin _ _ Hpipe Hold)
          as (before & l & after & -> & He & Hc & Hb & Ha).
        pose proof (Hprio l Hc) as Hpe. rewrite <- He in Hpe.
        pose proof (Hprio line Hself) as Hpc.
        destruct (Z.ltb_spec (indexOf (tty source) (UmlsConcept.TTY (UmlsConcept.constructor line)))
                    (indexOf (tty source) (UmlsConcept.TTY existing)))
          as [Hlt|Hge]; inversion Hget; subst winner; clear Hget.
        -- exists (before ++ l :: after), line, [].
           split; [reflexivity|]. split; [reflexivity|]. split; [exact Hself|].
           split; [|intros x []].
           intros x Hin Hcx. apply in_app_or in Hin as [Hin | [<- | Hin]].
           ++ specialize (Hb x Hin Hcx). lia.
           ++ rewrite <- He. lia.
           ++ specialize (Ha x Hin Hcx). lia.
        -- exists before, l, (after ++ [line]).
           split; [now rewrite <- app_assoc|]. split; [exact He|].
           split; [exact Hc|]. split; [exact Hb|].
           intros x Hin Hcx. apply in_app_or in Hin as [Hin | [<- | []]].
           ++ now apply Ha.
           ++ lia.
      * destruct Hstep as [Hnew _].  rewrite Hnew in Hget.
        inversion Hget; subst winner; clear Hget.
        exists seen, line, []. split; [reflexivity|]. split; [reflexivity|].
        split; [exact Hself|]. split; [|intros x []].
        intros x Hin Hcx. destruct (Hsome _ _ Hin Hcx) as [w Hw]. congruence.
    +
      rewrite acceptConcept_other_keys in Hget by assumption.
      destruct (Hwin key winner Hpipe Hget)
        as (before & l & after & -> & Hw & Hc & Hb & Ha).
      exists before, l, (after ++ [line]).
      split; [now rewrite <- app_assoc|]. split; [exact Hw|].
      split; [exact Hc|]. split; [exact Hb|].
      intros x Hin Hcx. apply in_app_or in Hin as [Hin | [<- | []]].
      * now apply Ha.
      * apply Hline in Hcx. contradiction.
Qed.

Lemma processConcepts_loop_winnersOf (lines : list string) (st : Concepts.state) :
  forAwait processConcepts_body lines Concepts.initial = Done st ->
  winnersOf lines (Concepts.mappedConcepts st).
Proof.
  intros Hrun.
  change lines with ([] ++ lines).
  refine (forAwait_prefix_invariant processConcepts_body
            (fun seen s => winnersOf seen (Concepts.mappedConcepts s))
            _ lines [] Concepts.initial st _ Hrun).
  - intros seen line s s' Hinv Hbody.
    destruct (passesFilters (UmlsConcept.constructor line)) as [source|] eqn:Hp.
    + rewrite (body_accepts line s source Hp) in Hbody.
      inversion Hbody; subst. now apply winnersOf_accepted.
    + destruct (body_rejects line s Hp) as [Hthrow | (n & _ & Hdone)];
        [congruence|].
      rewrite Hdone in Hbody. inversion Hbody; subst.
      now apply winnersOf_rejected.
  - split.
    + intros key line [].
    + intros key winner _ Hget. simpl in Hget. rewrite lookup_empty in Hget.
      discriminate.
Qed.

Lemma body_throws_iff (line : string) (st : Concepts.state) :
  processConcepts_body line st = TypeError <-> conceptThrows line = true.
Proof.
  unfold processConcepts_body, conceptThrows. cbv zeta.
  destruct (readProperty umlsSources _) as [source| |].
  - split; [|discriminate].
    destruct (negb (strictEq _ (Some "ENG"))); [discriminate|].
    destruct (negb (includes _ _)); [discriminate|].
    destruct (negb (strictEq _ (Some "N"))); [discriminate|].
    destruct (_ !! _); [destruct (_ <=? _)|]; discriminate.
  - destruct (strictEq _ (Some "ENG")); simpl; split; auto; discriminate.
  - split; discriminate.
Qed.

(** Whether the loop completes depends on the lines only, not on their
    order. *)
Lemma loop_completes_iff (lines : list string) (st : Concepts.state) :
  (exists st', forAwait processConcepts_body lines st = Done st')
  <-> Forall (fun line => conceptThrows line = false) lines.
Proof.
  revert st. induction lines as [|x lines IH]; intros st; simpl.
  - split; [constructor | eauto].
  - destruct (processConcepts_body x st) as [st1|] eqn:Hb; simpl.
    + assert (Hx : conceptThrows x = false).
      { destruct (conceptThrows x) eqn:Ht; [|reflexivity].
        apply (body_throws_iff x st) in Ht. congruence. }
      rewrite IH. split; [now constructor | now inversion 1].
    + apply body_throws_iff in Hb. split; [intros [st' H]; discriminate|].
      inversion 1; congruence.
Qed.

Lemma indexOfFrom_ge (types : list string) (x : string) (i : Z) :
  existsb (String.eqb x) types = true -> i <= indexOfFrom types x i.
Proof.
  revert i. induction types as [|t types IH]; intros i; simpl; [discriminate|].
  rewrite (String.eqb_sym x t). destruct (String.eqb t x); simpl; [lia|].
  intros H. specialize (IH (i + 1) H). lia.
Qed.

Lemma indexOfFrom_injective (types : list string) (x y : string) (i : Z) :
  existsb (String.eqb x) types = true -> existsb (String.eqb y) types = true ->
  indexOfFrom types x i = indexOfFrom types y i -> x = y.
Proof.
  revert i. induction types as [|t types IH]; intros i; simpl; [discriminate|].
  rewrite (String.eqb_sym x t), (String.eqb_sym y t).
  destruct (String.eqb_spec t x) as [Hx|Hx], (String.eqb_spec t y) as [Hy|Hy];
    simpl; intros Hix Hiy Heq.
  - congruence.
  - pose proof (indexOfFrom_ge types y (i + 1) Hiy). lia.
  - pose proof (indexOfFrom_ge types x (i + 1) Hix). lia.
  - eapply IH; eassumption.
Qed.

Lemma indexOf_injective (types : list string) (v w : option string) :
  includes types v = true -> includes types w = true ->
  indexOf types v = indexOf types w -> v = w.
Proof.
  destruct v as [x|], w as [y|]; simpl; try discriminate.
  intros Hx Hy Heq. f_equal. eapply indexOfFrom_injective; eassumption.
Qed.

Lemma candidate_priority (line x : string) (source : Source) :
  passesFilters (UmlsConcept.constructor line) = Some source ->
  candidate (winnerKey (UmlsConcept.constructor line)) x = true ->
  passesFilters (UmlsConcept.constructor x) = Some source
  /\ UmlsConcept.SAB (UmlsConcept.constructor x)
     = UmlsConcept.SAB (UmlsConcept.constructor line)
  /\ UmlsConcept.CODE (UmlsConcept.constructor x)
     = UmlsConcept.CODE (UmlsConcept.constructor line)
  /\ priorityOf (UmlsConcept.constructor x)
     = indexOf (tty source) (UmlsConcept.TTY (UmlsConcept.constructor x)).
Proof.
  intros Hp Hc. apply candidate_spec in Hc as [[src Hsrc] Hk].
  destruct (same_key_same_pair _ _ _ _ Hsrc Hp Hk) as (Hs & Hcode & ->).
  repeat split; auto using priorityOf_source.
Qed.

Lemma samePair_candidate (line x : string) :
  samePair (UmlsConcept.constructor line) x ->
  candidate (winnerKey (UmlsConcept.constructor line)) x = true.
Proof.
  intros (Hp & Hs & Hc). apply candidate_spec. split.
  - destruct (passesFilters (UmlsConcept.constructor x)) as [src|];
      [now exists src | contradiction].
  - unfold winnerKey. now rewrite Hs, Hc.
Qed.

(** The winner of the pair of [line] after the whole stream. *)
Lemma stream_winner (lines : list string) (st : Concepts.state)
  (line : string) (source : Source) :
  processConcepts lines = Done st ->
  In line lines ->
  passesFilters (UmlsConcept.constructor line) = Some source ->
  exists before winnerLine after,
    lines = before ++ winnerLine :: after
    /\ Concepts.mappedConcepts st !! winnerKey (UmlsConcept.constructor line)
       = Some (UmlsConcept.constructor winnerLine)
    /\ candidate (winnerKey (UmlsConcept.constructor line)) winnerLine = true
    /\ (forall x, In x before ->
        candidate (winnerKey (UmlsConcept.constructor line)) x = true ->
        indexOf (tty source) (UmlsConcept.TTY (UmlsConcept.constructor winnerLine))
        < indexOf (tty source) (UmlsConcept.TTY (UmlsConcept.constructor x)))
    /\ (forall x, In x lines ->
        candidate (winnerKey (UmlsConcept.constructor line)) x = true ->
        indexOf (tty source) (UmlsConcept.TTY (UmlsConcept.constructor winnerLine))
        <= indexOf (tty source) (UmlsConcept.TTY (UmlsConcept.constructor x))).
Proof.
  intros Hrun Hin Hp.
  apply processConcepts_inv in Hrun as (loop & Hloop & Hm & _).
  apply processConcepts_loop_winnersOf in Hloop as [Hsome Hwin].
  rewrite Hm.
  assert (Hself : candidate (winnerKey (UmlsConcept.constructor line)) line = true)
    by (apply candidate_spec; split; [now exists source | reflexivity]).
  destruct (Hsome _ _ Hin Hself) as [winner Hget].
  destruct (Hwin _ _ (winnerKey_has_pipe _) Hget)
    as (before & l & after & Hlines & -> & Hc & Hb & Ha).
  destruct (candidate_priority line l source Hp Hc) as (_ & _ & _ & Hpw).
  exists before, l, after. split; [exact Hlines|]. split; [exact Hget|].
  split; [exact Hc|]. split.
  - intros x Hx Hcx. specialize (Hb x Hx Hcx).
    destruct (candidate_priority line x source Hp Hcx) as (_ & _ & _ & Hpx). lia.
  - intros x Hx Hcx.
    destruct (candidate_priority line x source Hp Hcx) as (_ & _ & _ & Hpx).
    rewrite Hlines in Hx. apply in_app_or in Hx as [Hx | [<- | Hx]].
    + specialize (Hb x Hx Hcx). lia.
    + lia.
    + specialize (Ha x Hx Hcx). lia.
Qed.

(** C1 (as amended): when the concept pass completes on a stream, the
    record stored under the [SAB|CODE] key of any accepted record of the
    stream is an accepted record of that source and code whose term type
    has the lowest index among all accepted records of the pair, and the
    first of the stream to reach that index.  On any permutation of the
    stream the pass completes too, and the record stored under the key has
    the same term type; it is the same record whenever only one accepted
    record of the pair carries that term type. *)
Theorem preference_monotonicity (lines : list string) (st : Concepts.state)
  (line : string) (source : Source) :
  let concept := UmlsConcept.constructor line in
  processConcepts lines = Done st ->
  In line lines ->
  passesFilters concept = Some source ->
  exists before winnerLine after,
    let winner := UmlsConcept.constructor winnerLine in
    lines = before ++ winnerLine :: after
    /\ Concepts.mappedConcepts st !! winnerKey concept = Some winner
    /\ passesFilters winner = Some source
    /\ UmlsConcept.SAB winner = UmlsConcept.SAB concept
    /\ UmlsConcept.CODE winner = UmlsConcept.CODE concept
    /\ (forall x, In x lines -> samePair concept x ->
        indexOf (tty source) (UmlsConcept.TTY winner)
        <= indexOf (tty source) (UmlsConcept.TTY (UmlsConcept.constructor x)))
    /\ (forall x, In x before -> samePair concept x ->
        indexOf (tty source) (UmlsConcept.TTY winner)
        < indexOf (tty source) (UmlsConcept.TTY (UmlsConcept.constructor x)))
    /\ (forall lines', Permutation lines lines' ->
        exists st' winner',
          processConcepts lines' = Done st'
          /\ Concepts.mappedConcepts st' !! winnerKey concept = Some winner'
          /\ UmlsConcept.TTY winner' = UmlsConcept.TTY winner
          /\ ((forall x, In x lines -> samePair concept x ->
               UmlsConcept.TTY (UmlsConcept.constructor x) = UmlsConcept.TTY winner ->
               UmlsConcept.constructor x = winner) ->
              winner' = winner)).
Proof.
  intros concept Hrun Hin Hp. subst concept.
  destruct (stream_winner lines st line source Hrun Hin Hp)
    as (before & wl & after & Hlines & Hget & Hc & Hb & Hmin).
  destruct (candidate_priority line wl source Hp Hc) as (Hpw & Hsw & Hcw & _).
  exists before, wl, after. cbv zeta.
  split; [exact Hlines|]. split; [exact Hget|]. split; [exact Hpw|].
  split; [exact Hsw|]. split; [exact Hcw|].
  split; [intros x Hx Hs; apply Hmin; auto using samePair_candidate|].
  split; [intros x Hx Hs; apply Hb; auto using samePair_candidate|].
  intros lines' Hperm.
  assert (Hdone : exists loop',
             forAwait processConcepts_body lines' Concepts.initial = Done loop').
  { apply loop_completes_iff.
    apply (Permutation_Forall Hperm).
    apply (loop_completes_iff lines Concepts.initial).
    apply processConcepts_inv in Hrun as (loop & Hloop & _). eauto. }
  destruct Hdone as [loop' Hloop'].
  assert (Hrun' : processConcepts lines'
                  = Done (Concepts.mk (Concepts.processed loop')
                            (Concepts.skipped loop') (Concepts.counts loop')
                            (flushAll (Concepts.codings loop'))
                            (Concepts.mappedConcepts loop')))
    by (unfold processConcepts; now rewrite Hloop').
  assert (Hin' : In line lines') by (eapply Permutation_in; eassumption).
  destruct (stream_winner lines' _ line source Hrun' Hin' Hp)
    as (before' & wl' & after' & Hlines' & Hget' & Hc' & _ & Hmin').
  destruct (candidate_priority line wl' source Hp Hc') as (Hpw' & Hsw' & Hcw' & _).
  assert (Hwl' : In wl' lines).
  { apply (Permutation_in _ (Permutation_sym Hperm)).
    rewrite Hlines'. apply in_or_app. right. now left. }
  assert (Hwl : In wl lines').
  { apply (Permutation_in _ Hperm).
    rewrite Hlines. apply in_or_app. right. now left. }
  assert (Htty : UmlsConcept.TTY (UmlsConcept.constructor wl')
                 = UmlsConcept.TTY (UmlsConcept.constructor wl)).
  { apply passesFilters_Own in Hpw as (_ & _ & Hiw & _).
    apply passesFilters_Own in Hpw' as (_ & _ & Hiw' & _).
    apply (indexOf_injective (tty source)); try assumption.
    specialize (Hmin wl' Hwl' Hc'). specialize (Hmin' wl Hwl Hc). lia. }
  eexists. exists (UmlsConcept.constructor wl').
  split; [exact Hrun'|]. split; [exact Hget'|]. split; [exact Htty|].
  intros Hunique. apply Hunique; [exact Hwl' | | exact Htty].
  split; [congruence | auto].
Qed.

(** ** The summary of the concept pass *)

Lemma insertSorted_perm {A : Type} (cmp : A -> A -> Z) (x : A) (l : list A) :
  Permutation (insertSorted cmp x l) (x :: l).
Proof.
  induction l as [|y l IH]; simpl; [reflexivity|].
  destruct (cmp x y <=? 0); [reflexivity|].
  rewrite IH. apply perm_swap.
Qed.

Lemma sort_perm {A : Type} (cmp : A -> A -> Z) (l : list A) :
  Permutation (sort cmp l) l.
Proof.
  induction l as [|x l IH]; simpl; [reflexivity|].
  rewrite insertSorted_perm. now constructor.
Qed.

Lemma insertSorted_byCount (x : string * Z) (l : list (string * Z)) :
  StronglySorted byCount l ->
  StronglySorted byCount
    (insertSorted (fun l r => snd r - snd l) x l).
Proof.
  induction 1 as [|y l Hl IH Hy]; simpl.
  - repeat constructor.
  - destruct (Z.leb_spec (snd y - snd x) 0) as [Hle|Hgt].
    + constructor; [now constructor|].
      constructor; [unfold byCount; lia|].
      rewrite List.Forall_forall in *. intros z Hz. specialize (Hy z Hz).
      unfold byCount in *. lia.
    + constructor; [exact IH|].
      rewrite List.Forall_forall in *. intros z Hz.
      apply (Permutation_in _ (insertSorted_perm _ x l)) in Hz.
      destruct Hz as [<- | Hz]; [unfold byCount; lia | now apply Hy].
Qed.

Lemma conceptSummary_sorted (counts : odict Z) :
  StronglySorted byCount (conceptSummary counts).
Proof.
  unfold conceptSummary, sort.
  induction counts as [|x counts IH]; simpl; [constructor|].
  now apply insertSorted_byCount.
Qed.

(** The sort is stable: the entries of any one count keep their order. *)
Lemma insertSorted_stable (n : Z) (x : string * Z) (l : list (string * Z)) :
  List.filter (fun e => snd e =? n) (insertSorted (fun l r => snd r - snd l) x l)
  = List.filter (fun e => snd e =? n) (x :: l).
Proof.
  induction l as [|y l IH]; [reflexivity|].
  cbn [insertSorted].
  destruct (Z.leb_spec (snd y - snd x) 0) as [Hle|Hgt]; [reflexivity|].
  cbn [List.filter] in *. rewrite IH.
  destruct (Z.eqb_spec (snd x) n), (Z.eqb_spec (snd y) n); try reflexivity. lia.
Qed.

Lemma conceptSummary_stable (n : Z) (counts : odict Z) :
  List.filter (fun e => snd e =? n) (conceptSummary counts)
  = List.filter (fun e => snd e =? n) counts.
Proof.
  unfold conceptSummary, sort.
  induction counts as [|x counts IH]; [reflexivity|].
  cbn [fold_right]. rewrite insertSorted_stable.
  cbn [List.filter]. now rewrite IH.
Qed.

(** Two descending lists with the same entries and pairwise distinct
    counts are the same list. *)
Lemma sorted_distinct_unique (l1 l2 : list (string * Z)) :
  StronglySorted byCount l1 ->
  StronglySorted byCount l2 ->
  Permutation l1 l2 ->
  List.NoDup (map snd l1) ->
  l1 = l2.
Proof.
  intros H1. revert l2. induction H1 as [|a l1 Hs1 IH Ha]; intros l2 H2 Hperm Hnd.
  - apply Permutation_nil in Hperm. now subst.
  - destruct l2 as [|b l2];
      [apply Permutation_sym, Permutation_nil in Hperm; discriminate|].
    inversion H2 as [|? ? Hs2 Hb]; subst.
    assert (Hab : a = b).
    { assert (Hina : In a (b :: l2))
        by (apply (Permutation_in _ Hperm); now left).
      assert (Hinb : In b (a :: l1))
        by (apply (Permutation_in _ (Permutation_sym Hperm)); now left).
      destruct Hina as [Heq | Hina]; [now subst|].
      destruct Hinb as [Heq | Hinb]; [now subst|].
      rewrite List.Forall_forall in Ha, Hb.
      specialize (Ha b Hinb). specialize (Hb a Hina). unfold byCount in *.
      exfalso. simpl in Hnd. inversion Hnd as [|? ? Hnot _]; subst.
      apply Hnot. replace (snd a) with (snd b) by lia.
      now apply in_map. }
    subst b. f_equal. apply IH; [exact Hs2 | | now inversion Hnd].
    now apply Permutation_cons_inv in Hperm.
Qed.

Lemma oget_In {V : Type} (d : odict V) (key : string) (v : V) :
  List.NoDup (map fst d) -> (In (key, v) d <-> oget d key = Some v).
Proof.
  induction d as [|[k w] d IH]; intros Hd; simpl.
  - split; [tauto | discriminate].
  - inversion Hd as [|? ? Hk Hd']; subst.
    destruct (String.eqb_spec k key) as [->|Hne].
    + split.
      * intros [[= ->] | Hin]; [reflexivity|].
        exfalso. apply Hk. now apply (in_map fst) in Hin.
      * intros [= ->]. now left.
    + rewrite <- (IH Hd'). split; [intros [[= -> _] | Hin]; tauto | tauto].
Qed.

Lemma odict_same_entries {V : Type} (d1 d2 : odict V) :
  List.NoDup (map fst d1) -> List.NoDup (map fst d2) ->
  (forall key, oget d1 key = oget d2 key) ->
  Permutation d1 d2.
Proof.
  intros H1 H2 Hget.
  apply Stdlib.Sorting.Permutation.NoDup_Permutation.
  - eapply List.NoDup_map_inv; exact H1.
  - eapply List.NoDup_map_inv; exact H2.
  - intros [k v]. rewrite (oget_In d1 k v H1), (oget_In d2 k v H2), Hget. tauto.
Qed.

(** *** The counts do not depend on the order of the stream *)

Lemma isNew_insert (mapped : gmap string UmlsConcept.t) (k key : string)
  (concept : UmlsConcept.t) :
  isNew (<[k := concept]> mapped) key = isNew mapped key && negb (String.eqb key k).
Proof.
  unfold isNew. rewrite lookup_insert.
  destruct (decide (k = key)) as [->|Hne].
  - rewrite String.eqb_refl. simpl. now rewrite andb_false_r.
  - destruct (String.eqb_spec key k); [congruence|]. simpl. now rewrite andb_true_r.
Qed.

Lemma oget_increment_bump (counts : odict Z) (sys key : string) :
  oget (increment counts sys) key = bumpAt sys key (oget counts key).
Proof.
  unfold bumpAt. destruct (String.eqb_spec sys key) as [->|Hne].
  - apply oget_increment_eq.
  - now apply oget_increment_ne.
Qed.

(** One run of the loop body, seen through free keys and counts. *)
Lemma body_tally (line : string) (st st' : Concepts.state) :
  processConcepts_body line st = Done st' ->
  (forall key,
     isNew (Concepts.mappedConcepts st') key
     = isNew (Concepts.mappedConcepts st) key && negb (touches line key))
  /\ (forall sys,
        oget (Concepts.counts st') sys
        = if accepted line
             && isNew (Concepts.mappedConcepts st)
                  (winnerKey (UmlsConcept.constructor line))
          then bumpAt (systemOfLine line) sys (oget (Concepts.counts st) sys)
          else oget (Concepts.counts st) sys).
Proof.
  intros Hbody. unfold touches, accepted, systemOfLine.
  set (concept := UmlsConcept.constructor line) in *.
  set (aui := jsStr (UmlsConcept.AUI concept)).
  set (wk := winnerKey concept).
  destruct (passesFilters concept) as [source|] eqn:Hp.
  - rewrite (body_accepts line st source Hp) in Hbody.
    inversion Hbody; subst st'; clear Hbody.
    unfold acceptConcept. fold concept. fold aui. fold wk.
    assert (Hlook : (<[aui := concept]> (Concepts.mappedConcepts st)) !! wk
                    = Concepts.mappedConcepts st !! wk)
      by apply winner_lookup_after_atom.
    rewrite Hlook. cbn [andb]. unfold isNew at 3.
    destruct (Concepts.mappedConcepts st !! wk) as [existing|] eqn:Hw.
    + assert (Hkey : forall key,
                isNew (Concepts.mappedConcepts st) key && negb (String.eqb key wk)
                = isNew (Concepts.mappedConcepts st) key).
      { intros key. destruct (String.eqb_spec key wk) as [->|Hne];
          [|apply andb_true_r].
        unfold isNew. now rewrite Hw. }
      destruct (_ <=? _); cbn [Concepts.mappedConcepts Concepts.counts emitWinner];
        (split; [|reflexivity]); intros key.
      * rewrite isNew_insert, negb_orb.
        rewrite (andb_comm (negb (String.eqb key aui))), andb_assoc.
        now rewrite Hkey.
      * fold wk. now rewrite !isNew_insert, negb_orb, andb_assoc.
    + cbn [Concepts.mappedConcepts Concepts.counts emitWinner]. fold wk. split.
      * intros key. now rewrite !isNew_insert, negb_orb, andb_assoc.
      * intros sys. apply oget_increment_bump.
  - destruct (body_rejects line st Hp) as [Hthrow | (n & _ & Hdone)];
      [congruence|].
    rewrite Hdone in Hbody. inversion Hbody; subst st'; clear Hbody.
    cbn [Concepts.mappedConcepts Concepts.counts andb negb]. split.
    + intros key. now rewrite andb_true_r.
    + reflexivity.
Qed.

Lemma sameTally_refl (s : Concepts.state) : sameTally s s.
Proof. split; reflexivity. Qed.

Lemma sameTally_trans (s1 s2 s3 : Concepts.state) :
  sameTally s1 s2 -> sameTally s2 s3 -> sameTally s1 s3.
Proof.
  intros [Hn1 Hc1] [Hn2 Hc2]. split; intros k; [rewrite Hn1 | rewrite Hc1]; auto.
Qed.

Lemma body_sameTally (line : string) (s1 s2 s1' s2' : Concepts.state) :
  sameTally s1 s2 ->
  processConcepts_body line s1 = Done s1' ->
  processConcepts_body line s2 = Done s2' ->
  sameTally s1' s2'.
Proof.
  intros [Hn Hc] H1 H2.
  apply body_tally in H1 as [Hn1 Hc1]. apply body_tally in H2 as [Hn2 Hc2].
  split.
  - intros key. now rewrite Hn1, Hn2, Hn.
  - intros sys. now rewrite Hc1, Hc2, Hn, Hc.
Qed.

Lemma loop_sameTally (lines : list string) (s1 s2 s1' s2' : Concepts.state) :
  sameTally s1 s2 ->
  forAwait processConcepts_body lines s1 = Done s1' ->
  forAwait processConcepts_body lines s2 = Done s2' ->
  sameTally s1' s2'.
Proof.
  revert s1 s2. induction lines as [|x lines IH]; intros s1 s2 Hs H1 H2; simpl in *.
  - inversion H1; inversion H2; subst. exact Hs.
  - destruct (processConcepts_body x s1) as [a1|] eqn:Hb1; [|discriminate].
    destruct (processConcepts_body x s2) as [a2|] eqn:Hb2; [|discriminate].
    simpl in *. eapply IH; [|eassumption..].
    eapply body_sameTally; eassumption.
Qed.

Lemma bumpAt_comm (s1 s2 key : string) (v : option Z) :
  bumpAt s1 key (bumpAt s2 key v) = bumpAt s2 key (bumpAt s1 key v).
Proof.
  unfold bumpAt. destruct (String.eqb s1 key), (String.eqb s2 key); reflexivity.
Qed.

Lemma winnerKey_not_AUI (concept : UmlsConcept.t) (line : string) :
  String.eqb (winnerKey concept)
    (jsStr (UmlsConcept.AUI (UmlsConcept.constructor line))) = false.
Proof.
  apply String.eqb_neq. intros Heq. symmetry in Heq.
  now apply AUI_not_winnerKey in Heq.
Qed.

Lemma same_key_same_system (x y : string) :
  accepted x = true -> accepted y = true ->
  winnerKey (UmlsConcept.constructor y) = winnerKey (UmlsConcept.constructor x) ->
  systemOfLine y = systemOfLine x.
Proof.
  unfold accepted, systemOfLine. intros Hx Hy Hkey.
  destruct (passesFilters (UmlsConcept.constructor x)) as [sx|] eqn:Hpx;
    [|discriminate].
  destruct (passesFilters (UmlsConcept.constructor y)) as [sy|] eqn:Hpy;
    [|discriminate].
  now destruct (same_key_same_pair _ _ _ _ Hpy Hpx Hkey) as (_ & _ & ->).
Qed.

(** Two consecutive lines can be exchanged without changing which keys
    are free or what the counts are. *)
Lemma body_swap_sameTally (x y : string) (s1 s2 a b a' b' : Concepts.state) :
  sameTally s1 s2 ->
  processConcepts_body x s1 = Done a ->
  processConcepts_body y a = Done b ->
  processConcepts_body y s2 = Done a' ->
  processConcepts_body x a' = Done b' ->
  sameTally b b'.
Proof.
  intros [Hn Hc] Hx1 Hy1 Hy2 Hx2.
  apply body_tally in Hx1 as [Hnx1 Hcx1]. apply body_tally in Hy1 as [Hny1 Hcy1].
  apply body_tally in Hy2 as [Hny2 Hcy2]. apply body_tally in Hx2 as [Hnx2 Hcx2].
  split.
  - intros key. rewrite Hny1, Hnx1, Hnx2, Hny2, Hn.
    rewrite <- !andb_assoc. f_equal. apply andb_comm.
  - intros sys. rewrite Hcy1, Hnx1, Hcx1, Hcx2, Hny2, Hcy2, !Hn, !Hc.
    clear Hnx1 Hcx1 Hny1 Hcy1 Hny2 Hcy2 Hnx2 Hcx2 Hn Hc.
    unfold touches. rewrite !winnerKey_not_AUI. cbn [orb].
    rewrite (String.eqb_sym (winnerKey (UmlsConcept.constructor x))
               (winnerKey (UmlsConcept.constructor y))).
    destruct (accepted x) eqn:Hax, (accepted y) eqn:Hay; cbn [andb negb];
      rewrite ?andb_true_r; try reflexivity.
    destruct (String.eqb_spec (winnerKey (UmlsConcept.constructor y))
                (winnerKey (UmlsConcept.constructor x))) as [Heq|Hne];
      cbn [andb negb]; rewrite ?andb_true_r, ?andb_false_r.
    + rewrite Heq, (same_key_same_system x y Hax Hay Heq). reflexivity.
    + destruct (isNew _ (winnerKey (UmlsConcept.constructor x))),
        (isNew _ (winnerKey (UmlsConcept.constructor y)));
        try reflexivity.
      apply bumpAt_comm.
Qed.

Lemma permuted_loop_sameTally (lines lines' : list string) :
  Permutation lines lines' ->
  forall s1 s2 s1' s2',
    sameTally s1 s2 ->
    forAwait processConcepts_body lines s1 = Done s1' ->
    forAwait processConcepts_body lines' s2 = Done s2' ->
    sameTally s1' s2'.
Proof.
  induction 1 as [|x l l' Hperm IH|x y l|l l' l'' Hp1 IH1 Hp2 IH2];
    intros s1 s2 s1' s2' Hs H1 H2.
  - simpl in *. inversion H1; inversion H2; subst. exact Hs.
  - simpl in *.
    destruct (processConcepts_body x s1) as [a1|] eqn:Hb1; [|discriminate].
    destruct (processConcepts_body x s2) as [a2|] eqn:Hb2; [|discriminate].
    simpl in *. eapply IH; [|eassumption..]. eapply body_sameTally; eassumption.
  - simpl in *.
    destruct (processConcepts_body y s1) as [a|] eqn:Hy1; [|discriminate].
    simpl in H1.
    destruct (processConcepts_body x a) as [b|] eqn:Hx1; [|discriminate].
    destruct (processConcepts_body x s2) as [a'|] eqn:Hx2; [|discriminate].
    simpl in H2.
    destruct (processConcepts_body y a') as [b'|] eqn:Hy2; [|discriminate].
    simpl in *. eapply loop_sameTally; [|eassumption..].
    eapply (body_swap_sameTally y x); eassumption.
  - assert (Hmid : exists mid, forAwait processConcepts_body l' s1 = Done mid).
    { apply loop_completes_iff. apply (Permutation_Forall Hp1).
      apply (loop_completes_iff l s1). eauto. }
    destruct Hmid as [mid Hmid].
    eapply sameTally_trans.
    + eapply IH1; [apply sameTally_refl | exact H1 | exact Hmid].
    + eapply IH2; [exact Hs | exact Hmid | exact H2].
Qed.

Lemma increment_NoDup (counts : odict Z) (key : string) :
  List.NoDup (map fst counts) -> List.NoDup (map fst (increment counts key)).
Proof. unfold increment. apply oset_NoDup. Qed.

Lemma loop_counts_NoDup (lines : list string) (st : Concepts.state) :
  forAwait processConcepts_body lines Concepts.initial = Done st ->
  List.NoDup (map fst (Concepts.counts st)).
Proof.
  apply (forAwait_invariant processConcepts_body
           (fun s => List.NoDup (map fst (Concepts.counts s))));
    [|apply List.NoDup_nil].
  intros line s s' Hinv Hbody.
  destruct (passesFilters (UmlsConcept.constructor line)) as [source|] eqn:Hp.
  - rewrite (body_accepts line s source Hp) in Hbody.
    inversion Hbody; subst; clear Hbody.
    unfold acceptConcept. destruct (_ !! _) as [existing|].
    + now destruct (_ <=? _).
    + cbn [Concepts.counts emitWinner]. now apply increment_NoDup.
  - destruct (body_rejects line s Hp) as [Hthrow | (n & _ & Hdone)];
      [congruence|].
    rewrite Hdone in Hbody. inversion Hbody; subst. exact Hinv.
Qed.

(** *** The summaries of the attribute and relationship passes *)

Lemma insertSorted_sorted {A : Type} (cmp : A -> A -> Z) (x : A) (l : list A) :
  (forall a b c, cmp a b <= 0 -> cmp b c <= 0 -> cmp a c <= 0) ->
  (forall a b, 0 < cmp a b -> cmp b a <= 0) ->
  StronglySorted (fun a b => cmp a b <= 0) l ->
  StronglySorted (fun a b => cmp a b <= 0) (insertSorted cmp x l).
Proof.
  intros Htrans Htotal. induction 1 as [|y l Hl IH Hy]; simpl.
  - repeat constructor.
  - destruct (Z.leb_spec (cmp x y) 0) as [Hle|Hgt].
    + constructor; [now constructor|].
      constructor; [exact Hle|].
      rewrite List.Forall_forall in *. intros z Hz. eauto.
    + constructor; [exact IH|].
      rewrite List.Forall_forall in *. intros z Hz.
      apply (Permutation_in _ (insertSorted_perm cmp x l)) in Hz.
      destruct Hz as [<- | Hz]; [now apply Htotal | now apply Hy].
Qed.

Lemma sort_sorted {A : Type} (cmp : A -> A -> Z) (l : list A) :
  (forall a b c, cmp a b <= 0 -> cmp b c <= 0 -> cmp a c <= 0) ->
  (forall a b, 0 < cmp a b -> cmp b a <= 0) ->
  StronglySorted (fun a b => cmp a b <= 0) (sort cmp l).
Proof.
  intros Htrans Htotal. unfold sort.
  induction l as [|x l IH]; simpl; [constructor|].
  now apply insertSorted_sorted.
Qed.

Lemma propertySummary_sorted (localeCompare : string -> string -> Z)
  (counts : odict Z) :
  consistent localeCompare ->
  StronglySorted (bySystemThenCount localeCompare)
    (propertySummary localeCompare counts).
Proof.
  intros (Hzero & Hneg & Htrans).
  set (cmp := fun l r : string * Z =>
                let bySystem :=
                  localeCompare (systemPart (fst r)) (systemPart (fst l)) in
                if bySystem =? 0 then snd r - snd l else bySystem).
  assert (Hcmp : forall a b, cmp a b <= 0 <-> bySystemThenCount localeCompare a b).
  { intros a b. unfold cmp, bySystemThenCount. cbv zeta.
    destruct (Z.eqb_spec (localeCompare (systemPart (fst b))
                            (systemPart (fst a))) 0); lia. }
  assert (Hsorted : StronglySorted (fun a b => cmp a b <= 0)
                      (propertySummary localeCompare counts)).
  { apply sort_sorted.
    - intros a b c Hab Hbc.
      change (cmp a b <= 0) in Hab. change (cmp b c <= 0) in Hbc.
      change (cmp a c <= 0). rewrite Hcmp in *.
      unfold bySystemThenCount in *. cbv zeta in *.
      set (sa := systemPart (fst a)) in *. set (sb := systemPart (fst b)) in *.
      set (sc := systemPart (fst c)) in *.
      pose proof (Hzero sb sa). pose proof (Hzero sc sb). pose proof (Hzero sc sa).
      pose proof (Hneg sb sa). pose proof (Hneg sc sb). pose proof (Hneg sc sa).
      pose proof (Hneg sa sb). pose proof (Hneg sb sc). pose proof (Hneg sa sc).
      pose proof (Htrans sc sb sa). pose proof (Htrans sa sc sb).
      pose proof (Htrans sb sa sc). pose proof (Htrans sa sb sc).
      lia.
    - intros a b. cbv zeta.
      pose proof (Hzero (systemPart (fst b)) (systemPart (fst a))).
      pose proof (Hneg (systemPart (fst a)) (systemPart (fst b))).
      destruct (Z.eqb_spec (localeCompare (systemPart (fst b))
                              (systemPart (fst a))) 0),
        (Z.eqb_spec (localeCompare (systemPart (fst a))
                       (systemPart (fst b))) 0); lia. }
  clear -Hsorted Hcmp.
  induction Hsorted as [|x l Hl IH Hx]; constructor; [exact IH|].
  rewrite List.Forall_forall in *. intros z Hz. now apply Hcmp, Hx.
Qed.

(** *** The counters of a pass do not depend on the order of the stream *)

Lemma sameCounters_refl (c : Z * Z * odict Z) : sameCounters c c.
Proof. repeat split. Qed.

Lemma sameCounters_trans (c1 c2 c3 : Z * Z * odict Z) :
  sameCounters c1 c2 -> sameCounters c2 c3 -> sameCounters c1 c3.
Proof.
  intros (Hp & Hs & Hc) (Hp' & Hs' & Hc').
  split; [congruence|]. split; [congruence|].
  intros key. now rewrite Hc.
Qed.

Lemma applyTally_sameCounters (t : tally) (c1 c2 : Z * Z * odict Z) :
  sameCounters c1 c2 -> sameCounters (applyTally t c1) (applyTally t c2).
Proof.
  intros (Hp & Hs & Hc). destruct t as [| |key]; cbn [applyTally].
  - now repeat split.
  - split; [exact Hp|]. split; [cbn [fst snd]; congruence|exact Hc].
  - split; [cbn [fst snd]; congruence|]. split; [exact Hs|].
    intros k. cbn [snd]. now rewrite !oget_increment_bump, Hc.
Qed.

Lemma applyTally_swap (x y : tally) (c : Z * Z * odict Z) :
  sameCounters (applyTally x (applyTally y c)) (applyTally y (applyTally x c)).
Proof.
  destruct x as [| |kx], y as [| |ky]; cbn [applyTally fst snd];
    (split; [cbn [fst snd]; lia|]; split; [cbn [fst snd]; lia|]);
    intros k; cbn [snd]; try reflexivity.
  rewrite !oget_increment_bump. apply bumpAt_comm.
Qed.

Lemma fold_tally_perm (ts ts' : list tally) :
  Permutation ts ts' ->
  forall c1 c2,
    sameCounters c1 c2 ->
    sameCounters (fold_left (fun c t => applyTally t c) ts c1)
      (fold_left (fun c t => applyTally t c) ts' c2).
Proof.
  induction 1 as [|t ts ts' _ IH|x y ts|ts ts' ts'' _ IH1 _ IH2];
    intros c1 c2 Hsame; cbn [fold_left].
  - exact Hsame.
  - now apply IH, applyTally_sameCounters.
  - assert (Hswap : sameCounters (applyTally x (applyTally y c1))
                      (applyTally y (applyTally x c2))).
    { eapply sameCounters_trans; [apply applyTally_swap|].
      now do 2 apply applyTally_sameCounters. }
    revert Hswap. generalize (applyTally x (applyTally y c1)).
    generalize (applyTally y (applyTally x c2)). clear.
    induction ts as [|t ts IH]; intros d2 d1 Hsame; [exact Hsame|].
    cbn [fold_left]. now apply IH, applyTally_sameCounters.
  - eapply sameCounters_trans; [apply IH1, sameCounters_refl|now apply IH2].
Qed.

Lemma fold_tally_NoDup (ts : list tally) (c : Z * Z * odict Z) :
  List.NoDup (map fst (snd c)) ->
  List.NoDup (map fst (snd (fold_left (fun c t => applyTally t c) ts c))).
Proof.
  revert c. induction ts as [|t ts IH]; intros c Hc; [exact Hc|].
  cbn [fold_left]. apply IH. destruct t as [| |key]; cbn [applyTally snd];
    try assumption.
  now apply increment_NoDup.
Qed.

Lemma tallies_snoc (tallyOf : string -> option tally) (lines : list string)
  (line : string) (t : tally) :
  tallyOf line = Some t ->
  tallies tallyOf (lines ++ [line]) = tallies tallyOf lines ++ [t].
Proof.
  intros Ht. unfold tallies. rewrite flat_map_app. cbn [flat_map].
  now rewrite Ht.
Qed.

Section PassCounters.

Context {S : Type} (body : string -> S -> outcome S)
  (tallyOf : string -> option tally) (counters : S -> Z * Z * odict Z).

Hypothesis body_tallies :
  forall line st,
    match tallyOf line with
    | None => body line st = TypeError
    | Some t =>
        exists st', body line st = Done st'
                    /\ counters st' = applyTally t (counters st)
    end.

Lemma forAwait_tallies (lines : list string) (st st' : S) :
  forAwait body lines st = Done st' ->
  counters st'
  = fold_left (fun c t => applyTally t c) (tallies tallyOf lines) (counters st).
Proof.
  revert st. induction lines as [|line lines IH]; intros st; cbn [forAwait].
  - now intros [= <-].
  - pose proof (body_tallies line st) as Hline. unfold tallies.
    cbn [flat_map]. destruct (tallyOf line) as [t|].
    + destruct Hline as (s1 & -> & Hcounters). cbn [bind app fold_left].
      intros Hrest. rewrite <- Hcounters. now apply IH.
    + rewrite Hline. discriminate.
Qed.

Lemma forAwait_tally_completes (lines : list string) (st : S) :
  (exists st', forAwait body lines st = Done st')
  <-> Forall (fun line => tallyOf line <> None) lines.
Proof.
  revert st. induction lines as [|line lines IH]; intros st.
  - split; [constructor|]. intros _. now exists st.
  - cbn [forAwait]. pose proof (body_tallies line st) as Hline.
    destruct (tallyOf line) as [t|] eqn:Ht.
    + destruct Hline as (s1 & -> & _). cbn [bind]. rewrite IH. split.
      * intros Hall. constructor; [congruence|assumption].
      * intros Hall. now inversion Hall.
    + rewrite Hline. cbn [bind]. split.
      * intros [st' Hdone]. discriminate.
      * intros Hall. inversion Hall; congruence.
Qed.

Lemma permuted_pass_counters (lines lines' : list string) (st0 st : S) :
  List.NoDup (map fst (snd (counters st0))) ->
  forAwait body lines st0 = Done st ->
  Permutation lines lines' ->
  exists st',
    forAwait body lines' st0 = Done st'
    /\ sameCounters (counters st') (counters st)
    /\ Permutation (snd (counters st')) (snd (counters st)).
Proof.
  intros Hinit Hloop Hperm.
  assert (Hdone : exists st', forAwait body lines' st0 = Done st').
  { apply forAwait_tally_completes. apply (Permutation_Forall Hperm).
    apply (forAwait_tally_completes lines st0). eauto. }
  destruct Hdone as [st' Hloop']. exists st'. split; [exact Hloop'|].
  rewrite (forAwait_tallies _ _ _ Hloop), (forAwait_tallies _ _ _ Hloop').
  assert (Hsame : sameCounters
            (fold_left (fun c t => applyTally t c) (tallies tallyOf lines')
               (counters st0))
            (fold_left (fun c t => applyTally t c) (tallies tallyOf lines)
               (counters st0))).
  { apply fold_tally_perm; [|apply sameCounters_refl].
    unfold tallies. apply Permutation_flat_map. now symmetry. }
  split; [exact Hsame|].
  apply odict_same_entries; [now apply fold_tally_NoDup..|].
  apply Hsame.
Qed.

End PassCounters.

Lemma properties_body_tally (line : string) (st : Properties.state) :
  match attributeTally line with
  | None => processProperties_body line st = TypeError
  | Some t =>
      exists st',
        processProperties_body line st = Done st'
        /\ (Properties.processed st', Properties.skipped st',
            Properties.counts st')
           = applyTally t (Properties.processed st, Properties.skipped st,
                           Properties.counts st)
  end.
Proof.
  unfold attributeTally, processProperties_body. cbv zeta.
  destruct (readProperty umlsSources _) as [source| |]; [| |eauto].
  all: destruct (negb (strictEq (UmlsAttribute.SUPPRESS _) _)); [eauto|].
  all: destruct (findAttributeProperty _ _) as [property|]; [|eauto].
  all: rewrite pushProperty_pushCoding; cbn [bind]; eauto.
Qed.

Lemma relationships_body_tally
  (relationshipProperties : gmap string string)
  (mappedCodes : gmap string UmlsConcept.t)
  (line : string) (st : Relationships.state) :
  match relationshipTally relationshipProperties mappedCodes line with
  | None =>
      processRelationships_body relationshipProperties mappedCodes line st
      = TypeError
  | Some t =>
      exists st',
        processRelationships_body relationshipProperties mappedCodes line st
        = Done st'
        /\ (Relationships.processed st', Relationships.skipped st',
            Relationships.counts st')
           = applyTally t (Relationships.processed st, Relationships.skipped st,
                           Relationships.counts st)
  end.
Proof.
  unfold relationshipTally, processRelationships_body. cbv zeta.
  destruct (readProperty umlsSources _) as [source| |]; [| |eauto].
  all: destruct (negb (strictEq (UmlsRelationship.SUPPRESS _) _)); [eauto|].
  all: destruct (resolvePropertyName _ _ _) as [propertyName|];
    [|reflexivity]; cbn [bind].
  all: destruct (negb (truthy propertyName)); [eauto|].
  all: destruct (negb (truthy (resolveCode mappedCodes (UmlsRelationship.AUI1 _)))
                 || negb (truthy (resolveCode mappedCodes
                                    (UmlsRelationship.AUI2 _)))); [eauto|].
  all: rewrite pushProperty_pushCoding; cbn [bind]; eauto.
Qed.

Lemma concept_body_skipped (line : string) (st st' : Concepts.state) :
  processConcepts_body line st = Done st' ->
  Concepts.skipped st'
  = Concepts.skipped st + (if conceptSkips line then 1 else 0).
Proof.
  unfold processConcepts_body, conceptSkips, emitWinner. cbv zeta.
  destruct (readProperty umlsSources _) as [source| |].
  - destruct (strictEq (UmlsConcept.LAT _) _); cbn [negb andb];
      [|intros [= <-]; lia].
    destruct (includes _ _); cbn [negb andb]; [|intros [= <-]; lia].
    destruct (strictEq (UmlsConcept.SUPPRESS _) _); cbn [negb];
      [|intros [= <-]; reflexivity].
    destruct (_ !! _) as [existing|]; [destruct (_ <=? _)|];
      intros [= <-]; cbn [Concepts.skipped]; lia.
  - destruct (negb _); [intros [= <-]; lia|discriminate].
  - intros [= <-]. lia.
Qed.

Lemma filter_length_perm {A : Type} (f : A -> bool) (l l' : list A) :
  Permutation l l' ->
  length (List.filter f l) = length (List.filter f l').
Proof.
  induction 1 as [|x l l' _ IH|x y l|l l' l'' _ IH1 _ IH2]; cbn [List.filter].
  - reflexivity.
  - destruct (f x); cbn [length]; congruence.
  - destruct (f x), (f y); reflexivity.
  - congruence.
Qed.

Lemma concept_loop_skipped (lines : list string) (st st' : Concepts.state) :
  forAwait processConcepts_body lines st = Done st' ->
  Concepts.skipped st'
  = Concepts.skipped st + Z.of_nat (length (List.filter conceptSkips lines)).
Proof.
  revert st. induction lines as [|line lines IH]; intros st; cbn [forAwait].
  - intros [= <-]. cbn. lia.
  - destruct (processConcepts_body line st) as [s1|] eqn:Hbody; [|discriminate].
    cbn [bind List.filter]. intros Hrest.
    rewrite (IH _ Hrest), (concept_body_skipped _ _ _ Hbody).
    destruct (conceptSkips line); cbn [length]; lia.
Qed.

(** Two lists in the order of the property summaries with the same
    entries and no tie are the same list. *)
Lemma sorted_untied_unique (localeCompare : string -> string -> Z)
  (l1 l2 : list (string * Z)) :
  consistent localeCompare ->
  StronglySorted (bySystemThenCount localeCompare) l1 ->
  StronglySorted (bySystemThenCount localeCompare) l2 ->
  Permutation l1 l2 ->
  untied localeCompare l1 ->
  l1 = l2.
Proof.
  intros (Hzero & Hneg & _) H1. revert l2.
  induction H1 as [|a l1 Hs1 IH Ha]; intros l2 H2 Hperm Hun.
  - apply Permutation_nil in Hperm. now subst.
  - destruct l2 as [|b l2];
      [apply Permutation_sym, Permutation_nil in Hperm; discriminate|].
    inversion H2 as [|? ? Hs2 Hb]; subst.
    assert (Hab : a = b).
    { assert (Hina : In a (b :: l2))
        by (apply (Permutation_in _ Hperm); now left).
      assert (Hinb : In b (a :: l1))
        by (apply (Permutation_in _ (Permutation_sym Hperm)); now left).
      destruct Hina as [Heq|Hina]; [now symmetry|].
      destruct Hinb as [Heq|Hinb]; [assumption|].
      rewrite List.Forall_forall in Ha, Hb.
      pose proof (Ha b Hinb) as Hab. pose proof (Hb a Hina) as Hba.
      unfold bySystemThenCount in Hab, Hba. cbv zeta in Hab, Hba.
      pose proof (Hneg (systemPart (fst a)) (systemPart (fst b))) as Hn1.
      pose proof (Hneg (systemPart (fst b)) (systemPart (fst a))) as Hn2.
      apply Hun; [now left|now right| |]; lia. }
    subst b. f_equal. apply IH.
    + assumption.
    + now apply Permutation_cons_inv in Hperm.
    + intros x y Hx Hy. apply Hun; now right.
Qed.

Lemma untied_perm (localeCompare : string -> string -> Z)
  (l1 l2 : list (string * Z)) :
  Permutation l1 l2 -> untied localeCompare l1 -> untied localeCompare l2.
Proof.
  intros Hperm Hun a b Ha Hb. apply Hun.
  - now apply (Permutation_in _ (Permutation_sym Hperm)).
  - now apply (Permutation_in _ (Permutation_sym Hperm)).
Qed.

(** The summaries of two sets of counts that agree under every key. *)
Lemma propertySummary_same_counts (localeCompare : string -> string -> Z)
  (counts counts' : odict Z) :
  Permutation counts' counts ->
  Permutation (propertySummary localeCompare counts')
    (propertySummary localeCompare counts)
  /\ (consistent localeCompare ->
      untied localeCompare counts ->
      propertySummary localeCompare counts'
      = propertySummary localeCompare counts).
Proof.
  intros Hperm.
  assert (Hsummary : Permutation (propertySummary localeCompare counts')
                       (propertySummary localeCompare counts)).
  { unfold propertySummary. rewrite !sort_perm. exact Hperm. }
  split; [exact Hsummary|]. intros Hconsistent Hun.
  apply (sorted_untied_unique localeCompare); try assumption.
  - now apply propertySummary_sorted.
  - now apply propertySummary_sorted.
  - apply (untied_perm localeCompare counts); [|exact Hun].
    unfold propertySummary. rewrite sort_perm. now symmetry.
Qed.


(** ** Lines that make a pass throw *)

Lemma strictEq_Some (v : option string) (x : string) :
  strictEq v (Some x) = true <-> v = Some x.
Proof.
  destruct v as [y|]; simpl; [|split; discriminate].
  rewrite String.eqb_eq. split; [now intros -> | now intros [= ->]].
Qed.

Lemma processProperties_body_total (line : string) (st : Properties.state) :
  exists st', processProperties_body line st = Done st'.
Proof.
  unfold processProperties_body. cbv zeta.
  destruct (readProperty umlsSources _) as [source| |]; eauto;
    (destruct (negb (strictEq _ (Some "N"))); eauto);
    (destruct (findAttributeProperty _ _); eauto);
    rewrite pushProperty_pushCoding; cbn [bind]; eauto.
Qed.

Lemma processRelationships_body_total
  (relationshipProperties : gmap string string)
  (mappedCodes : gmap string UmlsConcept.t)
  (line : string) (st : Relationships.state) :
  readProperty umlsSources
    (jsStr (UmlsRelationship.SAB (UmlsRelationship.constructor line)))
  <> Inherited ->
  exists st',
    processRelationships_body relationshipProperties mappedCodes line st = Done st'.
Proof.
  intros Hsrc.
  destruct (readProperty umlsSources _) as [source| |] eqn:Hs;
    [|contradiction|].
  - destruct (strictEq (UmlsRelationship.SUPPRESS
                          (UmlsRelationship.constructor line)) (Some "N")) eqn:Hn.
    + rewrite (relationship_body_filtered_in _ _ _ _ source Hs Hn).
      assert (Hres : exists name,
                 resolvePropertyName relationshipProperties (Own source)
                   (UmlsRelationship.constructor line) = Done name).
      { assert (Hconf : forall uri, exists name,
                   configuredProperty uri (Own source) = Done name).
        { intros uri. unfold configuredProperty.
          destruct (CodeSystem.property _); eauto.
          destruct (List.find _ _) as [q|]; eauto.
          destruct (CodeSystem.code q); eauto. }
        unfold resolvePropertyName. destruct (truthy _); eauto.
        destruct (strictEq _ (Some "PAR")); [apply Hconf|].
        destruct (strictEq _ (Some "CHD")); [apply Hconf | eauto]. }
      destruct Hres as [name ->]. cbn [bind].
      destruct (negb (truthy name)); eauto.
      destruct (negb (truthy _) || negb (truthy _)); eauto.
    + unfold processRelationships_body. cbv zeta. rewrite Hs, Hn. eauto.
  - unfold processRelationships_body. cbv zeta. rewrite Hs. eauto.
Qed.

(** C9 (failing inputs): a concept line of twelve columns whose source
    abbreviation is [constructor] and whose language is English makes the
    concept pass throw, and a complete relationship line with that source
    abbreviation and the label [PAR] makes the relationship pass throw:
    [umlsSources] is an object literal, the read reaches
    [Object.prototype.constructor], which is truthy and has neither [tty]
    nor [resource].  These are the only throws: the concept loop body
    throws exactly on an English line whose source abbreviation names a
    member of [Object.prototype], the attribute loop body never throws, and
    the relationship loop body does not throw on any other source
    abbreviation. *)
Theorem inherited_source_name_throws :
  processConcepts ["C0000001|ENG||||||||||constructor"] = TypeError
  /\ processRelationships ∅ ∅
       ["C1|A1|AUI|PAR|C2|A2|AUI||R1||constructor|X|||N"] = TypeError
  /\ (forall line st,
        processConcepts_body line st = TypeError
        <-> readProperty umlsSources
              (jsStr (UmlsConcept.SAB (UmlsConcept.constructor line)))
            = Inherited
            /\ UmlsConcept.LAT (UmlsConcept.constructor line) = Some "ENG")
  /\ (forall line st, exists st', processProperties_body line st = Done st')
  /\ (forall relationshipProperties mappedCodes line st,
        readProperty umlsSources
          (jsStr (UmlsRelationship.SAB (UmlsRelationship.constructor line)))
        <> Inherited ->
        exists st',
          processRelationships_body relationshipProperties mappedCodes line st
          = Done st').
Proof.
  split; [reflexivity|]. split.
  { unfold processRelationships. cbn [forAwait].
    unfold processRelationships_body. cbv zeta.
    unfold resolvePropertyName. rewrite lookup_empty. reflexivity. }
  split; [|split; [apply processProperties_body_total
                  | apply processRelationships_body_total]].
  intros line st. rewrite body_throws_iff. unfold conceptThrows. cbv zeta.
  destruct (readProperty umlsSources _) as [source| |].
  - split; [discriminate | intros [H _]; discriminate].
  - rewrite strictEq_Some. tauto.
  - split; [discriminate | intros [H _]; discriminate].
Qed.

(** ** The passes drive the emitter *)

Lemma streamOf_empty {A : Type} : streamOf (A := A) emptyEmitter 0.
Proof. exists []. split; reflexivity. Qed.

Lemma streamOf_push {A : Type} (s : string) (x : A) (e : Emitter A) (n : Z) :
  streamOf e n -> streamOf (pushCoding s x e) (n + 1).
Proof.
  intros (items & -> & <-). exists (items ++ [(s, x)]). split.
  - now rewrite fold_left_app.
  - rewrite length_app. simpl. lia.
Qed.

Lemma concept_body_streamOf (line : string) (st st' : Concepts.state) :
  processConcepts_body line st = Done st' ->
  streamOf (Concepts.codings st) (Concepts.processed st) ->
  streamOf (Concepts.codings st') (Concepts.processed st').
Proof.
  intros Hbody Hinv.
  destruct (passesFilters (UmlsConcept.constructor line)) as [source|] eqn:Hp.
  - rewrite (body_accepts line st source Hp) in Hbody.
    inversion Hbody; subst; clear Hbody.
    unfold acceptConcept. destruct (_ !! _) as [existing|].
    + destruct (_ <=? _); cbn [Concepts.codings Concepts.processed emitWinner];
        [exact Hinv | now apply streamOf_push].
    + cbn [Concepts.codings Concepts.processed emitWinner].
      now apply streamOf_push.
  - destruct (body_rejects line st Hp) as [Hthrow | (n & _ & Hdone)];
      [congruence|].
    rewrite Hdone in Hbody. inversion Hbody; subst. exact Hinv.
Qed.

Lemma properties_body_streamOf (line : string) (st st' : Properties.state) :
  processProperties_body line st = Done st' ->
  streamOf (Properties.properties st) (Properties.processed st) ->
  streamOf (Properties.properties st') (Properties.processed st').
Proof.
  unfold processProperties_body. cbv zeta. intros Hbody Hinv.
  destruct (readProperty umlsSources _) as [source| |];
    [| |inversion Hbody; subst; exact Hinv];
    (destruct (negb (strictEq _ (Some "N")));
     [inversion Hbody; subst; exact Hinv|]);
    (destruct (findAttributeProperty _ _);
     [|inversion Hbody; subst; exact Hinv]);
    rewrite pushProperty_pushCoding in Hbody; cbn [bind] in Hbody;
    inversion Hbody; subst; cbn [Properties.properties Properties.processed];
    now apply streamOf_push.
Qed.

Lemma relationships_body_streamOf
  (relationshipProperties : gmap string string)
  (mappedCodes : gmap string UmlsConcept.t)
  (line : string) (st st' : Relationships.state) :
  processRelationships_body relationshipProperties mappedCodes line st = Done st' ->
  streamOf (Relationships.properties st) (Relationships.processed st) ->
  streamOf (Relationships.properties st') (Relationships.processed st').
Proof.
  unfold processRelationships_body. cbv zeta. intros Hbody Hinv.
  destruct (readProperty umlsSources _) as [source| |];
    [| |inversion Hbody; subst; exact Hinv];
    (destruct (negb (strictEq _ (Some "N")));
     [inversion Hbody; subst; exact Hinv|]);
    (destruct (resolvePropertyName _ _ _) as [name|]; [|discriminate]);
    cbn [bind] in Hbody;
    (destruct (negb (truthy name)); [inversion Hbody; subst; exact Hinv|]);
    (destruct (negb (truthy _) || negb (truthy _));
     [inversion Hbody; subst; exact Hinv|]);
    rewrite pushProperty_pushCoding in Hbody; cbn [bind] in Hbody;
    inversion Hbody; subst;
    cbn [Relationships.properties Relationships.processed];
    now apply streamOf_push.
Qed.

(** C4: for every stream of appends and every system, with [N] the number
    of items of the stream destined for that system: the batches posted for
    the system number ceil(N / 500), their lengths sum to [N] (they are the
    system's items, in order), every batch posted before the end of the
    stream has exactly 500 items, and the final flush adds at most one
    batch, which is non-empty and below 500.  The emitter of the property
    passes does exactly the same on every stream, and what each of the
    three passes has posted when it completes is the result of such a
    stream of appends, one per processed record, followed by the flush. *)
Theorem batch_capacity_invariant :
  (forall (A : Type) (items : list (string * A)) (sys : string),
     let N := Z.of_nat (length (itemsFor sys items)) in
     let loop :=
       fold_left (fun e item => pushCoding (fst item) (snd item) e)
         items emptyEmitter in
     let early := postedFor sys (posted loop) in
     let flushed := postedFor sys (posted (emitCodings items)) in
     emitProperties items = Done (emitCodings items)
     /\ Z.of_nat (length flushed) = (N + 499) / 500
     /\ totalLength flushed = N
     /\ concat flushed = itemsFor sys items
     /\ Forall (fun b => Z.of_nat (length b) = 500) early
     /\ (flushed = early
         \/ exists last,
              flushed = early ++ [last] /\ 0 < Z.of_nat (length last) < 500))
  /\ (forall lines st,
        processConcepts lines = Done st ->
        exists items,
          Concepts.codings st = emitCodings items
          /\ Z.of_nat (length items) = Concepts.processed st)
  /\ (forall lines st,
        processProperties lines = Done st ->
        exists items,
          Properties.properties st = emitCodings items
          /\ Z.of_nat (length items) = Properties.processed st)
  /\ (forall relationshipProperties mappedCodes lines st,
        processRelationships relationshipProperties mappedCodes lines = Done st ->
        exists items,
          Relationships.properties st = emitCodings items
          /\ Z.of_nat (length items) = Relationships.processed st).
Proof.
  split; [exact emitter_capacity|]. split; [|split].
  - intros lines st Hrun. unfold processConcepts in Hrun.
    destruct (forAwait _ _ _) as [loop|] eqn:Hloop; [|discriminate].
    inversion Hrun; subst; clear Hrun. cbn [Concepts.codings Concepts.processed].
    destruct (forAwait_invariant processConcepts_body
                (fun s => streamOf (Concepts.codings s) (Concepts.processed s))
                (fun line s s' Hs Hb => concept_body_streamOf line s s' Hb Hs)
                lines Concepts.initial loop streamOf_empty Hloop)
      as (items & -> & Hlen).
    now exists items.
  - intros lines st Hrun. unfold processProperties in Hrun.
    destruct (forAwait _ _ _) as [loop|] eqn:Hloop; [|discriminate].
    inversion Hrun; subst; clear Hrun.
    cbn [Properties.properties Properties.processed].
    destruct (forAwait_invariant processProperties_body
                (fun s => streamOf (Properties.properties s) (Properties.processed s))
                (fun line s s' Hs Hb => properties_body_streamOf line s s' Hb Hs)
                lines Properties.initial loop streamOf_empty Hloop)
      as (items & -> & Hlen).
    now exists items.
  - intros relationshipProperties mappedCodes lines st Hrun.
    unfold processRelationships in Hrun.
    destruct (forAwait _ _ _) as [loop|] eqn:Hloop; [|discriminate].
    inversion Hrun; subst; clear Hrun.
    cbn [Relationships.properties Relationships.processed].
    destruct (forAwait_invariant
                (processRelationships_body relationshipProperties mappedCodes)
                (fun s => streamOf (Relationships.properties s)
                            (Relationships.processed s))
                (fun line s s' Hs Hb =>
                   relationships_body_streamOf relationshipProperties
                     mappedCodes line s s' Hb Hs)
                lines Relationships.initial loop streamOf_empty Hloop)
      as (items & -> & Hlen).
    now exists items.
Qed.

(** ** The relationship-property map *)

Lemma isRel_not_isRela (doc : UmlsDoc.t) :
  isRelRow doc = true -> isRelaRow doc = false.
Proof.
  unfold isRelRow, isRelaRow. intros H.
  apply andb_true_iff in H as [H _]. apply strictEq_Some in H.
  now rewrite H.
Qed.

Lemma propertyMappingsOf_snoc (lines : list string) (line : string) :
  propertyMappingsOf (lines ++ [line])
  = prepareRelationshipProperties_body line (propertyMappingsOf lines).
Proof. unfold propertyMappingsOf. now rewrite fold_left_app. Qed.

Lemma lastExpl_snoc (kind : UmlsDoc.t -> bool) (value : string)
  (lines : list string) (line : string) :
  lastExpl kind value (lines ++ [line])
  = if kind (UmlsDoc.constructor line)
       && String.eqb (jsStr (UmlsDoc.VALUE (UmlsDoc.constructor line))) value
    then UmlsDoc.EXPL (UmlsDoc.constructor line)
    else lastExpl kind value lines.
Proof.
  unfold lastExpl. rewrite rev_unit. cbn [List.find].
  now destruct (kind (UmlsDoc.constructor line)
                && String.eqb (jsStr (UmlsDoc.VALUE (UmlsDoc.constructor line))) value).
Qed.

Lemma lastExpl_unmapped (kind : UmlsDoc.t -> bool) (value : string)
  (lines : list string) :
  (forall doc, kind doc = true -> isRelRow doc || isRelaRow doc = true) ->
  existsb (mapsValue value) lines = false ->
  lastExpl kind value lines = None.
Proof.
  intros Hkind Hno. unfold lastExpl.
  destruct (List.find _ (rev lines)) as [line|] eqn:Hfind; [|reflexivity].
  apply find_some in Hfind as [Hin Hline]. apply in_rev in Hin.
  apply andb_true_iff in Hline as [Hk Hv].
  assert (existsb (mapsValue value) lines = true); [|congruence].
  apply existsb_exists. exists line. split; [assumption|].
  unfold mapsValue. now rewrite (Hkind _ Hk), Hv.
Qed.

Lemma existsb_snoc {A : Type} (f : A -> bool) (l : list A) (x : A) :
  existsb f (l ++ [x]) = existsb f l || f x.
Proof. rewrite existsb_app. simpl. now rewrite orb_false_r. Qed.

Lemma propertyMappingsOf_spec (lines : list string) (value : string) :
  oget (propertyMappingsOf lines) value
  = if existsb (mapsValue value) lines then Some (mappingOf value lines)
    else None.
Proof.
  induction lines as [|line lines IH] using rev_ind; [reflexivity|].
  rewrite propertyMappingsOf_snoc, existsb_snoc.
  unfold mappingOf. rewrite !lastExpl_snoc.
  unfold prepareRelationshipProperties_body. unfold mapsValue at 2.
  cbv zeta.
  destruct (isRelRow (UmlsDoc.constructor line)) eqn:Hrel.
  - rewrite (isRel_not_isRela _ Hrel). cbn [orb andb].
    destruct (String.eqb_spec
                (jsStr (UmlsDoc.VALUE (UmlsDoc.constructor line))) value)
      as [Heq|Hne].
    + rewrite Heq, oget_oset_eq, orb_true_r, IH.
      destruct (existsb (mapsValue value) lines) eqn:Hex; [reflexivity|].
      rewrite (lastExpl_unmapped isRelaRow value lines); [reflexivity| |exact Hex].
      intros doc ->. apply orb_true_r.
    + rewrite oget_oset_ne by assumption. rewrite orb_false_r. exact IH.
  - destruct (isRelaRow (UmlsDoc.constructor line)) eqn:Hrela; cbn [orb andb].
    + destruct (String.eqb_spec
                  (jsStr (UmlsDoc.VALUE (UmlsDoc.constructor line))) value)
        as [Heq|Hne].
      * rewrite Heq, oget_oset_eq, orb_true_r, IH.
        destruct (existsb (mapsValue value) lines) eqn:Hex; [reflexivity|].
        rewrite (lastExpl_unmapped isRelRow value lines); [reflexivity| |exact Hex].
        now intros doc ->.
      * rewrite oget_oset_ne by assumption. rewrite orb_false_r. exact IH.
    + rewrite orb_false_r. exact IH.
Qed.

Lemma propertyMappingsOf_NoDup (lines : list string) :
  List.NoDup (map fst (propertyMappingsOf lines)).
Proof.
  induction lines as [|line lines IH] using rev_ind; [constructor|].
  rewrite propertyMappingsOf_snoc. unfold prepareRelationshipProperties_body.
  cbv zeta.
  destruct (isRelRow (UmlsDoc.constructor line)); [now apply oset_NoDup|].
  destruct (isRelaRow (UmlsDoc.constructor line)); [now apply oset_NoDup|].
  exact IH.
Qed.

Lemma filter_partition_perm {A : Type} (f : A -> bool) (l : list A) :
  Permutation (List.filter f l ++ List.filter (fun x => negb (f x)) l) l.
Proof.
  induction l as [|x l IH]; [constructor|].
  cbn [List.filter]. destruct (f x); cbn [negb app].
  - now constructor.
  - symmetry. apply Permutation_cons_app. now symmetry.
Qed.

Lemma ownEntries_perm {V : Type} (d : odict V) : Permutation (ownEntries d) d.
Proof.
  unfold ownEntries.
  etransitivity; [|apply (filter_partition_perm (fun e => isArrayIndex (fst e)))].
  apply Permutation_app_tail, sort_perm.
Qed.

Lemma fromEntries_from (pairs : list (string * string)) (m : gmap string string)
  (key : string) :
  fold_left (fun m pair => <[fst pair := snd pair]> m) pairs m !! key
  = match List.find (fun pair => String.eqb (fst pair) key) (rev pairs) with
    | Some found => Some (snd found)
    | None => m !! key
    end.
Proof.
  induction pairs as [|pair pairs IH] using rev_ind; [reflexivity|].
  rewrite fold_left_app, rev_unit. cbn [fold_left List.find].
  destruct (String.eqb_spec (fst pair) key) as [Heq|Hne].
  - rewrite Heq. apply lookup_insert_eq.
  - rewrite lookup_insert_ne by assumption. exact IH.
Qed.

Lemma keyOwners_In (key : string) (lines : list string) (value : string) :
  In value (keyOwners key lines)
  <-> existsb (mapsValue value) lines = true
      /\ stageAKey (mappingOf value lines) = key.
Proof.
  unfold keyOwners. rewrite filter_In, in_map_iff, String.eqb_eq.
  rewrite existsb_exists. unfold mapsValue.
  split.
  - intros [(line & Hv & Hin) Hkey]. apply filter_In in Hin as [Hin Hrow].
    split; [|assumption]. exists line. split; [assumption|].
    rewrite Hrow, Hv. cbn. apply String.eqb_refl.
  - intros [(line & Hin & Hrow) Hkey]. apply andb_true_iff in Hrow as [Hrow Hv].
    apply String.eqb_eq in Hv. split; [|assumption].
    exists line. split; [assumption|]. apply filter_In. now split.
Qed.

(** Every binding of the relationship-property map comes from the file. *)
Lemma prepareRelationshipProperties_owner (lines : list string)
  (key property : string) :
  prepareRelationshipProperties lines !! key = Some property ->
  In property (keyOwners key lines).
Proof.
  unfold prepareRelationshipProperties, fromEntries. rewrite fromEntries_from.
  destruct (List.find _ _) as [pair|] eqn:Hfind;
    [|rewrite lookup_empty; discriminate].
  intros [= <-]. apply find_some in Hfind as [Hin Hkey].
  apply String.eqb_eq in Hkey. apply in_rev, in_map_iff in Hin.
  destruct Hin as (entry & <- & Hin). cbn [fst snd] in *.
  apply (Permutation_in _ (ownEntries_perm _)) in Hin.
  destruct entry as [value mapping]. cbn [fst snd] in *.
  apply oget_In in Hin; [|apply propertyMappingsOf_NoDup].
  rewrite propertyMappingsOf_spec in Hin. apply keyOwners_In.
  destruct (existsb (mapsValue value) lines); [|discriminate].
  injection Hin as <-. now split.
Qed.

(** The key of every mapped [VALUE] is bound. *)
Lemma prepareRelationshipProperties_bound (lines : list string) (value : string) :
  existsb (mapsValue value) lines = true ->
  exists property,
    prepareRelationshipProperties lines !! stageAKey (mappingOf value lines)
    = Some property.
Proof.
  intros Hex. unfold prepareRelationshipProperties, fromEntries.
  rewrite fromEntries_from.
  destruct (List.find _ _) as [pair|] eqn:Hfind; [now eexists|].
  exfalso.
  assert (Hin : In (value, mappingOf value lines)
                  (ownEntries (propertyMappingsOf lines))).
  { apply (Permutation_in _ (Permutation_sym (ownEntries_perm _))).
    apply oget_In; [apply propertyMappingsOf_NoDup|].
    now rewrite propertyMappingsOf_spec, Hex. }
  apply (in_map (fun entry => (stageAKey (snd entry), fst entry))) in Hin.
  apply in_rev in Hin.
  apply (find_none _ _ Hfind) in Hin. cbn [fst snd] in Hin.
  now rewrite String.eqb_refl in Hin.
Qed.

(** X1.  Soundness of the relationship-property map: a key bound to a
    property name comes from at least one matching row of the documentation
    file whose [VALUE] is that name, and the key is [SNOMEDCT_US/rel/rela]
    where [rel] and [rela] are the [EXPL] of the last REL row and of the
    last RELA row of that [VALUE], or empty when there is none. *)
Theorem relationship_property_map_sound (lines : list string)
  (key property : string) :
  prepareRelationshipProperties lines !! key = Some property ->
  existsb (mapsValue property) lines = true
  /\ key = "SNOMEDCT_US/" +:+ nullish (lastExpl isRelRow property lines)
           +:+ "/" +:+ nullish (lastExpl isRelaRow property lines).
Proof.
  intros Hkey. apply prepareRelationshipProperties_owner in Hkey.
  apply keyOwners_In in Hkey as [Hex <-]. now split.
Qed.

(** X2.  Every [VALUE] with a matching row has its key bound, to a [VALUE]
    whose final mapping gives the same key; a [VALUE] that shares its pair
    with another one can lose its own binding to it. *)
Theorem relationship_property_map_complete (lines : list string)
  (value : string) :
  existsb (mapsValue value) lines = true ->
  exists property,
    prepareRelationshipProperties lines !! stageAKey (mappingOf value lines)
    = Some property
    /\ existsb (mapsValue property) lines = true
    /\ stageAKey (mappingOf property lines) = stageAKey (mappingOf value lines).
Proof.
  intros Hex.
  destruct (prepareRelationshipProperties_bound lines value Hex)
    as [property Hkey].
  exists property. split; [assumption|].
  now apply keyOwners_In, prepareRelationshipProperties_owner.
Qed.

(** X3.  Round trip: when no other [VALUE] of the file yields the same
    key, the key built from the last REL and RELA rows of a [VALUE] reads
    back that [VALUE].  The condition is on keys, not on pairs: two
    different pairs yield one key when an [EXPL] contains a slash. *)
Theorem relationship_property_map_round_trip (lines : list string)
  (value : string) :
  existsb (mapsValue value) lines = true ->
  forallb (String.eqb value)
    (keyOwners (stageAKey (mappingOf value lines)) lines) = true ->
  prepareRelationshipProperties lines !! stageAKey (mappingOf value lines)
  = Some value.
Proof.
  intros Hex Hunique.
  destruct (prepareRelationshipProperties_bound lines value Hex)
    as [property Hkey].
  rewrite Hkey. f_equal.
  apply prepareRelationshipProperties_owner in Hkey.
  rewrite forallb_forall in Hunique.
  symmetry. now apply String.eqb_eq, Hunique.
Qed.

Lemma slash_first_part (a a' b b' : string) :
  hasSlash a = false -> hasSlash a' = false ->
  a +:+ "/" +:+ b = a' +:+ "/" +:+ b' -> a = a'.
Proof.
  revert a'. induction a as [|c a IH]; intros [|c' a'] Ha Ha' Heq; simpl in *.
  - reflexivity.
  - inversion Heq; subst. simpl in Ha'. discriminate.
  - inversion Heq; subst. simpl in Ha. discriminate.
  - inversion Heq; subst.
    apply orb_false_iff in Ha as [_ Ha]. apply orb_false_iff in Ha' as [_ Ha'].
    now rewrite (IH a' Ha Ha' H1).
Qed.

Lemma ownProperty_Some_In {V : Type} (obj : list (string * V)) (key : string)
  (v : V) :
  ownProperty obj key = Some v -> In key (map fst obj).
Proof.
  induction obj as [|[k w] obj IH]; simpl; [discriminate|].
  destruct (String.eqb_spec k key); auto.
Qed.

Lemma known_source_slash_free (key : string) :
  readProperty umlsSources key <> Missing -> hasSlash key = false.
Proof.
  unfold readProperty. intros Hread.
  assert (Hin : In key (map fst umlsSources ++ ObjectPrototype)).
  { apply in_or_app.
    destruct (ownProperty umlsSources key) eqn:Hown.
    - left. eapply ownProperty_Some_In, Hown.
    - right. destruct (existsb (String.eqb key) ObjectPrototype) eqn:Hproto;
        [|congruence].
      apply existsb_exists in Hproto as (name & Hin & Heq).
      apply String.eqb_eq in Heq. now subst. }
  clear Hread. cbn in Hin.
  repeat (destruct Hin as [<-|Hin]; [reflexivity|]). destruct Hin.
Qed.

Lemma unmapped_outside_snomed (lines : list string) (rel : UmlsRelationship.t) :
  hasSlash (jsStr (UmlsRelationship.SAB rel)) = false ->
  UmlsRelationship.SAB rel <> Some "SNOMEDCT_US" ->
  prepareRelationshipProperties lines !! relationshipKey rel = None.
Proof.
  intros Hslash Hsab.
  destruct (prepareRelationshipProperties lines !! relationshipKey rel)
    as [property|] eqn:Hkey; [|reflexivity].
  exfalso. apply prepareRelationshipProperties_owner, keyOwners_In in Hkey.
  destruct Hkey as [_ Hkey]. unfold relationshipKey in Hkey.
  apply Hsab.
  assert (Heq : "SNOMEDCT_US" = jsStr (UmlsRelationship.SAB rel)).
  { eapply (slash_first_part "SNOMEDCT_US"); [reflexivity|exact Hslash|].
    exact Hkey. }
  destruct (UmlsRelationship.SAB rel) as [sab|]; [|discriminate].
  simpl in Heq. now subst.
Qed.

(** X4.  The documentation file only affects SNOMED CT rows: a relationship
    row whose [SAB] is not [SNOMEDCT_US] is handled as it would be with an
    empty relationship-property map, so its property name can only come
    from the parent or child property of its code system. *)
Theorem documentation_only_affects_snomed (lines : list string)
  (mappedCodes : gmap string UmlsConcept.t) (line : string)
  (st : Relationships.state) :
  UmlsRelationship.SAB (UmlsRelationship.constructor line)
  <> Some "SNOMEDCT_US" ->
  processRelationships_body (prepareRelationshipProperties lines) mappedCodes
    line st
  = processRelationships_body ∅ mappedCodes line st.
Proof.
  intros Hsab. unfold processRelationships_body. cbv zeta.
  destruct (readProperty umlsSources
              (jsStr (UmlsRelationship.SAB (UmlsRelationship.constructor line))))
    as [source| |] eqn:Hread; [| |reflexivity].
  all: assert (Hslash : hasSlash
                 (jsStr (UmlsRelationship.SAB (UmlsRelationship.constructor line)))
               = false) by (apply known_source_slash_free; congruence).
  all: unfold resolvePropertyName; cbv zeta.
  all: rewrite (unmapped_outside_snomed lines _ Hslash Hsab), lookup_empty.
  all: reflexivity.
Qed.

(** ** The atom index *)

Lemma lastAtom_snoc (aui : string) (lines : list string) (line : string) :
  lastAtom aui (lines ++ [line])
  = if accepted line
       && String.eqb (jsStr (UmlsConcept.AUI (UmlsConcept.constructor line))) aui
    then Some line else lastAtom aui lines.
Proof. unfold lastAtom. rewrite rev_unit. reflexivity. Qed.

Lemma acceptConcept_atom_keys (line key : string) (st : Concepts.state)
  (source : Source) :
  hasPipe key = false ->
  Concepts.mappedConcepts (acceptConcept source (UmlsConcept.constructor line) st)
    !! key
  = if String.eqb (jsStr (UmlsConcept.AUI (UmlsConcept.constructor line))) key
    then Some (UmlsConcept.constructor line)
    else Concepts.mappedConcepts st !! key.
Proof.
  intros Hkey.
  assert (Hne : winnerKey (UmlsConcept.constructor line) <> key).
  { intros Heq. rewrite <- Heq, winnerKey_has_pipe in Hkey. discriminate. }
  assert (Hatom :
    (<[jsStr (UmlsConcept.AUI (UmlsConcept.constructor line))
       := UmlsConcept.constructor line]> (Concepts.mappedConcepts st)) !! key
    = if String.eqb (jsStr (UmlsConcept.AUI (UmlsConcept.constructor line))) key
      then Some (UmlsConcept.constructor line)
      else Concepts.mappedConcepts st !! key).
  { destruct (String.eqb_spec
                (jsStr (UmlsConcept.AUI (UmlsConcept.constructor line))) key)
      as [Heq|Hneq].
    - rewrite Heq. apply lookup_insert_eq.
    - now apply lookup_insert_ne. }
  unfold acceptConcept, emitWinner. cbv zeta.
  destruct (_ !! winnerKey (UmlsConcept.constructor line)) as [existing|].
  - destruct (_ <=? _); cbn [Concepts.mappedConcepts]; [exact Hatom|].
    now rewrite lookup_insert_ne.
  - cbn [Concepts.mappedConcepts]. now rewrite lookup_insert_ne.
Qed.

Lemma accepted_Some (line : string) (source : Source) :
  passesFilters (UmlsConcept.constructor line) = Some source ->
  accepted line = true.
Proof. unfold accepted. now intros ->. Qed.

Lemma accepted_None (line : string) :
  passesFilters (UmlsConcept.constructor line) = None -> accepted line = false.
Proof. unfold accepted. now intros ->. Qed.

Lemma processConcepts_loop_atoms (lines : list string) (st : Concepts.state) :
  forAwait processConcepts_body lines Concepts.initial = Done st ->
  forall aui,
    hasPipe aui = false ->
    Concepts.mappedConcepts st !! aui
    = option_map UmlsConcept.constructor (lastAtom aui lines).
Proof.
  intros Hloop.
  apply (forAwait_prefix_invariant processConcepts_body
           (fun seen st =>
              forall aui, hasPipe aui = false ->
                Concepts.mappedConcepts st !! aui
                = option_map UmlsConcept.constructor (lastAtom aui seen)))
    with (seen := []) (lines := lines) (st := Concepts.initial) (st' := st);
    [| intros aui _; apply lookup_empty | exact Hloop].
  clear. intros seen line st st' IH Hbody aui Haui.
  rewrite lastAtom_snoc.
  destruct (passesFilters (UmlsConcept.constructor line)) as [source|] eqn:Hp.
  - rewrite (body_accepts line st source Hp) in Hbody. injection Hbody as <-.
    rewrite (accepted_Some _ _ Hp), (acceptConcept_atom_keys _ _ _ _ Haui).
    cbn [andb].
    destruct (String.eqb _ aui); [reflexivity|]. now apply IH.
  - rewrite (accepted_None _ Hp). cbn [andb].
    destruct (body_rejects line st Hp) as [Hthrow|(n & _ & Hdone)];
      [congruence|].
    rewrite Hdone in Hbody. injection Hbody as <-.
    cbn [Concepts.mappedConcepts]. now apply IH.
Qed.

(** X5.  The atom index returned by the concept pass: an atom identifier
    is bound exactly when some accepted row carries it, and then to the
    last such row of the file, whether or not that row won its code. *)
Theorem atom_index_holds_last_accepted_row (lines : list string)
  (st : Concepts.state) (aui : option string) :
  processConcepts lines = Done st ->
  hasPipe (jsStr aui) = false ->
  Concepts.mappedConcepts st !! jsStr aui
  = option_map UmlsConcept.constructor (lastAtom (jsStr aui) lines)
  /\ resolveCode (Concepts.mappedConcepts st) aui
     = match lastAtom (jsStr aui) lines with
       | Some line => UmlsConcept.CODE (UmlsConcept.constructor line)
       | None => None
       end.
Proof.
  unfold processConcepts. intros Hrun Haui.
  destruct (forAwait processConcepts_body lines Concepts.initial)
    as [loop|] eqn:Hloop; [|discriminate].
  cbn [bind] in Hrun. injection Hrun as <-. cbn [Concepts.mappedConcepts].
  pose proof (processConcepts_loop_atoms lines loop Hloop _ Haui) as Hatom.
  split; [exact Hatom|].
  unfold resolveCode. rewrite Hatom.
  now destruct (lastAtom (jsStr aui) lines).
Qed.

(** ** What the property passes post *)

Lemma keyed_In {A : Type} (batches : list (string * list A)) (sys : string)
  (x : A) :
  In (sys, x) (keyed batches)
  <-> exists batch, In (sys, batch) batches /\ In x batch.
Proof.
  unfold keyed. rewrite in_flat_map. split.
  - intros ([s batch] & Hin & Hx). cbn [fst snd] in Hx.
    apply in_map_iff in Hx as (y & [= <- <-] & Hy). now exists batch.
  - intros (batch & Hin & Hx). exists (sys, batch). split; [assumption|].
    cbn [fst snd]. apply in_map_iff. now exists x.
Qed.

Lemma oget_In_entry {V : Type} (d : odict V) (key : string) (v : V) :
  oget d key = Some v -> In (key, v) d.
Proof.
  induction d as [|[k w] d IH]; simpl; [discriminate|].
  destruct (String.eqb_spec k key) as [->|Hne].
  - intros [= ->]. now left.
  - intros H. right. now apply IH.
Qed.

Lemma oset_In_entry {V : Type} (d : odict V) (key : string) (v : V)
  (entry : string * V) :
  In entry (oset d key v) -> entry = (key, v) \/ In entry d.
Proof.
  induction d as [|[k w] d IH]; simpl.
  - intros [<-|[]]. now left.
  - destruct (String.eqb_spec k key) as [->|Hne]; simpl.
    + intros [<-|Hin]; auto.
    + intros [<-|Hin]; auto. destruct (IH Hin); auto.
Qed.

Lemma allItems_pushCoding {A : Type} (sys s : string) (x y : A) (e : Emitter A) :
  In (s, y) (allItems (pushCoding sys x e)) ->
  In (s, y) (allItems e) \/ (s, y) = (sys, x).
Proof.
  unfold allItems. rewrite !in_app_iff, !keyed_In.
  assert (Hfound :
            In y (match oget (pending e) sys with
                  | Some found => found ++ [x]
                  | None => [x]
                  end) ->
            s = sys ->
            (exists batch, In (s, batch) (pending e) /\ In y batch) \/ y = x).
  { intros Hy ->. destruct (oget (pending e) sys) as [found|] eqn:Hget.
    - apply in_app_iff in Hy as [Hy|[<-|[]]]; auto.
      left. exists found. split; [now apply oget_In_entry|assumption].
    - destruct Hy as [<-|[]]. now right. }
  unfold pushCoding. cbv zeta. destruct (500 <=? _);
    cbn [pending posted]; intros [(batch & Hin & Hy)|(batch & Hin & Hy)].
  - apply in_app_iff in Hin as [Hin|[[= <- <-]|[]]]; [left; left; eauto|].
    destruct (Hfound Hy eq_refl) as [H| ->]; auto.
  - apply oset_In_entry in Hin as [[= -> ->]|Hin]; [destruct Hy|].
    left; right; eauto.
  - left; left; eauto.
  - apply oset_In_entry in Hin as [[= -> ->]|Hin]; [|left; right; eauto].
    destruct (Hfound Hy eq_refl) as [H| ->]; auto.
Qed.

Lemma posted_flushAll_allItems {A : Type} (e : Emitter A) (sys : string)
  (batch : list A) (x : A) :
  In (sys, batch) (posted (flushAll e)) -> In x batch ->
  In (sys, x) (allItems e).
Proof.
  unfold flushAll, allItems. cbn [posted]. rewrite !in_app_iff, !keyed_In.
  intros [Hin|Hin] Hx; [left; eauto|].
  apply filter_In in Hin as [Hin _]. right; eauto.
Qed.

Lemma properties_body_cases (line : string) (st st' : Properties.state) :
  processProperties_body line st = Done st' ->
  (Properties.properties st' = Properties.properties st
   /\ Properties.processed st' = Properties.processed st
   /\ Properties.counts st' = Properties.counts st)
  \/ exists sys prop key,
       declaredBy line sys prop
       /\ Properties.properties st'
          = pushCoding sys prop (Properties.properties st)
       /\ Properties.processed st' = Properties.processed st + 1
       /\ Properties.counts st' = increment (Properties.counts st) key.
Proof.
  unfold processProperties_body. cbv zeta.
  destruct (readProperty umlsSources _) as [source| |] eqn:Hread.
  3: { intros [= <-]. now left. }
  2: { destruct (negb _); cbn [findAttributeProperty]; intros [= <-]; now left. }
  destruct (strictEq (UmlsAttribute.SUPPRESS _) _) eqn:Hsup; cbn [negb];
    [|intros [= <-]; now left].
  destruct (findAttributeProperty _ _) as [declared|] eqn:Hfind;
    [|intros [= <-]; now left].
  rewrite pushProperty_pushCoding. cbn [bind systemOf jsStr].
  intros [= <-]. right.
  cbn [Properties.properties Properties.processed Properties.counts].
  do 3 eexists. split; [|split; [reflexivity|split; reflexivity]].
  unfold declaredBy. cbv zeta. cbn [findAttributeProperty] in Hfind.
  destruct (CodeSystem.property (resource source)) as [props|] eqn:Hprops;
    [|discriminate].
  apply find_some in Hfind as [Hin Hmatch].
  exists source, declared, props. repeat split; assumption.
Qed.

Lemma relationships_body_cases
  (relationshipProperties : gmap string string)
  (mappedCodes : gmap string UmlsConcept.t)
  (line : string) (st st' : Relationships.state) :
  processRelationships_body relationshipProperties mappedCodes line st
  = Done st' ->
  (Relationships.properties st' = Relationships.properties st
   /\ Relationships.processed st' = Relationships.processed st
   /\ Relationships.counts st' = Relationships.counts st)
  \/ exists sys property key,
       assertedBy relationshipProperties mappedCodes line sys property
       /\ Relationships.properties st'
          = pushCoding sys property (Relationships.properties st)
       /\ Relationships.processed st' = Relationships.processed st + 1
       /\ Relationships.counts st' = increment (Relationships.counts st) key.
Proof.
  unfold processRelationships_body. cbv zeta.
  set (source := readProperty umlsSources _).
  assert (Hrest :
    (if negb (strictEq (UmlsRelationship.SUPPRESS (UmlsRelationship.constructor line))
                (Some "N"))
     then Done (Relationships.mk (Relationships.processed st)
                  (Relationships.skipped st + 1) (Relationships.counts st)
                  (Relationships.properties st) (Relationships.warnings st))
     else
       bind (resolvePropertyName relationshipProperties source
               (UmlsRelationship.constructor line))
         (fun propertyName =>
            if negb (truthy propertyName) then Done st
            else
              if negb (truthy (resolveCode mappedCodes
                                 (UmlsRelationship.AUI1
                                    (UmlsRelationship.constructor line))))
                 || negb (truthy (resolveCode mappedCodes
                                    (UmlsRelationship.AUI2
                                       (UmlsRelationship.constructor line))))
              then
                Done (Relationships.mk (Relationships.processed st)
                        (Relationships.skipped st + 1)
                        (Relationships.counts st)
                        (Relationships.properties st)
                        (Relationships.warnings st ++
                         [Relationships.mkWarning (jsStr propertyName)
                            (jsStr (UmlsRelationship.REL
                                      (UmlsRelationship.constructor line))
                             +:+ "/"
                             +:+ jsStr (UmlsRelationship.RELA
                                          (UmlsRelationship.constructor line)))
                            (if truthy (resolveCode mappedCodes
                                          (UmlsRelationship.AUI1
                                             (UmlsRelationship.constructor line)))
                             then UmlsRelationship.AUI2
                                    (UmlsRelationship.constructor line)
                             else UmlsRelationship.AUI1
                                    (UmlsRelationship.constructor line))]))
              else
                bind (pushProperty (jsStr (systemOf source))
                        (Property.mk
                           (resolveCode mappedCodes
                              (UmlsRelationship.AUI1
                                 (UmlsRelationship.constructor line)))
                           propertyName
                           (resolveCode mappedCodes
                              (UmlsRelationship.AUI2
                                 (UmlsRelationship.constructor line))))
                        (Relationships.properties st))
                  (fun e =>
                     Done (Relationships.mk (Relationships.processed st + 1)
                             (Relationships.skipped st)
                             (increment (Relationships.counts st)
                                (jsStr (systemOf source) +:+ "|"
                                 +:+ jsStr propertyName +:+ " ("
                                 +:+ (jsStr (UmlsRelationship.REL
                                               (UmlsRelationship.constructor line))
                                      +:+ "/"
                                      +:+ jsStr (UmlsRelationship.RELA
                                                   (UmlsRelationship.constructor line)))
                                 +:+ ")"))
                             e (Relationships.warnings st))))) = Done st' ->
    (Relationships.properties st' = Relationships.properties st
     /\ Relationships.processed st' = Relationships.processed st
     /\ Relationships.counts st' = Relationships.counts st)
    \/ exists property key,
         (strictEq (UmlsRelationship.SUPPRESS (UmlsRelationship.constructor line))
            (Some "N") = true
          /\ resolvePropertyName relationshipProperties source
               (UmlsRelationship.constructor line)
             = Done (Property.property property)
          /\ Property.code property
             = resolveCode mappedCodes
                 (UmlsRelationship.AUI1 (UmlsRelationship.constructor line))
          /\ Property.value property
             = resolveCode mappedCodes
                 (UmlsRelationship.AUI2 (UmlsRelationship.constructor line))
          /\ truthy (Property.code property) = true
          /\ truthy (Property.value property) = true
          /\ truthy (Property.property property) = true)
         /\ Relationships.properties st'
            = pushCoding (jsStr (systemOf source)) property
                (Relationships.properties st)
         /\ Relationships.processed st' = Relationships.processed st + 1
         /\ Relationships.counts st' = increment (Relationships.counts st) key).
  { destruct (strictEq (UmlsRelationship.SUPPRESS _) _) eqn:Hsup; cbn [negb];
      [|intros [= <-]; now left].
    destruct (resolvePropertyName _ _ _) as [propertyName|] eqn:Hresolve;
      [|discriminate].
    cbn [bind].
    destruct (truthy propertyName) eqn:Hname; cbn [negb];
      [|intros [= <-]; now left].
    destruct (truthy (resolveCode mappedCodes (UmlsRelationship.AUI1 _)))
      eqn:Hcode; cbn [negb orb]; [|intros [= <-]; now left].
    destruct (truthy (resolveCode mappedCodes (UmlsRelationship.AUI2 _)))
      eqn:Hvalue; cbn [negb orb]; [|intros [= <-]; now left].
    rewrite pushProperty_pushCoding. cbn [bind]. intros [= <-]. right.
    cbn [Relationships.properties Relationships.processed Relationships.counts].
    do 2 eexists. split; [|split; [reflexivity|split; reflexivity]].
    cbn [Property.code Property.value Property.property].
    repeat split; assumption. }
  assert (Hpush :
    source <> Missing ->
    (Relationships.properties st' = Relationships.properties st
     /\ Relationships.processed st' = Relationships.processed st
     /\ Relationships.counts st' = Relationships.counts st)
    \/ (exists property key,
          (strictEq (UmlsRelationship.SUPPRESS (UmlsRelationship.constructor line))
             (Some "N") = true
           /\ resolvePropertyName relationshipProperties source
                (UmlsRelationship.constructor line)
              = Done (Property.property property)
           /\ Property.code property
              = resolveCode mappedCodes
                  (UmlsRelationship.AUI1 (UmlsRelationship.constructor line))
           /\ Property.value property
              = resolveCode mappedCodes
                  (UmlsRelationship.AUI2 (UmlsRelationship.constructor line))
           /\ truthy (Property.code property) = true
           /\ truthy (Property.value property) = true
           /\ truthy (Property.property property) = true)
          /\ Relationships.properties st'
             = pushCoding (jsStr (systemOf source)) property
                 (Relationships.properties st)
          /\ Relationships.processed st' = Relationships.processed st + 1
          /\ Relationships.counts st' = increment (Relationships.counts st) key) ->
    (Relationships.properties st' = Relationships.properties st
     /\ Relationships.processed st' = Relationships.processed st
     /\ Relationships.counts st' = Relationships.counts st)
    \/ exists sys property key,
         assertedBy relationshipProperties mappedCodes line sys property
         /\ Relationships.properties st'
            = pushCoding sys property (Relationships.properties st)
         /\ Relationships.processed st' = Relationships.processed st + 1
         /\ Relationships.counts st' = increment (Relationships.counts st) key).
  { intros Hknown [Hsame|(property & key & Hasserted & Hrest')]; [now left|].
    right. exists (jsStr (systemOf source)), property, key.
    split; [|exact Hrest']. unfold assertedBy. cbv zeta. fold source.
    split; [exact Hknown|]. split; [reflexivity|exact Hasserted]. }
  destruct source.
  - intros Hbody. apply Hpush; [discriminate|now apply Hrest].
  - intros Hbody. apply Hpush; [discriminate|now apply Hrest].
  - intros [= <-]. now left.
Qed.

Lemma properties_loop_declared (lines : list string) (st : Properties.state) :
  forAwait processProperties_body lines Properties.initial = Done st ->
  forall sys prop,
    In (sys, prop) (allItems (Properties.properties st)) ->
    exists line, In line lines /\ declaredBy line sys prop.
Proof.
  intros Hloop.
  apply (forAwait_prefix_invariant processProperties_body
           (fun seen st =>
              forall sys prop,
                In (sys, prop) (allItems (Properties.properties st)) ->
                exists line, In line seen /\ declaredBy line sys prop))
    with (seen := []) (lines := lines) (st := Properties.initial) (st' := st);
    [| intros sys prop [] | exact Hloop].
  clear. intros seen line st st' IH Hbody sys prop Hin.
  assert (Hold : In (sys, prop) (allItems (Properties.properties st)) ->
                 exists l, In l (seen ++ [line]) /\ declaredBy l sys prop).
  { intros H. destruct (IH _ _ H) as (l & Hl & Hd). exists l.
    split; [apply in_app_iff; now left|assumption]. }
  destruct (properties_body_cases _ _ _ Hbody)
    as [(Hsame & _)|(s & p & key & Hd & Hpush & _)].
  - rewrite Hsame in Hin. auto.
  - rewrite Hpush in Hin.
    apply allItems_pushCoding in Hin as [Hin|[= -> ->]]; [auto|].
    exists line. split; [apply in_app_iff; right; now left|assumption].
Qed.

Lemma relationships_loop_asserted
  (relationshipProperties : gmap string string)
  (mappedCodes : gmap string UmlsConcept.t)
  (lines : list string) (st : Relationships.state) :
  forAwait (processRelationships_body relationshipProperties mappedCodes)
    lines Relationships.initial = Done st ->
  forall sys property,
    In (sys, property) (allItems (Relationships.properties st)) ->
    exists line,
      In line lines
      /\ assertedBy relationshipProperties mappedCodes line sys property.
Proof.
  intros Hloop.
  apply (forAwait_prefix_invariant
           (processRelationships_body relationshipProperties mappedCodes)
           (fun seen st =>
              forall sys property,
                In (sys, property) (allItems (Relationships.properties st)) ->
                exists line,
                  In line seen
                  /\ assertedBy relationshipProperties mappedCodes line sys
                       property))
    with (seen := []) (lines := lines) (st := Relationships.initial) (st' := st);
    [| intros sys prop [] | exact Hloop].
  clear. intros seen line st st' IH Hbody sys prop Hin.
  assert (Hold : In (sys, prop) (allItems (Relationships.properties st)) ->
                 exists l, In l (seen ++ [line])
                           /\ assertedBy relationshipProperties mappedCodes l
                                sys prop).
  { intros H. destruct (IH _ _ H) as (l & Hl & Hd). exists l.
    split; [apply in_app_iff; now left|assumption]. }
  destruct (relationships_body_cases _ _ _ _ _ Hbody)
    as [(Hsame & _)|(s & p & key & Hd & Hpush & _)].
  - rewrite Hsame in Hin. auto.
  - rewrite Hpush in Hin.
    apply allItems_pushCoding in Hin as [Hin|[= -> ->]]; [auto|].
    exists line. split; [apply in_app_iff; right; now left|assumption].
Qed.

(** X6.  End to end: every relationship assertion the run posts comes from
    a row of the relationship file that is not suppressed, and its code and
    value are the non-empty [CODE]s of the last accepted rows of the concept
    file that carry the atom identifiers [AUI1] and [AUI2] of that row. *)
Theorem main_relationship_endpoints (mrconso mrsat mrdoc mrrel : list string)
  (run : Run) (sys : string) (batch : list Property.t) (property : Property.t) :
  main mrconso mrsat mrdoc mrrel = Done run ->
  In (sys, batch) (posted (Relationships.properties (relationships run))) ->
  In property batch ->
  exists line atom1 atom2,
    In line mrrel
    /\ strictEq (UmlsRelationship.SUPPRESS (UmlsRelationship.constructor line))
         (Some "N") = true
    /\ lastAtom (jsStr (UmlsRelationship.AUI1 (UmlsRelationship.constructor line)))
         mrconso = Some atom1
    /\ lastAtom (jsStr (UmlsRelationship.AUI2 (UmlsRelationship.constructor line)))
         mrconso = Some atom2
    /\ Property.code property = UmlsConcept.CODE (UmlsConcept.constructor atom1)
    /\ Property.value property = UmlsConcept.CODE (UmlsConcept.constructor atom2)
    /\ truthy (Property.code property) = true
    /\ truthy (Property.value property) = true.
Proof.
  unfold main. cbv zeta. intros Hrun Hbatch Hprop.
  destruct (processConcepts mrconso) as [c|] eqn:Hc; [|discriminate].
  cbn [bind] in Hrun.
  destruct (processProperties mrsat) as [a|]; [|discriminate].
  cbn [bind] in Hrun.
  destruct (processRelationships _ _ mrrel) as [r|] eqn:Hr; [|discriminate].
  cbn [bind] in Hrun. injection Hrun as <-. cbn [relationships] in Hbatch.
  unfold processRelationships in Hr.
  destruct (forAwait _ mrrel Relationships.initial) as [loop|] eqn:Hloop;
    [|discriminate].
  cbn [bind] in Hr. injection Hr as <-. cbn [Relationships.properties] in Hbatch.
  pose proof (posted_flushAll_allItems _ _ _ _ Hbatch Hprop) as Hin.
  destruct (relationships_loop_asserted _ _ _ _ Hloop _ _ Hin)
    as (line & Hline & _ & _ & Hsup & _ & Hcode & Hvalue & Htc & Htv & _).
  unfold processConcepts in Hc.
  destruct (forAwait processConcepts_body mrconso Concepts.initial)
    as [cloop|] eqn:Hcloop; [|discriminate].
  cbn [bind] in Hc. injection Hc as <-. cbn [Concepts.mappedConcepts] in *.
  pose proof (processConcepts_loop_atoms mrconso cloop Hcloop) as Hatoms.
  unfold resolveCode in Hcode, Hvalue.
  rewrite Hatoms in Hcode by apply jsStr_column_pipe_free.
  rewrite Hatoms in Hvalue by apply jsStr_column_pipe_free.
  destruct (lastAtom (jsStr (UmlsRelationship.AUI1 _)) mrconso) as [atom1|]
    eqn:Hatom1; [|rewrite Hcode in Htc; discriminate].
  destruct (lastAtom (jsStr (UmlsRelationship.AUI2 _)) mrconso) as [atom2|]
    eqn:Hatom2; [|rewrite Hvalue in Htv; discriminate].
  exists line, atom1, atom2. cbn [option_map] in Hcode, Hvalue.
  repeat split; assumption.
Qed.

Lemma truthy_Some (v : option string) :
  truthy v = true -> exists name, v = Some name /\ name <> "".
Proof.
  destruct v as [name|]; [|discriminate]. cbn [truthy].
  intros Hname. exists name. split; [reflexivity|].
  intros ->. discriminate.
Qed.

(** X14.  End to end: every relationship assertion the run posts goes to
    the system of the registered source of its row, and its property name
    is not empty and is either the name the documentation file maps the
    row's [SAB/REL/RELA] key to, or, for a [PAR] or [CHD] row without such
    a mapping, the code of the parent or child property declared by the
    code system of that source. *)
Theorem main_relationship_destination (mrconso mrsat mrdoc mrrel : list string)
  (run : Run) (sys : string) (batch : list Property.t) (property : Property.t) :
  main mrconso mrsat mrdoc mrrel = Done run ->
  In (sys, batch) (posted (Relationships.properties (relationships run))) ->
  In property batch ->
  exists line source name,
    In line mrrel
    /\ readProperty umlsSources
         (jsStr (UmlsRelationship.SAB (UmlsRelationship.constructor line)))
       = Own source
    /\ sys = system source
    /\ Property.property property = Some name
    /\ name <> ""
    /\ (prepareRelationshipProperties mrdoc
          !! relationshipKey (UmlsRelationship.constructor line) = Some name
        \/ (truthy (prepareRelationshipProperties mrdoc
                      !! relationshipKey (UmlsRelationship.constructor line))
            = false
            /\ ((UmlsRelationship.REL (UmlsRelationship.constructor line)
                 = Some "PAR"
                 /\ configuredProperty PARENT_PROPERTY (Own source)
                    = Done (Some name))
                \/ (UmlsRelationship.REL (UmlsRelationship.constructor line)
                    = Some "CHD"
                    /\ configuredProperty CHILD_PROPERTY (Own source)
                       = Done (Some name))))).
Proof.
  unfold main. cbv zeta. intros Hrun Hbatch Hprop.
  destruct (processConcepts mrconso) as [c|]; [|discriminate].
  cbn [bind] in Hrun.
  destruct (processProperties mrsat) as [a|]; [|discriminate].
  cbn [bind] in Hrun.
  destruct (processRelationships _ _ mrrel) as [r|] eqn:Hr; [|discriminate].
  cbn [bind] in Hrun. injection Hrun as <-. cbn [relationships] in Hbatch.
  unfold processRelationships in Hr.
  destruct (forAwait _ mrrel Relationships.initial) as [loop|] eqn:Hloop;
    [|discriminate].
  cbn [bind] in Hr. injection Hr as <-. cbn [Relationships.properties] in Hbatch.
  pose proof (posted_flushAll_allItems _ _ _ _ Hbatch Hprop) as Hin.
  destruct (relationships_loop_asserted _ _ _ _ Hloop _ _ Hin)
    as (line & Hline & Hknown & Hsys & _ & Hresolve & _ & _ & _ & _ & Hname).
  cbv zeta in Hknown, Hsys, Hresolve.
  destruct (truthy_Some _ Hname) as (name & Hsome & Hnonempty).
  rewrite Hsome in Hresolve.
  unfold resolvePropertyName in Hresolve. cbv zeta in Hresolve.
  destruct (readProperty umlsSources
              (jsStr (UmlsRelationship.SAB (UmlsRelationship.constructor line))))
    as [source| |] eqn:Hread; [| |congruence].
  - exists line, source, name. cbn [systemOf jsStr] in Hsys.
    repeat (split; [assumption||reflexivity|]).
    destruct (truthy (prepareRelationshipProperties mrdoc !! _)) eqn:Hmapped.
    + left. now injection Hresolve.
    + right. split; [reflexivity|].
      destruct (strictEq (UmlsRelationship.REL _) (Some "PAR")) eqn:Hpar.
      * left. apply strictEq_Some in Hpar. now split.
      * destruct (strictEq (UmlsRelationship.REL _) (Some "CHD")) eqn:Hchd;
          [|discriminate].
        right. apply strictEq_Some in Hchd. now split.
  - exfalso.
    assert (Hslash : hasSlash
              (jsStr (UmlsRelationship.SAB (UmlsRelationship.constructor line)))
            = false) by (apply known_source_slash_free; congruence).
    assert (Hsab : UmlsRelationship.SAB (UmlsRelationship.constructor line)
                   <> Some "SNOMEDCT_US").
    { intros Heq. rewrite Heq in Hread. cbn in Hread. discriminate. }
    rewrite (unmapped_outside_snomed mrdoc _ Hslash Hsab) in Hresolve.
    cbn [truthy] in Hresolve.
    destruct (strictEq (UmlsRelationship.REL _) (Some "PAR")); [discriminate|].
    destruct (strictEq (UmlsRelationship.REL _) (Some "CHD")); discriminate.
Qed.

(** X7.  The attribute pass posts only declared properties: every property
    it posts comes from a row of the attribute file that is not suppressed
    and whose source is registered, goes to the system of that source, and
    names a property declared by the code system of that source whose code
    is the row's [ATN] or the alias of it; its code and value are the row's
    [CODE] and [ATV]. *)
Theorem attribute_pass_posts_declared_properties (lines : list string)
  (st : Properties.state) (sys : string) (batch : list Property.t)
  (prop : Property.t) :
  processProperties lines = Done st ->
  In (sys, batch) (posted (Properties.properties st)) ->
  In prop batch ->
  exists line, In line lines /\ declaredBy line sys prop.
Proof.
  unfold processProperties. intros Hrun Hbatch Hprop.
  destruct (forAwait processProperties_body lines Properties.initial)
    as [loop|] eqn:Hloop; [|discriminate].
  cbn [bind] in Hrun. injection Hrun as <-.
  cbn [Properties.properties] in Hbatch.
  eapply properties_loop_declared; [exact Hloop|].
  eapply posted_flushAll_allItems; eassumption.
Qed.

Lemma sumCounts_oset (counts : odict Z) (key : string) (n : Z) :
  sumCounts (oset counts key n)
  = sumCounts counts
    - match oget counts key with Some m => m | None => 0 end + n.
Proof.
  induction counts as [|[k m] counts IH]; simpl; [lia|].
  destruct (String.eqb k key); simpl; [lia|]. rewrite IH. lia.
Qed.

Lemma sumCounts_increment (counts : odict Z) (key : string) :
  sumCounts (increment counts key) = sumCounts counts + 1.
Proof. unfold increment. rewrite sumCounts_oset. lia. Qed.

(** X8.  In the attribute pass and in the relationship pass the counts of
    the summary add up to the number of processed rows. *)
Theorem property_counts_sum_to_processed :
  (forall lines st,
     processProperties lines = Done st ->
     sumCounts (Properties.counts st) = Properties.processed st)
  /\ (forall relationshipProperties mappedCodes lines st,
        processRelationships relationshipProperties mappedCodes lines = Done st ->
        sumCounts (Relationships.counts st) = Relationships.processed st).
Proof.
  split.
  - intros lines st. unfold processProperties.
    destruct (forAwait processProperties_body lines Properties.initial)
      as [loop|] eqn:Hloop; [|discriminate].
    cbn [bind]. intros [= <-].
    cbn [Properties.counts Properties.processed].
    apply (forAwait_invariant processProperties_body
             (fun st => sumCounts (Properties.counts st) = Properties.processed st))
      with (lines := lines) (st := Properties.initial); [|reflexivity|exact Hloop].
    intros line s s' Hs Hbody.
    destruct (properties_body_cases _ _ _ Hbody)
      as [(_ & -> & ->)|(sys & p & key & _ & _ & -> & ->)]; [exact Hs|].
    rewrite sumCounts_increment. lia.
  - intros relationshipProperties mappedCodes lines st.
    unfold processRelationships.
    destruct (forAwait _ lines Relationships.initial) as [loop|] eqn:Hloop;
      [|discriminate].
    cbn [bind]. intros [= <-].
    cbn [Relationships.counts Relationships.processed].
    apply (forAwait_invariant
             (processRelationships_body relationshipProperties mappedCodes)
             (fun st =>
                sumCounts (Relationships.counts st) = Relationships.processed st))
      with (lines := lines) (st := Relationships.initial);
      [|reflexivity|exact Hloop].
    intros line s s' Hs Hbody.
    destruct (relationships_body_cases _ _ _ _ _ Hbody)
      as [(_ & -> & ->)|(sys & p & key & _ & _ & -> & ->)]; [exact Hs|].
    rewrite sumCounts_increment. lia.
Qed.

(** ** The counts of the concept pass *)

Lemma distinctCodes_snoc (sys : string) (seen : list string) (line : string) :
  distinctCodes sys (seen ++ [line])
  = if accepted line && String.eqb (systemOfLine line) sys
    then distinctCodes sys seen ∪ {[winnerKey (UmlsConcept.constructor line)]}
    else distinctCodes sys seen.
Proof.
  unfold distinctCodes. rewrite List.filter_app, List.map_app, list_to_set_app_L.
  cbn [List.filter].
  destruct (accepted line && String.eqb (systemOfLine line) sys); cbn [map].
  - rewrite list_to_set_cons, list_to_set_nil. now rewrite union_empty_r_L.
  - rewrite list_to_set_nil. now rewrite union_empty_r_L.
Qed.

Lemma distinctCodes_elem (sys key : string) (seen : list string) :
  key ∈ distinctCodes sys seen
  <-> exists line,
        In line seen /\ accepted line = true /\ systemOfLine line = sys
        /\ winnerKey (UmlsConcept.constructor line) = key.
Proof.
  unfold distinctCodes. rewrite elem_of_list_to_set, list_elem_of_In.
  rewrite in_map_iff. split.
  - intros (line & Hkey & Hin). apply filter_In in Hin as [Hin Hline].
    apply andb_true_iff in Hline as [Hacc Hsys]. apply String.eqb_eq in Hsys.
    now exists line.
  - intros (line & Hin & Hacc & Hsys & Hkey). exists line.
    split; [assumption|]. apply filter_In. split; [assumption|].
    rewrite Hacc, Hsys. apply String.eqb_refl.
Qed.

Lemma processConcepts_loop_counts (lines : list string) (st : Concepts.state) :
  forAwait processConcepts_body lines Concepts.initial = Done st ->
  forall sys,
    oget (Concepts.counts st) sys
    = if Nat.eqb (size (distinctCodes sys lines)) 0 then None
      else Some (Z.of_nat (size (distinctCodes sys lines))).
Proof.
  intros Hloop.
  apply (forAwait_prefix_invariant processConcepts_body
           (fun seen st =>
              (forall key,
                 isNew (Concepts.mappedConcepts st) key
                 = negb (existsb (fun l => touches l key) seen))
              /\ forall sys,
                   oget (Concepts.counts st) sys
                   = if Nat.eqb (size (distinctCodes sys seen)) 0 then None
                     else Some (Z.of_nat (size (distinctCodes sys seen)))))
    with (seen := []) (lines := lines) (st := Concepts.initial) (st' := st);
    [| split; [intros key; unfold isNew, Concepts.initial;
               cbn [Concepts.mappedConcepts]; now rewrite lookup_empty
              | intros sys; unfold distinctCodes; cbn [List.filter map];
                now rewrite list_to_set_nil, size_empty]
     | exact Hloop].
  clear. intros seen line st st' [IHnew IHcount] Hbody.
  destruct (body_tally _ _ _ Hbody) as [Hnew Hcount].
  split.
  - intros key. rewrite Hnew, IHnew, existsb_snoc. now rewrite negb_orb.
  - intros sys. rewrite Hcount, distinctCodes_snoc, IHnew.
    destruct (accepted line) eqn:Hacc; cbn [andb]; [|apply IHcount].
    unfold bumpAt.
    destruct (String.eqb_spec (systemOfLine line) sys) as [Hsys|Hsys];
      [|destruct (negb _); apply IHcount].
    destruct (existsb _ seen) eqn:Hseen; cbn [negb].
    + rewrite IHcount.
      replace (distinctCodes sys seen
               ∪ {[winnerKey (UmlsConcept.constructor line)]})
        with (distinctCodes sys seen); [reflexivity|].
      assert (winnerKey (UmlsConcept.constructor line) ∈ distinctCodes sys seen);
        [|symmetry; rewrite union_comm_L;
          now apply subseteq_union_1_L, singleton_subseteq_l].
      apply existsb_exists in Hseen as (l & Hin & Htouch).
      unfold touches in Htouch. apply andb_true_iff in Htouch as [Hl Hkey].
      rewrite winnerKey_not_AUI in Hkey. cbn [orb] in Hkey.
      apply String.eqb_eq in Hkey.
      apply distinctCodes_elem. exists l. repeat split; auto.
      rewrite <- Hsys. now apply same_key_same_system.
    + assert (Hfresh : winnerKey (UmlsConcept.constructor line)
                       ∉ distinctCodes sys seen).
      { intros Helem. apply distinctCodes_elem in Helem
          as (l & Hin & Hl & _ & Hkey).
        assert (existsb (fun l => touches l
                                    (winnerKey (UmlsConcept.constructor line)))
                  seen = true); [|congruence].
        apply existsb_exists. exists l. split; [assumption|].
        unfold touches. rewrite Hl, Hkey, String.eqb_refl.
        now rewrite orb_true_r. }
      rewrite size_union by now apply disjoint_singleton_r.
      rewrite size_singleton, IHcount.
      destruct (size (distinctCodes sys seen)) as [|n] eqn:Hsize;
        rewrite Nat.add_1_r; cbn [Nat.eqb]; f_equal; lia.
Qed.

(** X9.  The count the concept pass reports for a system is the number of
    distinct (source, code) keys among the accepted rows of that system,
    however many rows each key has and however often its winner changes;
    a system with no accepted row has no entry. *)
Theorem concept_count_is_distinct_codes (lines : list string)
  (st : Concepts.state) (sys : string) :
  processConcepts lines = Done st ->
  oget (Concepts.counts st) sys
  = if Nat.eqb (size (distinctCodes sys lines)) 0 then None
    else Some (Z.of_nat (size (distinctCodes sys lines))).
Proof.
  unfold processConcepts. intros Hrun.
  destruct (forAwait processConcepts_body lines Concepts.initial)
    as [loop|] eqn:Hloop; [|discriminate].
  cbn [bind] in Hrun. injection Hrun as <-. cbn [Concepts.counts].
  now apply processConcepts_loop_counts.
Qed.

(** ** The codings sent for a code *)

Lemma ownProperty_In_entry {V : Type} (obj : list (string * V)) (key : string)
  (v : V) :
  ownProperty obj key = Some v -> In (key, v) obj.
Proof.
  induction obj as [|[k w] obj IH]; simpl; [discriminate|].
  destruct (String.eqb_spec k key) as [->|Hne].
  - intros [= ->]. now left.
  - intros H. right. now apply IH.
Qed.

Lemma umlsSources_system_injective (a b : string) (s s' : Source) :
  readProperty umlsSources a = Own s ->
  readProperty umlsSources b = Own s' ->
  system s = system s' -> a = b.
Proof.
  unfold readProperty.
  destruct (ownProperty umlsSources a) as [x|] eqn:Ha;
    [|destruct (existsb _ _); discriminate].
  destruct (ownProperty umlsSources b) as [y|] eqn:Hb;
    [|destruct (existsb _ _); discriminate].
  intros [= ->] [= ->].
  apply ownProperty_In_entry in Ha, Hb. unfold umlsSources in Ha, Hb.
  cbn [In] in Ha, Hb.
  repeat (destruct Ha as [Ha|Ha]; [injection Ha as <- <-|]); [..|destruct Ha].
  all: repeat (destruct Hb as [Hb|Hb]; [injection Hb as <- <-|]);
    [..|destruct Hb].
  all: cbn [system]; intros Hsys; first [reflexivity|discriminate Hsys].
Qed.

Lemma strictEq_eq (a b : option string) : strictEq a b = true -> a = b.
Proof.
  destruct a as [x|], b as [y|]; simpl; try discriminate; [|reflexivity].
  now intros ->%String.eqb_eq.
Qed.

Lemma strictEq_refl (a : option string) : strictEq a a = true.
Proof. destruct a; simpl; [apply String.eqb_refl|reflexivity]. Qed.

Lemma lastCoding_snoc (code : option string) (log : list Coding.t)
  (coding : Coding.t) :
  lastCoding code (log ++ [coding])
  = if strictEq (Coding.code coding) code then Some coding
    else lastCoding code log.
Proof. unfold lastCoding. rewrite rev_unit. reflexivity. Qed.

Lemma sent_flushAll {A : Type} (sys : string) (e : Emitter A) :
  List.NoDup (map fst (pending e)) ->
  concat (postedFor sys (posted (flushAll e))) = appended sys e.
Proof.
  intros Hnodup. rewrite (postedFor_flushAll sys e Hnodup), concat_app.
  unfold appended, openFor. f_equal.
  destruct (oget (pending e) sys) as [[|x found]|]; try reflexivity.
  replace (0 <? Z.of_nat (length (x :: found))) with true
    by (symmetry; apply Z.ltb_lt; cbn [length]; lia).
  cbn [concat]. apply app_nil_r.
Qed.

Lemma emitWinner_sent (source : Source) (line : string) (counts : odict Z)
  (st : Concepts.state) :
  passesFilters (UmlsConcept.constructor line) = Some source ->
  indexed (Concepts.mappedConcepts st) ->
  winnersSent st ->
  winnersSent
    (emitWinner source (UmlsConcept.constructor line) counts
       (<[jsStr (UmlsConcept.AUI (UmlsConcept.constructor line))
          := UmlsConcept.constructor line]> (Concepts.mappedConcepts st))
       st).
Proof.
  intros Hp Hidx Hsent key winner src Hpipe Hlook Hsrc.
  unfold emitWinner in *. cbn [Concepts.mappedConcepts Concepts.codings] in *.
  rewrite appended_pushCoding.
  destruct (String.eqb_spec (winnerKey (UmlsConcept.constructor line)) key)
    as [Hkey|Hkey].
  - rewrite Hkey, lookup_insert_eq in Hlook. injection Hlook as <-.
    assert (src = source) as -> by congruence.
    rewrite String.eqb_refl, lastCoding_snoc. cbn [Coding.code].
    now rewrite strictEq_refl.
  - rewrite lookup_insert_ne in Hlook by assumption.
    rewrite lookup_insert_ne in Hlook.
    2: { intros Heq. rewrite <- Heq, AUI_pipe_free in Hpipe. discriminate. }
    pose proof (Hsent key winner src Hpipe Hlook Hsrc) as IH.
    destruct (String.eqb_spec (system source) (system src)) as [Hsys|Hsys];
      [|now rewrite app_nil_r].
    rewrite lastCoding_snoc. cbn [Coding.code].
    destruct (strictEq (UmlsConcept.CODE (UmlsConcept.constructor line))
                (UmlsConcept.CODE winner)) eqn:Hcode; [exfalso|exact IH].
    apply strictEq_eq in Hcode. apply Hkey.
    specialize (Hidx key winner Hlook). rewrite Hpipe in Hidx.
    rewrite <- Hidx. unfold winnerKey. rewrite Hcode. f_equal.
    apply passesFilters_Own in Hp as [Hp _].
    apply passesFilters_Own in Hsrc as [Hsrc _].
    exact (umlsSources_system_injective _ _ _ _ Hp Hsrc Hsys).
Qed.

Lemma acceptConcept_sent (source : Source) (line : string)
  (st : Concepts.state) :
  passesFilters (UmlsConcept.constructor line) = Some source ->
  indexed (Concepts.mappedConcepts st) ->
  List.NoDup (map fst (pending (Concepts.codings st))) ->
  winnersSent st ->
  List.NoDup
    (map fst (pending (Concepts.codings
                         (acceptConcept source (UmlsConcept.constructor line) st))))
  /\ winnersSent (acceptConcept source (UmlsConcept.constructor line) st).
Proof.
  intros Hp Hidx Hnodup Hsent. unfold acceptConcept. cbv zeta.
  destruct (_ !! winnerKey (UmlsConcept.constructor line)) as [existing|].
  - destruct (_ <=? _).
    + split; [exact Hnodup|].
      intros key winner src Hpipe Hlook Hsrc.
      cbn [Concepts.mappedConcepts Concepts.codings] in *.
      rewrite lookup_insert_ne in Hlook;
        [exact (Hsent key winner src Hpipe Hlook Hsrc)|].
      intros Heq. rewrite <- Heq, AUI_pipe_free in Hpipe. discriminate.
    + split; [now apply pushCoding_NoDup|now apply emitWinner_sent].
  - split; [now apply pushCoding_NoDup|now apply emitWinner_sent].
Qed.

Lemma processConcepts_loop_sent (lines : list string) (st : Concepts.state) :
  forAwait processConcepts_body lines Concepts.initial = Done st ->
  List.NoDup (map fst (pending (Concepts.codings st))) /\ winnersSent st.
Proof.
  intros Hloop.
  assert (H : indexed (Concepts.mappedConcepts st)
              /\ List.NoDup (map fst (pending (Concepts.codings st)))
              /\ winnersSent st); [|tauto].
  apply (forAwait_invariant processConcepts_body
           (fun st =>
              indexed (Concepts.mappedConcepts st)
              /\ List.NoDup (map fst (pending (Concepts.codings st)))
              /\ winnersSent st))
    with (lines := lines) (st := Concepts.initial); [| |exact Hloop].
  - clear. intros line st st' (Hidx & Hnodup & Hsent) Hbody.
    split; [exact (body_indexed _ _ _ Hidx Hbody)|].
    destruct (passesFilters (UmlsConcept.constructor line)) as [source|] eqn:Hp.
    + rewrite (body_accepts line st source Hp) in Hbody. injection Hbody as <-.
      now apply acceptConcept_sent.
    + destruct (body_rejects line st Hp) as [Hthrow|(n & _ & Hdone)];
        [congruence|].
      rewrite Hdone in Hbody. injection Hbody as <-. now split.
  - split; [|split].
    + intros key concept Hlook. unfold Concepts.initial in Hlook.
      cbn [Concepts.mappedConcepts] in Hlook.
      rewrite lookup_empty in Hlook. discriminate.
    + constructor.
    + intros key winner src _ Hlook. unfold Concepts.initial in Hlook.
      cbn [Concepts.mappedConcepts] in Hlook.
      rewrite lookup_empty in Hlook. discriminate.
Qed.

(** X10.  Repair by the last write: for every accepted row, among the
    codings the concept pass has sent to the system of the row's source when
    it completes, the last one that carries the row's code is the coding of
    the final winner of the row's key, so a destination that keeps the last
    coding per code ends with the display string of the winner. *)
Theorem last_coding_sent_is_the_winner (lines : list string)
  (st : Concepts.state) (line : string) (source : Source) :
  processConcepts lines = Done st ->
  In line lines ->
  passesFilters (UmlsConcept.constructor line) = Some source ->
  exists winner,
    Concepts.mappedConcepts st !! winnerKey (UmlsConcept.constructor line)
    = Some winner
    /\ UmlsConcept.CODE winner = UmlsConcept.CODE (UmlsConcept.constructor line)
    /\ lastCoding (UmlsConcept.CODE (UmlsConcept.constructor line))
         (concat (postedFor (system source) (posted (Concepts.codings st))))
       = Some (Coding.mk (UmlsConcept.CODE winner) (UmlsConcept.STR winner)).
Proof.
  unfold processConcepts. intros Hrun Hin Hp.
  destruct (forAwait processConcepts_body lines Concepts.initial)
    as [loop|] eqn:Hloop; [|discriminate].
  cbn [bind] in Hrun. injection Hrun as <-.
  cbn [Concepts.mappedConcepts Concepts.codings].
  destruct (processConcepts_loop_winnersOf lines loop Hloop) as [Hsome Hwin].
  destruct (processConcepts_loop_sent lines loop Hloop) as [Hnodup Hsent].
  assert (Hcand : candidate (winnerKey (UmlsConcept.constructor line)) line
                  = true).
  { apply candidate_spec. split; [now exists source|reflexivity]. }
  destruct (Hsome _ _ Hin Hcand) as [winner Hlook].
  destruct (Hwin _ _ (winnerKey_has_pipe _) Hlook)
    as (before & wline & after & _ & -> & Hw & _).
  apply candidate_spec in Hw as [[src Hsrc] Hkey].
  destruct (same_key_same_pair _ _ _ _ Hsrc Hp Hkey) as (_ & Hcode & ->).
  exists (UmlsConcept.constructor wline).
  split; [exact Hlook|]. split; [exact Hcode|].
  rewrite (sent_flushAll _ _ Hnodup), <- Hcode.
  exact (Hsent _ _ _ (winnerKey_has_pipe _) Hlook Hsrc).
Qed.

Lemma acceptConcept_codings (source : Source) (line : string)
  (st : Concepts.state) :
  Concepts.codings (acceptConcept source (UmlsConcept.constructor line) st)
  = Concepts.codings st
  \/ Concepts.codings (acceptConcept source (UmlsConcept.constructor line) st)
     = pushCoding (system source)
         (Coding.mk (UmlsConcept.CODE (UmlsConcept.constructor line))
            (UmlsConcept.STR (UmlsConcept.constructor line)))
         (Concepts.codings st).
Proof.
  unfold acceptConcept, emitWinner. cbv zeta.
  destruct (_ !! winnerKey (UmlsConcept.constructor line)) as [existing|];
    [destruct (_ <=? _)|]; cbn [Concepts.codings]; auto.
Qed.

Lemma processConcepts_loop_posted (lines : list string) (st : Concepts.state) :
  forAwait processConcepts_body lines Concepts.initial = Done st ->
  forall sys coding,
    In (sys, coding) (allItems (Concepts.codings st)) ->
    exists line source,
      In line lines
      /\ passesFilters (UmlsConcept.constructor line) = Some source
      /\ sys = system source
      /\ coding = Coding.mk (UmlsConcept.CODE (UmlsConcept.constructor line))
                    (UmlsConcept.STR (UmlsConcept.constructor line)).
Proof.
  intros Hloop.
  apply (forAwait_prefix_invariant processConcepts_body
           (fun seen st =>
              forall sys coding,
                In (sys, coding) (allItems (Concepts.codings st)) ->
                exists line source,
                  In line seen
                  /\ passesFilters (UmlsConcept.constructor line) = Some source
                  /\ sys = system source
                  /\ coding
                     = Coding.mk (UmlsConcept.CODE (UmlsConcept.constructor line))
                         (UmlsConcept.STR (UmlsConcept.constructor line))))
    with (seen := []) (lines := lines) (st := Concepts.initial) (st' := st);
    [| intros sys coding [] | exact Hloop].
  clear. intros seen line st st' IH Hbody sys coding Hin.
  assert (Hold : In (sys, coding) (allItems (Concepts.codings st)) ->
                 exists l source,
                   In l (seen ++ [line])
                   /\ passesFilters (UmlsConcept.constructor l) = Some source
                   /\ sys = system source
                   /\ coding
                      = Coding.mk (UmlsConcept.CODE (UmlsConcept.constructor l))
                          (UmlsConcept.STR (UmlsConcept.constructor l))).
  { intros H. destruct (IH _ _ H) as (l & source & Hl & Hrest).
    exists l, source. split; [apply in_app_iff; now left|assumption]. }
  destruct (passesFilters (UmlsConcept.constructor line)) as [source|] eqn:Hp.
  - rewrite (body_accepts line st source Hp) in Hbody. injection Hbody as <-.
    destruct (acceptConcept_codings source line st) as [Hsame|Hpush].
    + rewrite Hsame in Hin. auto.
    + rewrite Hpush in Hin.
      apply allItems_pushCoding in Hin as [Hin|[= -> ->]]; [auto|].
      exists line, source. repeat split; [|assumption].
      apply in_app_iff. right. now left.
  - destruct (body_rejects line st Hp) as [Hthrow|(n & _ & Hdone)];
      [congruence|].
    rewrite Hdone in Hbody. injection Hbody as <-.
    cbn [Concepts.codings] in Hin. auto.
Qed.

(** X15.  The concept pass posts only accepted rows: every coding it posts
    carries the [CODE] and [STR] of a row of the concept file that passed
    the source, language, term-type and suppression filters, and goes to
    the system of the source of that row. *)
Theorem concept_pass_posts_accepted_rows (lines : list string)
  (st : Concepts.state) (sys : string) (batch : list Coding.t)
  (coding : Coding.t) :
  processConcepts lines = Done st ->
  In (sys, batch) (posted (Concepts.codings st)) ->
  In coding batch ->
  exists line source,
    In line lines
    /\ passesFilters (UmlsConcept.constructor line) = Some source
    /\ sys = system source
    /\ coding = Coding.mk (UmlsConcept.CODE (UmlsConcept.constructor line))
                  (UmlsConcept.STR (UmlsConcept.constructor line)).
Proof.
  unfold processConcepts. intros Hrun Hbatch Hcoding.
  destruct (forAwait processConcepts_body lines Concepts.initial)
    as [loop|] eqn:Hloop; [|discriminate].
  cbn [bind] in Hrun. injection Hrun as <-. cbn [Concepts.codings] in Hbatch.
  eapply processConcepts_loop_posted; [exact Hloop|].
  eapply posted_flushAll_allItems; eassumption.
Qed.

(** ** The import requests *)

Lemma postedFor_In {A : Type} (sys : string) (batch : list A)
  (log : list (string * list A)) :
  In (sys, batch) log -> In batch (postedFor sys log).
Proof.
  intros Hin. unfold postedFor. apply in_map_iff. exists (sys, batch).
  split; [reflexivity|]. apply filter_In. split; [assumption|].
  apply String.eqb_refl.
Qed.

Lemma emitCodings_batch_size {A : Type} (items : list (string * A))
  (sys : string) (batch : list A) :
  In (sys, batch) (posted (emitCodings items)) ->
  0 < Z.of_nat (length batch) <= 500.
Proof.
  intros Hin. apply postedFor_In in Hin.
  destruct (emitter_capacity A items sys) as (_ & _ & _ & _ & Hfull & Hlast).
  cbv zeta in Hfull, Hlast. rewrite List.Forall_forall in Hfull.
  destruct Hlast as [Heq|(last & Heq & Hsize)]; rewrite Heq in Hin.
  - specialize (Hfull _ Hin). lia.
  - apply in_app_iff in Hin as [Hin|[<-|[]]]; [|lia].
    specialize (Hfull _ Hin). lia.
Qed.

Lemma sendCodings_shape (batch : list Coding.t) (sys : string) :
  0 < Z.of_nat (length batch) <= 500 ->
  2 <= Z.of_nat (length (sendCodings batch sys)) <= 501
  /\ nth_error (sendCodings batch sys) 0 = Some (SystemParameter sys)
  /\ exists coding,
       nth_error batch 0 = Some coding
       /\ nth_error (sendCodings batch sys) 1 = Some (ConceptParameter coding).
Proof.
  intros Hsize. unfold sendCodings. cbn [length nth_error].
  rewrite length_map. split; [lia|]. split; [reflexivity|].
  destruct batch as [|coding batch]; [cbn [length] in Hsize; lia|].
  now exists coding.
Qed.

Lemma sendProperties_shape (batch : list Property.t) (sys : string) :
  0 < Z.of_nat (length batch) <= 500 ->
  2 <= Z.of_nat (length (sendProperties batch sys)) <= 501
  /\ nth_error (sendProperties batch sys) 0 = Some (SystemParameter sys)
  /\ exists p,
       nth_error batch 0 = Some p
       /\ nth_error (sendProperties batch sys) 1
          = Some (PropertyParameter (Property.code p) (Property.property p)
                    (Property.value p)).
Proof.
  intros Hsize. unfold sendProperties. cbn [length nth_error].
  rewrite length_map. split; [lia|]. split; [reflexivity|].
  destruct batch as [|p batch]; [cbn [length] in Hsize; lia|].
  now exists p.
Qed.

(** X11.  Every import request of the three passes names its system in
    its first parameter and carries between 1 and 500 items after it, so
    it has between 2 and 501 parameters and the example logged in debug
    mode, [parameter[1]], is the first item of the batch. *)
Theorem import_requests_are_bounded :
  (forall lines st sys batch,
     processConcepts lines = Done st ->
     In (sys, batch) (posted (Concepts.codings st)) ->
     2 <= Z.of_nat (length (sendCodings batch sys)) <= 501
     /\ nth_error (sendCodings batch sys) 0 = Some (SystemParameter sys)
     /\ exists coding,
          nth_error batch 0 = Some coding
          /\ nth_error (sendCodings batch sys) 1
             = Some (ConceptParameter coding))
  /\ (forall lines st sys batch,
        processProperties lines = Done st ->
        In (sys, batch) (posted (Properties.properties st)) ->
        2 <= Z.of_nat (length (sendProperties batch sys)) <= 501
        /\ nth_error (sendProperties batch sys) 0 = Some (SystemParameter sys)
        /\ exists p,
             nth_error batch 0 = Some p
             /\ nth_error (sendProperties batch sys) 1
                = Some (PropertyParameter (Property.code p)
                          (Property.property p) (Property.value p)))
  /\ (forall relationshipProperties mappedCodes lines st sys batch,
        processRelationships relationshipProperties mappedCodes lines = Done st ->
        In (sys, batch) (posted (Relationships.properties st)) ->
        2 <= Z.of_nat (length (sendProperties batch sys)) <= 501
        /\ nth_error (sendProperties batch sys) 0 = Some (SystemParameter sys)
        /\ exists p,
             nth_error batch 0 = Some p
             /\ nth_error (sendProperties batch sys) 1
                = Some (PropertyParameter (Property.code p)
                          (Property.property p) (Property.value p))).
Proof.
  split; [|split].
  - intros lines st sys batch Hrun Hin. apply sendCodings_shape.
    unfold processConcepts in Hrun.
    destruct (forAwait _ _ _) as [loop|] eqn:Hloop; [|discriminate].
    inversion Hrun; subst; clear Hrun. cbn [Concepts.codings] in Hin.
    destruct (forAwait_invariant processConcepts_body
                (fun s => streamOf (Concepts.codings s) (Concepts.processed s))
                (fun line s s' Hs Hb => concept_body_streamOf line s s' Hb Hs)
                lines Concepts.initial loop streamOf_empty Hloop)
      as (items & Heq & _).
    rewrite Heq in Hin. exact (emitCodings_batch_size items sys batch Hin).
  - intros lines st sys batch Hrun Hin. apply sendProperties_shape.
    unfold processProperties in Hrun.
    destruct (forAwait _ _ _) as [loop|] eqn:Hloop; [|discriminate].
    inversion Hrun; subst; clear Hrun. cbn [Properties.properties] in Hin.
    destruct (forAwait_invariant processProperties_body
                (fun s => streamOf (Properties.properties s) (Properties.processed s))
                (fun line s s' Hs Hb => properties_body_streamOf line s s' Hb Hs)
                lines Properties.initial loop streamOf_empty Hloop)
      as (items & Heq & _).
    rewrite Heq in Hin. exact (emitCodings_batch_size items sys batch Hin).
  - intros relationshipProperties mappedCodes lines st sys batch Hrun Hin.
    apply sendProperties_shape. unfold processRelationships in Hrun.
    destruct (forAwait _ _ _) as [loop|] eqn:Hloop; [|discriminate].
    inversion Hrun; subst; clear Hrun. cbn [Relationships.properties] in Hin.
    destruct (forAwait_invariant
                (processRelationships_body relationshipProperties mappedCodes)
                (fun s => streamOf (Relationships.properties s)
                            (Relationships.processed s))
                (fun line s s' Hs Hb =>
                   relationships_body_streamOf relationshipProperties
                     mappedCodes line s s' Hb Hs)
                lines Relationships.initial loop streamOf_empty Hloop)
      as (items & Heq & _).
    rewrite Heq in Hin. exact (emitCodings_batch_size items sys batch Hin).
Qed.

(** ** Runs that complete *)

Lemma forAwait_completes {S : Type} (body : string -> S -> outcome S)
  (throws : string -> bool) :
  (forall line st,
     if throws line then body line st = TypeError
     else exists st', body line st = Done st') ->
  forall lines st,
    (exists st', forAwait body lines st = Done st')
    <-> Forall (fun line => throws line = false) lines.
Proof.
  intros Hbody lines. induction lines as [|line lines IH]; intros st.
  - split; [constructor|]. intros _. now exists st.
  - cbn [forAwait]. specialize (Hbody line st).
    destruct (throws line) eqn:Hthrows.
    + rewrite Hbody. cbn [bind]. split.
      * intros [st' Hdone]. discriminate.
      * intros Hall. inversion Hall; congruence.
    + destruct Hbody as [s1 ->]. cbn [bind]. rewrite IH. split.
      * intros Hall. now constructor.
      * intros Hall. now inversion Hall.
Qed.

Lemma relationship_body_throws (lines : list string)
  (mappedCodes : gmap string UmlsConcept.t) (line : string)
  (st : Relationships.state) :
  if relationshipThrows line
  then processRelationships_body (prepareRelationshipProperties lines)
         mappedCodes line st = TypeError
  else exists st',
         processRelationships_body (prepareRelationshipProperties lines)
           mappedCodes line st = Done st'.
Proof.
  unfold relationshipThrows. cbv zeta.
  destruct (readProperty umlsSources
              (jsStr (UmlsRelationship.SAB (UmlsRelationship.constructor line))))
    as [source| |] eqn:Hread.
  1, 3: apply processRelationships_body_total; congruence.
  assert (Hslash : hasSlash
            (jsStr (UmlsRelationship.SAB (UmlsRelationship.constructor line)))
          = false) by (apply known_source_slash_free; congruence).
  assert (Hsab : UmlsRelationship.SAB (UmlsRelationship.constructor line)
                 <> Some "SNOMEDCT_US").
  { intros Heq. rewrite Heq in Hread. cbn in Hread. discriminate. }
  unfold processRelationships_body. cbv zeta. rewrite Hread.
  destruct (strictEq (UmlsRelationship.SUPPRESS _) _); cbn [negb andb];
    [|eauto].
  unfold resolvePropertyName. cbv zeta.
  rewrite (unmapped_outside_snomed lines _ Hslash Hsab). cbn [truthy].
  destruct (strictEq (UmlsRelationship.REL _) (Some "PAR")); cbn [orb];
    [reflexivity|].
  destruct (strictEq (UmlsRelationship.REL _) (Some "CHD")); [reflexivity|].
  cbn [bind truthy negb]. eauto.
Qed.

(** X13.  The whole run completes exactly when no English row of the
    concept file names a member of [Object.prototype] as its source, and no
    row of the relationship file that is not suppressed and is labelled
    [PAR] or [CHD] does; the attribute file and the documentation file
    cannot make it throw. *)
Theorem main_completes_iff (mrconso mrsat mrdoc mrrel : list string) :
  (exists run, main mrconso mrsat mrdoc mrrel = Done run)
  <-> Forall (fun line => conceptThrows line = false) mrconso
      /\ Forall (fun line => relationshipThrows line = false) mrrel.
Proof.
  assert (Hattr : exists a, processProperties mrsat = Done a).
  { unfold processProperties.
    destruct (proj2 (forAwait_completes processProperties_body (fun _ => false)
                       processProperties_body_total mrsat Properties.initial))
      as [loop ->]; [|cbn [bind]; eauto].
    apply Forall_forall. reflexivity. }
  destruct Hattr as [a Ha].
  assert (Hrel : forall mappedCodes,
            (exists r, processRelationships (prepareRelationshipProperties mrdoc)
                         mappedCodes mrrel = Done r)
            <-> Forall (fun line => relationshipThrows line = false) mrrel).
  { intros mappedCodes.
    rewrite <- (forAwait_completes
                  (processRelationships_body
                     (prepareRelationshipProperties mrdoc) mappedCodes)
                  relationshipThrows
                  (relationship_body_throws mrdoc mappedCodes)
                  mrrel Relationships.initial).
    unfold processRelationships. split.
    - intros [r Hr]. destruct (forAwait _ mrrel _) as [loop|]; [eauto|discriminate].
    - intros [loop ->]. cbn [bind]. eauto. }
  rewrite <- (loop_completes_iff mrconso Concepts.initial).
  unfold main. cbv zeta. split.
  - intros [run Hrun].
    destruct (processConcepts mrconso) as [c|] eqn:Hc; [|discriminate].
    cbn [bind] in Hrun. rewrite Ha in Hrun. cbn [bind] in Hrun.
    destruct (processRelationships _ _ mrrel) as [r|] eqn:Hr; [|discriminate].
    split; [|apply (Hrel (Concepts.mappedConcepts c)); eauto].
    unfold processConcepts in Hc.
    destruct (forAwait processConcepts_body mrconso Concepts.initial);
      [eauto|discriminate].
  - intros [[loop Hloop] Hall]. unfold processConcepts. rewrite Hloop.
    cbn [bind]. rewrite Ha. cbn [bind Concepts.mappedConcepts].
    apply (Hrel (Concepts.mappedConcepts loop)) in Hall as [r ->].
    cbn [bind]. eauto.
Qed.

End Passes.

(** ** The search-parameter index *)

Section SearchParameterFacts.

Context {SearchParameter : Type} (base : SearchParameter -> option (list string)).

Lemma nonEmpty_snoc {A : Type} (l : list A) (x : A) :
  nonEmpty (l ++ [x]) = Some (l ++ [x]).
Proof. now destruct l. Qed.

Lemma nonEmpty_Some {A : Type} (l found : list A) :
  nonEmpty l = Some found -> l = found.
Proof. destruct l; [discriminate|now intros [= <-]]. Qed.

Lemma nonEmpty_None {A : Type} (l : list A) : nonEmpty l = None -> l = [].
Proof. now destruct l. Qed.

Lemma indexSearchParameters_bases_spec (searchParam : SearchParameter)
  (bases : list string) (results : odict (list SearchParameter))
  (L : string -> list SearchParameter) :
  holds results L ->
  if existsb (fun resType => existsb (String.eqb resType) ObjectPrototype) bases
  then indexSearchParameters_bases searchParam bases results = TypeError
  else exists results',
         indexSearchParameters_bases searchParam bases results = Done results'
         /\ holds results'
              (fun resType =>
                 L resType
                 ++ map (fun _ => searchParam)
                      (List.filter (String.eqb resType) bases)).
Proof.
  revert results L. induction bases as [|b bases IH]; intros results L [Hget Hproto].
  - cbn. exists results. split; [reflexivity|].
    split; intros r; rewrite app_nil_r; auto.
  - cbn [existsb indexSearchParameters_bases].
    unfold indexSearchParameters_add.
    destruct (existsb (String.eqb b) ObjectPrototype) eqn:Hb; cbn [orb].
    + now rewrite Hget, (Hproto b Hb).
    + assert (Hnext :
        holds (oset results b (L b ++ [searchParam]))
          (fun r => L r ++ (if String.eqb r b then [searchParam] else []))).
      { split; intros r.
        - destruct (String.eqb_spec r b) as [->|Hne].
          + now rewrite oget_oset_eq, nonEmpty_snoc.
          + rewrite oget_oset_ne by congruence. now rewrite app_nil_r.
        - intros Hr. destruct (String.eqb_spec r b) as [->|Hne]; [congruence|].
          rewrite app_nil_r. auto. }
      assert (Hadd :
        match oget results b with
        | Some found => Done (oset results b (found ++ [searchParam]))
        | None => Done (oset results b [searchParam])
        end = Done (oset results b (L b ++ [searchParam]))).
      { rewrite Hget. destruct (L b); reflexivity. }
      rewrite Hadd. cbn [bind]. specialize (IH _ _ Hnext).
      destruct (existsb _ bases); [exact IH|].
      destruct IH as (results' & Hdone & Hget' & Hproto').
      exists results'. split; [exact Hdone|].
      split; intros r.
      * rewrite Hget'. f_equal. cbn [List.filter].
        rewrite <- app_assoc. now destruct (String.eqb r b).
      * intros Hr. specialize (Hproto' r Hr). cbn beta in Hproto'.
        cbn [List.filter]. rewrite <- Hproto', <- app_assoc.
        now destruct (String.eqb r b).
Qed.

Lemma indexSearchParameters_from_spec (searchParams : list SearchParameter)
  (results : odict (list SearchParameter))
  (L : string -> list SearchParameter) :
  holds results L ->
  if inheritedBase base searchParams
  then indexSearchParameters_from base searchParams results = TypeError
  else exists results',
         indexSearchParameters_from base searchParams results = Done results'
         /\ holds results'
              (fun resType => L resType ++ mentions base resType searchParams).
Proof.
  revert results L.
  induction searchParams as [|p searchParams IH]; intros results L Hholds.
  - cbn. exists results. split; [reflexivity|].
    destruct Hholds as [Hget Hproto].
    split; intros r; rewrite app_nil_r; auto.
  - cbn [inheritedBase existsb indexSearchParameters_from].
    pose proof (indexSearchParameters_bases_spec p (basesOf base p) results L
                  Hholds) as Hbases.
    destruct (existsb _ (basesOf base p)); cbn [orb];
      [now rewrite Hbases|].
    destruct Hbases as (results1 & -> & Hholds1). cbn [bind].
    specialize (IH _ _ Hholds1). fold (inheritedBase base searchParams).
    destruct (inheritedBase base searchParams); [exact IH|].
    destruct IH as (results' & Hdone & Hget' & Hproto').
    exists results'. split; [exact Hdone|].
    split; intros r.
    + rewrite Hget'. f_equal. cbn [mentions flat_map]. now rewrite app_assoc.
    + intros Hr. specialize (Hproto' r Hr). cbn beta in Hproto'.
      cbn [mentions flat_map]. now rewrite app_assoc.
Qed.

(** X12.  The search-parameter index of the documentation generator: when
    no search parameter names a member of [Object.prototype] among its
    bases, the index binds each resource type to the search parameters that
    mention it, once per mention and in the order of the input, and has no
    entry for a type that none mentions; when one does, the function
    throws, because [results] is an object literal. *)
Theorem search_parameter_index (searchParams : list SearchParameter) :
  if inheritedBase base searchParams
  then indexSearchParameters base searchParams = TypeError
  else exists results,
         indexSearchParameters base searchParams = Done results
         /\ forall resType,
              oget results resType
              = nonEmpty (mentions base resType searchParams).
Proof.
  unfold indexSearchParameters.
  pose proof (indexSearchParameters_from_spec searchParams [] (fun _ => []))
    as Hspec.
  destruct (inheritedBase base searchParams); [now apply Hspec|].
  destruct Hspec as (results & Hdone & Hget & _); [now split|].
  exists results. split; [exact Hdone|exact Hget].
Qed.

End SearchParameterFacts.

(** ** Concrete runs *)

Lemma atom_and_winner_keys_disjoint_witness :
  exists st,
    processConcepts sampleCodeSystems [rowSynonym; rowFullName] = Done st
    /\ Concepts.mappedConcepts st
         !! jsStr (UmlsRelationship.AUI1 (UmlsRelationship.constructor relParent))
       = Some (UmlsConcept.constructor rowFullName)
    /\ jsStr (UmlsConcept.AUI (UmlsConcept.constructor rowFullName))
       = jsStr (UmlsRelationship.AUI1 (UmlsRelationship.constructor relParent))
    /\ winnerKey (UmlsConcept.constructor rowFullName)
       <> jsStr (UmlsRelationship.AUI1 (UmlsRelationship.constructor relParent)).
Proof.
  eexists. split; [vm_compute; reflexivity|].
  split; [vm_compute; reflexivity|].
  eapply (proj1 (proj2 (proj2 (proj2
            (atom_and_winner_keys_disjoint sampleCodeSystems))))
            [rowSynonym; rowFullName] _ relParent).
  - vm_compute. reflexivity.
  - left. reflexivity.
  - vm_compute. reflexivity.
Defined.

Lemma preference_monotonicity_witness :
  exists st,
    processConcepts sampleCodeSystems [rowSynonym; rowFullName; rowSynonym2]
    = Done st
    /\ In rowSynonym [rowSynonym; rowFullName; rowSynonym2]
    /\ passesFilters sampleCodeSystems (UmlsConcept.constructor rowSynonym)
       = Some sampleSnomed
    /\ exists winnerLine,
         Concepts.mappedConcepts st
           !! winnerKey (UmlsConcept.constructor rowSynonym)
         = Some (UmlsConcept.constructor winnerLine)
         /\ forall x,
              In x [rowSynonym; rowFullName; rowSynonym2] ->
              samePair sampleCodeSystems (UmlsConcept.constructor rowSynonym) x ->
              indexOf (tty sampleSnomed)
                (UmlsConcept.TTY (UmlsConcept.constructor winnerLine))
              <= indexOf (tty sampleSnomed)
                   (UmlsConcept.TTY (UmlsConcept.constructor x)).
Proof.
  eexists. split; [vm_compute; reflexivity|].
  split; [now left|]. split; [vm_compute; reflexivity|].
  destruct (preference_monotonicity sampleCodeSystems
              [rowSynonym; rowFullName; rowSynonym2] _ rowSynonym sampleSnomed
              ltac:(vm_compute; reflexivity) ltac:(now left)
              ltac:(vm_compute; reflexivity))
    as (before & winnerLine & after & _ & Hget & _ & _ & _ & Hmin & _).
  exists winnerLine. split; [exact Hget | exact Hmin].
Defined.

(** C1 fails as stated: two synonyms of one code have the same priority
    index, and the one read first stays the winner, so the two arrival
    orders of the same two rows end with different winners. *)
Lemma equal_priority_winner_depends_on_order :
  exists st st',
    Permutation [rowSynonym; rowSynonym2] [rowSynonym2; rowSynonym]
    /\ processConcepts sampleCodeSystems [rowSynonym; rowSynonym2] = Done st
    /\ processConcepts sampleCodeSystems [rowSynonym2; rowSynonym] = Done st'
    /\ Concepts.mappedConcepts st !! "SNOMEDCT_US|73211009"
       = Some (UmlsConcept.constructor rowSynonym)
    /\ Concepts.mappedConcepts st' !! "SNOMEDCT_US|73211009"
       = Some (UmlsConcept.constructor rowSynonym2)
    /\ Concepts.mappedConcepts st !! "SNOMEDCT_US|73211009"
       <> Concepts.mappedConcepts st' !! "SNOMEDCT_US|73211009".
Proof.
  eexists. eexists. split; [apply perm_swap|].
  split; [vm_compute; reflexivity|]. split; [vm_compute; reflexivity|].
  split; [vm_compute; reflexivity|]. split; [vm_compute; reflexivity|].
  vm_compute. discriminate.
Qed.

Lemma winner_update_and_first_occurrence_witness :
  passesFilters sampleCodeSystems (UmlsConcept.constructor rowSynonym)
  = Some sampleSnomed
  /\ passesFilters sampleCodeSystems (UmlsConcept.constructor rowFullName)
     = Some sampleSnomed
  /\ indexOf (tty sampleSnomed) (UmlsConcept.TTY (UmlsConcept.constructor rowSynonym)) = 2
  /\ indexOf (tty sampleSnomed) (UmlsConcept.TTY (UmlsConcept.constructor rowFullName)) = 0
  /\ (forall lines,
        lines = [rowSynonym; rowFullName] \/ lines = [rowFullName; rowSynonym] ->
        exists st,
          processConcepts sampleCodeSystems lines = Done st
          /\ Concepts.mappedConcepts st
               !! winnerKey (UmlsConcept.constructor rowFullName)
             = Some (UmlsConcept.constructor rowFullName)
          /\ oget (Concepts.counts st) (system sampleSnomed) = Some 1).
Proof.
  assert (Ha : passesFilters sampleCodeSystems (UmlsConcept.constructor rowSynonym)
               = Some sampleSnomed) by (vm_compute; reflexivity).
  assert (Hb : passesFilters sampleCodeSystems (UmlsConcept.constructor rowFullName)
               = Some sampleSnomed) by (vm_compute; reflexivity).
  assert (Hsab : UmlsConcept.SAB (UmlsConcept.constructor rowSynonym)
                 = UmlsConcept.SAB (UmlsConcept.constructor rowFullName))
    by (vm_compute; reflexivity).
  assert (Hcode : UmlsConcept.CODE (UmlsConcept.constructor rowSynonym)
                  = UmlsConcept.CODE (UmlsConcept.constructor rowFullName))
    by (vm_compute; reflexivity).
  assert (Hia : indexOf (tty sampleSnomed)
                  (UmlsConcept.TTY (UmlsConcept.constructor rowSynonym)) = 2)
    by (vm_compute; reflexivity).
  assert (Hib : indexOf (tty sampleSnomed)
                  (UmlsConcept.TTY (UmlsConcept.constructor rowFullName)) = 0)
    by (vm_compute; reflexivity).
  split; [exact Ha|]. split; [exact Hb|]. split; [exact Hia|]. split; [exact Hib|].
  exact (proj2 (winner_update_and_first_occurrence sampleCodeSystems)
           rowSynonym rowFullName sampleSnomed Ha Hb Hsab Hcode Hia Hib).
Defined.

Lemma suppressed_record_is_dropped_witness :
  strictEq (UmlsConcept.SUPPRESS (UmlsConcept.constructor rowObsoleteSnomed))
    (Some "N") = false
  /\ processConcepts_body sampleCodeSystems rowObsoleteSnomed Concepts.initial
     = Done (Concepts.mk 0 1 [] emptyEmitter ∅).
Proof.
  assert (Hsup : strictEq (UmlsConcept.SUPPRESS
                             (UmlsConcept.constructor rowObsoleteSnomed))
                   (Some "N") = false) by (vm_compute; reflexivity).
  split; [exact Hsup|].
  apply (proj1 (proj2 (suppressed_record_is_dropped sampleCodeSystems
                         rowObsoleteSnomed Concepts.initial Hsup))
           sampleSnomed); vm_compute; reflexivity.
Defined.

(** C3 fails as stated: an obsolete row of a source outside the registry
    is dropped by the source filter and never reaches the skip counter. *)
Lemma suppressed_unknown_source_is_not_counted :
  ~ (forall line st,
       strictEq (UmlsConcept.SUPPRESS (UmlsConcept.constructor line)) (Some "N")
       = false ->
       exists st',
         processConcepts_body sampleCodeSystems line st = Done st'
         /\ Concepts.skipped st' = Concepts.skipped st + 1).
Proof.
  intros H.
  destruct (H rowObsoleteMesh Concepts.initial ltac:(vm_compute; reflexivity))
    as (st' & Hbody & Hskip).
  vm_compute in Hbody. inversion Hbody; subst. vm_compute in Hskip. discriminate.
Qed.

Lemma coding_appended_only_for_new_winner_witness :
  passesFilters sampleCodeSystems (UmlsConcept.constructor rowFullName)
  = Some sampleSnomed
  /\ exists st',
       processConcepts_body sampleCodeSystems rowFullName Concepts.initial
       = Done st'
       /\ appended "http://snomed.info/sct" (Concepts.codings st')
          = appended "http://snomed.info/sct" (Concepts.codings Concepts.initial)
            ++ [Coding.mk
                  (UmlsConcept.CODE (UmlsConcept.constructor rowFullName))
                  (UmlsConcept.STR (UmlsConcept.constructor rowFullName))]
       /\ Concepts.processed st' = Concepts.processed Concepts.initial + 1.
Proof.
  assert (Hp : passesFilters sampleCodeSystems (UmlsConcept.constructor rowFullName)
               = Some sampleSnomed) by (vm_compute; reflexivity).
  split; [exact Hp|].
  destruct (proj1 (coding_appended_only_for_new_winner sampleCodeSystems)
              rowFullName Concepts.initial sampleSnomed Hp)
    as (st' & Hbody & Happ & Hproc).
  exists st'. split; [exact Hbody|].
  split; [exact (Happ "http://snomed.info/sct") | exact Hproc].
Defined.

(** C7 fails as stated: both rows pass the filters for SNOMED CT, but the
    synonym read after the fully specified name does not outrank it and
    appends nothing, so one coding is appended for two accepted records. *)
Lemma outranked_record_appends_nothing :
  passesFilters sampleCodeSystems (UmlsConcept.constructor rowFullName)
  = Some sampleSnomed
  /\ passesFilters sampleCodeSystems (UmlsConcept.constructor rowSynonym)
     = Some sampleSnomed
  /\ exists st,
       forAwait (processConcepts_body sampleCodeSystems)
         [rowFullName; rowSynonym] Concepts.initial = Done st
       /\ appended "http://snomed.info/sct" (Concepts.codings st)
          = [Coding.mk (Some "73211009") (Some "Diabetes mellitus (disorder)")].
Proof.
  split; [vm_compute; reflexivity|]. split; [vm_compute; reflexivity|].
  eexists. split; vm_compute; reflexivity.
Qed.

Lemma property_code_resolution_order_witness :
  readProperty (umlsSources sampleCodeSystems)
    (jsStr (UmlsRelationship.SAB (UmlsRelationship.constructor relParent)))
  = Own sampleSnomed
  /\ strictEq (UmlsRelationship.SUPPRESS (UmlsRelationship.constructor relParent))
       (Some "N") = true
  /\ (∅ : gmap string string)
       !! relationshipKey (UmlsRelationship.constructor relParent) = None
  /\ UmlsRelationship.REL (UmlsRelationship.constructor relParent) = Some "PAR"
  /\ proceedsWith sampleCodeSystems ∅ sampleIndex relParent
       Relationships.initial sampleSnomed "parent"
  /\ processRelationships_body sampleCodeSystems ∅ sampleIndex relParent
       Relationships.initial
     = Done (Relationships.mk 1 0
               [("http://snomed.info/sct|parent (PAR/)", 1)]
               (mkEmitter
                  [("http://snomed.info/sct",
                    [Property.mk (Some "73211009") (Some "parent")
                       (Some "73211009")])]
                  [])
               []).
Proof.
  assert (Hs : readProperty (umlsSources sampleCodeSystems)
                 (jsStr (UmlsRelationship.SAB
                           (UmlsRelationship.constructor relParent)))
               = Own sampleSnomed) by (vm_compute; reflexivity).
  assert (Hn : strictEq (UmlsRelationship.SUPPRESS
                           (UmlsRelationship.constructor relParent))
                 (Some "N") = true) by (vm_compute; reflexivity).
  assert (Hstage : (∅ : gmap string string)
                     !! relationshipKey (UmlsRelationship.constructor relParent)
                   = None) by (vm_compute; reflexivity).
  assert (Hrel : UmlsRelationship.REL (UmlsRelationship.constructor relParent)
                 = Some "PAR") by (vm_compute; reflexivity).
  assert (Hproceeds : proceedsWith sampleCodeSystems ∅ sampleIndex relParent
                        Relationships.initial sampleSnomed "parent").
  { apply (proj1 (proj1 (proj2 (property_code_resolution_order sampleCodeSystems
                                  ∅ sampleIndex relParent Relationships.initial
                                  sampleSnomed Hs Hn))
                   (or_introl Hstage) Hrel)
             [ CodeSystem.mkProperty (Some "parent") (Some PARENT_PROPERTY);
               CodeSystem.mkProperty (Some "child") (Some CHILD_PROPERTY) ]
             (CodeSystem.mkProperty (Some "parent") (Some PARENT_PROPERTY))
             "parent");
      [reflexivity| |reflexivity|discriminate].
    exists [], [CodeSystem.mkProperty (Some "child") (Some CHILD_PROPERTY)].
    split; [reflexivity|]. split; [reflexivity|]. intros x []. }
  split; [exact Hs|]. split; [exact Hn|]. split; [exact Hstage|].
  split; [exact Hrel|]. split; [exact Hproceeds|].
  vm_compute. reflexivity.
Defined.

(** C8 fails as stated: the lookup in the relationship-property map is a
    truthiness test, not an exact match.  A documentation row with an empty
    [VALUE] binds the key of a child link to the empty string, and the
    record then takes the child property of its code system. *)
Lemma empty_stage_a_value_falls_through :
  prepareRelationshipProperties [docEmptyValue]
    !! relationshipKey (UmlsRelationship.constructor relChild) = Some ""
  /\ resolvePropertyName (prepareRelationshipProperties [docEmptyValue])
       (Own sampleSnomed) (UmlsRelationship.constructor relChild)
     = Done (Some "child")
  /\ ~ (forall relationshipProperties line source name,
          readProperty (umlsSources sampleCodeSystems)
            (jsStr (UmlsRelationship.SAB (UmlsRelationship.constructor line)))
          = Own source ->
          strictEq (UmlsRelationship.SUPPRESS (UmlsRelationship.constructor line))
            (Some "N") = true ->
          relationshipProperties
            !! relationshipKey (UmlsRelationship.constructor line) = Some name ->
          resolvePropertyName relationshipProperties (Own source)
            (UmlsRelationship.constructor line) = Done (Some name)).
Proof.
  split; [vm_compute; reflexivity|]. split; [vm_compute; reflexivity|].
  intros H.
  specialize (H (prepareRelationshipProperties [docEmptyValue]) relChild
                sampleSnomed ""
                ltac:(vm_compute; reflexivity) ltac:(vm_compute; reflexivity)
                ltac:(vm_compute; reflexivity)).
  vm_compute in H. discriminate.
Qed.

Lemma relationship_endpoint_resolution_witness :
  readProperty (umlsSources sampleCodeSystems)
    (jsStr (UmlsRelationship.SAB (UmlsRelationship.constructor relParent)))
  = Own sampleSnomed
  /\ strictEq (UmlsRelationship.SUPPRESS (UmlsRelationship.constructor relParent))
       (Some "N") = true
  /\ resolvePropertyName ∅ (Own sampleSnomed) (UmlsRelationship.constructor relParent)
     = Done (Some "parent")
  /\ "parent" <> ""
  /\ exists st',
       processRelationships_body sampleCodeSystems ∅ sampleIndex relParent
         Relationships.initial = Done st'
       /\ appended "http://snomed.info/sct" (Relationships.properties st')
          = appended "http://snomed.info/sct"
              (Relationships.properties Relationships.initial)
            ++ [Property.mk (Some "73211009") (Some "parent") (Some "73211009")]
       /\ Relationships.skipped st' = Relationships.skipped Relationships.initial
       /\ Relationships.warnings st' = Relationships.warnings Relationships.initial.
Proof.
  assert (Hs : readProperty (umlsSources sampleCodeSystems)
                 (jsStr (UmlsRelationship.SAB
                           (UmlsRelationship.constructor relParent)))
               = Own sampleSnomed) by (vm_compute; reflexivity).
  assert (Hn : strictEq (UmlsRelationship.SUPPRESS
                           (UmlsRelationship.constructor relParent))
                 (Some "N") = true) by (vm_compute; reflexivity).
  assert (Hres : resolvePropertyName ∅ (Own sampleSnomed)
                   (UmlsRelationship.constructor relParent)
                 = Done (Some "parent")) by (vm_compute; reflexivity).
  assert (Hname : "parent" <> "") by discriminate.
  split; [exact Hs|]. split; [exact Hn|]. split; [exact Hres|].
  split; [exact Hname|].
  destruct (proj1 (relationship_endpoint_resolution sampleCodeSystems
                     ∅ sampleIndex relParent Relationships.initial
                     sampleSnomed "parent" Hs Hn Hres Hname)
              (UmlsConcept.constructor rowFullName)
              (UmlsConcept.constructor rowSynonym)
              "73211009" "73211009"
              ltac:(vm_compute; reflexivity) ltac:(vm_compute; reflexivity)
              ltac:(vm_compute; reflexivity) ltac:(discriminate)
              ltac:(vm_compute; reflexivity) ltac:(discriminate))
    as (st' & Hbody & Happ & _ & Hskip & Hwarn).
  exists st'. split; [exact Hbody|].
  split; [apply (Happ "http://snomed.info/sct")|].
  split; [exact Hskip | exact Hwarn].
Defined.

(** C5 fails as stated: the concept pass indexes a row whose code column
    is empty; a relationship whose first atom is that row finds both atoms
    in the index, yet the empty code is falsy, so no assertion is appended,
    the row is skipped and the first atom is reported as missing. *)
Lemma indexed_atom_with_empty_code_is_skipped :
  exists index,
    processConcepts sampleCodeSystems [rowEmptyCode; rowSynonym] = Done index
    /\ Concepts.mappedConcepts index !! "A0000007"
       = Some (UmlsConcept.constructor rowEmptyCode)
    /\ Concepts.mappedConcepts index !! "A0000001"
       = Some (UmlsConcept.constructor rowSynonym)
    /\ UmlsRelationship.AUI1 (UmlsRelationship.constructor relEmptyCode)
       = Some "A0000007"
    /\ UmlsRelationship.AUI2 (UmlsRelationship.constructor relEmptyCode)
       = Some "A0000001"
    /\ resolvePropertyName ∅ (Own sampleSnomed)
         (UmlsRelationship.constructor relEmptyCode) = Done (Some "parent")
    /\ processRelationships_body sampleCodeSystems ∅
         (Concepts.mappedConcepts index) relEmptyCode Relationships.initial
       = Done (Relationships.mk 0 1 [] emptyEmitter
                 [Relationships.mkWarning "parent" "PAR/" (Some "A0000007")]).
Proof.
  eexists. split; [vm_compute; reflexivity|].
  repeat split; vm_compute; reflexivity.
Qed.



Lemma batch_capacity_invariant_witness :
  let items := repeat ("http://loinc.org", tt) 501 in
  let flushed :=
    postedFor "http://loinc.org" (posted (emitCodings items)) in
  Z.of_nat (length flushed) = 2
  /\ totalLength flushed = 501
  /\ map (fun b => Z.of_nat (length b)) flushed = [500; 1].
Proof.
  cbv zeta.
  destruct (proj1 (batch_capacity_invariant sampleCodeSystems) unit
              (repeat ("http://loinc.org", tt) 501) "http://loinc.org")
    as (_ & Hcount & Hsum & _).
  cbv zeta in Hcount, Hsum.
  split; [rewrite Hcount; vm_compute; reflexivity|].
  split; [rewrite Hsum; vm_compute; reflexivity|].
  vm_compute. reflexivity.
Defined.

(** ** Further concrete runs *)

Example split_columns :
  split "a|b||c" = ["a"; "b"; ""; "c"] /\ split "" = [""] /\ split "|" = [""; ""].
Proof. repeat split. Qed.

Example short_line_has_undefined_columns :
  UmlsConcept.LAT (UmlsConcept.constructor "C0000001|ENG") = Some "ENG"
  /\ UmlsConcept.SAB (UmlsConcept.constructor "C0000001|ENG") = None
  /\ processConcepts_body sampleCodeSystems "C0000001|ENG" Concepts.initial
     = Done Concepts.initial.
Proof. repeat split. Qed.

Example proto_source_throws :
  processConcepts sampleCodeSystems ["C0000001|ENG||||||||||__proto__"]
  = TypeError.
Proof. vm_compute. reflexivity. Qed.

Example sampleIndex_from_concept_pass :
  exists st,
    processConcepts sampleCodeSystems [rowSynonym; rowFullName; rowEmptyCode]
    = Done st
    /\ forall aui,
         In aui ["A0000001"; "A0000002"; "A0000007"; "A0000009"] ->
         Concepts.mappedConcepts st !! aui = sampleIndex !! aui.
Proof.
  eexists. split; [vm_compute; reflexivity|].
  intros aui [<- | [<- | [<- | [<- | []]]]]; vm_compute; reflexivity.
Qed.

Example missing_atom_is_skipped :
  processRelationships_body sampleCodeSystems ∅ sampleIndex relMissing
    Relationships.initial
  = Done (Relationships.mk 0 1 [] emptyEmitter
            [Relationships.mkWarning "parent" "PAR/" (Some "A0000009")]).
Proof. vm_compute. reflexivity. Qed.

Example unmapped_label_is_dropped :
  processRelationships_body sampleCodeSystems ∅ sampleIndex relOther
    Relationships.initial
  = Done Relationships.initial.
Proof. vm_compute. reflexivity. Qed.

Example stage_a_mapping_wins :
  resolvePropertyName
    {["SNOMEDCT_US/RO/associated_with" := "47429007"]}
    (Own sampleSnomed) (UmlsRelationship.constructor relOther)
  = Done (Some "47429007").
Proof. vm_compute. reflexivity. Qed.

Example processed_total_depends_on_order :
  exists st st',
    processConcepts sampleCodeSystems [rowSynonym; rowFullName] = Done st
    /\ processConcepts sampleCodeSystems [rowFullName; rowSynonym] = Done st'
    /\ Concepts.processed st = 2
    /\ Concepts.processed st' = 1.
Proof. eexists. eexists. repeat split; vm_compute; reflexivity. Qed.

(** ** Concrete runs of the rest of the script *)

Lemma relationship_property_map_sound_witness :
  prepareRelationshipProperties [docRel; docOther; docRela]
    !! "SNOMEDCT_US/RO/associated_with" = Some "47429007"
  /\ existsb (mapsValue "47429007") [docRel; docOther; docRela] = true
  /\ "SNOMEDCT_US/RO/associated_with"
     = "SNOMEDCT_US/"
       +:+ nullish (lastExpl isRelRow "47429007" [docRel; docOther; docRela])
       +:+ "/"
       +:+ nullish (lastExpl isRelaRow "47429007" [docRel; docOther; docRela]).
Proof.
  assert (Hkey : prepareRelationshipProperties [docRel; docOther; docRela]
                   !! "SNOMEDCT_US/RO/associated_with" = Some "47429007")
    by (vm_compute; reflexivity).
  split; [exact Hkey|].
  exact (relationship_property_map_sound _ _ _ Hkey).
Defined.

Lemma relationship_property_map_complete_witness :
  existsb (mapsValue "999") [docRel; docRela; docRelShared; docRelaShared] = true
  /\ exists property,
       prepareRelationshipProperties
         [docRel; docRela; docRelShared; docRelaShared]
         !! stageAKey
              (mappingOf "999" [docRel; docRela; docRelShared; docRelaShared])
       = Some property
       /\ existsb (mapsValue property)
            [docRel; docRela; docRelShared; docRelaShared] = true
       /\ stageAKey
            (mappingOf property [docRel; docRela; docRelShared; docRelaShared])
          = stageAKey
              (mappingOf "999" [docRel; docRela; docRelShared; docRelaShared]).
Proof.
  assert (Hex : existsb (mapsValue "999")
                  [docRel; docRela; docRelShared; docRelaShared] = true)
    by (vm_compute; reflexivity).
  split; [exact Hex|].
  exact (relationship_property_map_complete _ _ Hex).
Defined.

Lemma relationship_property_map_round_trip_witness :
  existsb (mapsValue "47429007") [docRel; docOther; docRela] = true
  /\ forallb (String.eqb "47429007")
       (keyOwners
          (stageAKey (mappingOf "47429007" [docRel; docOther; docRela]))
          [docRel; docOther; docRela]) = true
  /\ prepareRelationshipProperties [docRel; docOther; docRela]
       !! stageAKey (mappingOf "47429007" [docRel; docOther; docRela])
     = Some "47429007".
Proof.
  assert (Hex : existsb (mapsValue "47429007") [docRel; docOther; docRela]
                = true) by (vm_compute; reflexivity).
  assert (Hunique :
            forallb (String.eqb "47429007")
              (keyOwners
                 (stageAKey (mappingOf "47429007" [docRel; docOther; docRela]))
                 [docRel; docOther; docRela]) = true)
    by (vm_compute; reflexivity).
  split; [exact Hex|]. split; [exact Hunique|].
  exact (relationship_property_map_round_trip _ _ Hex Hunique).
Defined.

Lemma documentation_only_affects_snomed_witness :
  UmlsRelationship.SAB (UmlsRelationship.constructor relLoinc)
  <> Some "SNOMEDCT_US"
  /\ processRelationships_body sampleCodeSystems
       (prepareRelationshipProperties [docRel; docRela]) sampleIndex relLoinc
       Relationships.initial
     = processRelationships_body sampleCodeSystems ∅ sampleIndex relLoinc
         Relationships.initial.
Proof.
  assert (Hsab : UmlsRelationship.SAB (UmlsRelationship.constructor relLoinc)
                 <> Some "SNOMEDCT_US")
    by (vm_compute; discriminate).
  split; [exact Hsab|].
  exact (documentation_only_affects_snomed sampleCodeSystems [docRel; docRela]
           sampleIndex relLoinc Relationships.initial Hsab).
Defined.

Lemma atom_index_holds_last_accepted_row_witness :
  exists st,
    processConcepts sampleCodeSystems [rowSynonym; rowFullName; rowObsoleteSnomed]
    = Done st
    /\ hasPipe (jsStr (Some "A0000001")) = false
    /\ Concepts.mappedConcepts st !! jsStr (Some "A0000001")
       = option_map UmlsConcept.constructor
           (lastAtom sampleCodeSystems (jsStr (Some "A0000001"))
              [rowSynonym; rowFullName; rowObsoleteSnomed])
    /\ resolveCode (Concepts.mappedConcepts st) (Some "A0000001")
       = match lastAtom sampleCodeSystems (jsStr (Some "A0000001"))
                 [rowSynonym; rowFullName; rowObsoleteSnomed] with
         | Some line => UmlsConcept.CODE (UmlsConcept.constructor line)
         | None => None
         end.
Proof.
  eexists. split; [vm_compute; reflexivity|]. split; [reflexivity|].
  apply (atom_index_holds_last_accepted_row sampleCodeSystems
           [rowSynonym; rowFullName; rowObsoleteSnomed] _ (Some "A0000001"));
    [vm_compute; reflexivity|reflexivity].
Defined.

Lemma main_relationship_endpoints_witness :
  exists run,
    main sampleCodeSystems [rowSynonym; rowFullName] [attrParent]
      [docRel; docRela] [relParent; relOther] = Done run
    /\ In ("http://snomed.info/sct",
           [ Property.mk (Some "73211009") (Some "parent") (Some "73211009");
             Property.mk (Some "73211009") (Some "47429007") (Some "73211009") ])
         (posted (Relationships.properties (relationships run)))
    /\ exists line atom1 atom2,
         In line [relParent; relOther]
         /\ strictEq (UmlsRelationship.SUPPRESS (UmlsRelationship.constructor line))
              (Some "N") = true
         /\ lastAtom sampleCodeSystems
              (jsStr (UmlsRelationship.AUI1 (UmlsRelationship.constructor line)))
              [rowSynonym; rowFullName] = Some atom1
         /\ lastAtom sampleCodeSystems
              (jsStr (UmlsRelationship.AUI2 (UmlsRelationship.constructor line)))
              [rowSynonym; rowFullName] = Some atom2
         /\ Some "73211009" = UmlsConcept.CODE (UmlsConcept.constructor atom1)
         /\ Some "73211009" = UmlsConcept.CODE (UmlsConcept.constructor atom2)
         /\ truthy (Some "73211009") = true
         /\ truthy (Some "73211009") = true.
Proof.
  eexists. split; [vm_compute; reflexivity|].
  split; [vm_compute; left; reflexivity|].
  eapply (main_relationship_endpoints sampleCodeSystems
            [rowSynonym; rowFullName] [attrParent] [docRel; docRela]
            [relParent; relOther] _ "http://snomed.info/sct"
            [ Property.mk (Some "73211009") (Some "parent") (Some "73211009");
              Property.mk (Some "73211009") (Some "47429007") (Some "73211009") ]
            (Property.mk (Some "73211009") (Some "47429007") (Some "73211009")));
    [vm_compute; reflexivity|vm_compute; left; reflexivity|right; left; reflexivity].
Defined.

Lemma attribute_pass_posts_declared_properties_witness :
  exists st,
    processProperties sampleCodeSystems [attrParent] = Done st
    /\ In ("http://snomed.info/sct",
           [Property.mk (Some "73211009") (Some "parent") (Some "138875005")])
         (posted (Properties.properties st))
    /\ exists line,
         In line [attrParent]
         /\ declaredBy sampleCodeSystems line "http://snomed.info/sct"
              (Property.mk (Some "73211009") (Some "parent") (Some "138875005")).
Proof.
  eexists. split; [vm_compute; reflexivity|].
  split; [vm_compute; left; reflexivity|].
  eapply (attribute_pass_posts_declared_properties sampleCodeSystems
            [attrParent] _ "http://snomed.info/sct"
            [Property.mk (Some "73211009") (Some "parent") (Some "138875005")]);
    [vm_compute; reflexivity|vm_compute; left; reflexivity|left; reflexivity].
Defined.

Lemma concept_count_is_distinct_codes_witness :
  exists st,
    processConcepts sampleCodeSystems
      [rowSynonym; rowLoinc; rowFullName; rowSynonym2] = Done st
    /\ size (distinctCodes sampleCodeSystems "http://snomed.info/sct"
               [rowSynonym; rowLoinc; rowFullName; rowSynonym2]) = 1%nat
    /\ oget (Concepts.counts st) "http://snomed.info/sct"
       = if Nat.eqb
              (size (distinctCodes sampleCodeSystems "http://snomed.info/sct"
                       [rowSynonym; rowLoinc; rowFullName; rowSynonym2])) 0
         then None
         else Some (Z.of_nat
                      (size (distinctCodes sampleCodeSystems
                               "http://snomed.info/sct"
                               [rowSynonym; rowLoinc; rowFullName; rowSynonym2]))).
Proof.
  eexists. split; [vm_compute; reflexivity|].
  split; [vm_compute; reflexivity|].
  apply (concept_count_is_distinct_codes sampleCodeSystems
           [rowSynonym; rowLoinc; rowFullName; rowSynonym2] _
           "http://snomed.info/sct").
  vm_compute; reflexivity.
Defined.

Lemma last_coding_sent_is_the_winner_witness :
  exists st,
    processConcepts sampleCodeSystems [rowSynonym; rowFullName; rowSynonym2]
    = Done st
    /\ In rowSynonym [rowSynonym; rowFullName; rowSynonym2]
    /\ passesFilters sampleCodeSystems (UmlsConcept.constructor rowSynonym)
       = Some sampleSnomed
    /\ exists winner,
         Concepts.mappedConcepts st
           !! winnerKey (UmlsConcept.constructor rowSynonym) = Some winner
         /\ UmlsConcept.CODE winner
            = UmlsConcept.CODE (UmlsConcept.constructor rowSynonym)
         /\ lastCoding (UmlsConcept.CODE (UmlsConcept.constructor rowSynonym))
              (concat (postedFor (system sampleSnomed)
                         (posted (Concepts.codings st))))
            = Some (Coding.mk (UmlsConcept.CODE winner) (UmlsConcept.STR winner)).
Proof.
  eexists. split; [vm_compute; reflexivity|].
  split; [now left|]. split; [vm_compute; reflexivity|].
  apply (last_coding_sent_is_the_winner sampleCodeSystems
           [rowSynonym; rowFullName; rowSynonym2] _ rowSynonym sampleSnomed);
    [vm_compute; reflexivity|now left|vm_compute; reflexivity].
Defined.

(** Two attributes mapped to the same pair: both names are array indices,
    so [Object.entries] lists 999 before 47429007 whatever the order of the
    file, and the key reads back 47429007. *)
Example shared_pair_keeps_the_larger_index :
  prepareRelationshipProperties [docRel; docRela; docRelShared; docRelaShared]
    !! "SNOMEDCT_US/RO/associated_with" = Some "47429007"
  /\ prepareRelationshipProperties [docRelShared; docRelaShared; docRel; docRela]
       !! "SNOMEDCT_US/RO/associated_with" = Some "47429007".
Proof. split; vm_compute; reflexivity. Qed.

(** Two attributes with different pairs, ([a/b], [c]) and ([a], [b/c]),
    yield the same key, and the key reads back the second one only. *)
Example distinct_pairs_can_share_a_key :
  let lines := [ "REL|v1|snomedct_rel_mapping|a/b|";
                 "RELA|v1|snomedct_rela_mapping|c|";
                 "REL|v2|snomedct_rel_mapping|a|";
                 "RELA|v2|snomedct_rela_mapping|b/c|" ] in
  mappingOf "v1" lines = RelMapping.mk (Some "a/b") (Some "c")
  /\ mappingOf "v2" lines = RelMapping.mk (Some "a") (Some "b/c")
  /\ stageAKey (mappingOf "v1" lines) = "SNOMEDCT_US/a/b/c"
  /\ stageAKey (mappingOf "v2" lines) = "SNOMEDCT_US/a/b/c"
  /\ prepareRelationshipProperties lines !! "SNOMEDCT_US/a/b/c" = Some "v2".
Proof. repeat split; vm_compute; reflexivity. Qed.

(** A row with only one of the two mappings leaves the other part empty. *)
Example half_mapped_value_has_an_empty_part :
  prepareRelationshipProperties [docRel] !! "SNOMEDCT_US/RO/" = Some "47429007".
Proof. vm_compute. reflexivity. Qed.

Example sample_search_parameter_index :
  indexSearchParameters sampleBase
    [ ("identifier", Some ["Patient"; "Practitioner"]);
      ("name", Some ["Patient"]);
      ("unbound", None) ]
  = Done [ ("Patient", [ ("identifier", Some ["Patient"; "Practitioner"]);
                         ("name", Some ["Patient"]) ]);
           ("Practitioner", [ ("identifier", Some ["Patient"; "Practitioner"]) ]) ].
Proof. vm_compute. reflexivity. Qed.

Example inherited_base_throws :
  indexSearchParameters sampleBase [("name", Some ["Patient"; "toString"])]
  = TypeError.
Proof. vm_compute. reflexivity. Qed.

Example unsuppressed_parent_row_of_inherited_source_stops_the_run :
  main sampleCodeSystems [rowSynonym; rowFullName] [attrParent] [docRel; docRela]
    [relParent; "C1|A1|AUI|PAR|C2|A2|AUI||R1||valueOf|X|||N"] = TypeError.
Proof. vm_compute. reflexivity. Qed.

Lemma main_relationship_destination_witness :
  exists run,
    main sampleCodeSystems [rowSynonym; rowFullName] [attrParent]
      [docRel; docRela] [relParent; relOther] = Done run
    /\ In ("http://snomed.info/sct",
           [ Property.mk (Some "73211009") (Some "parent") (Some "73211009");
             Property.mk (Some "73211009") (Some "47429007") (Some "73211009") ])
         (posted (Relationships.properties (relationships run)))
    /\ exists line source name,
         In line [relParent; relOther]
         /\ readProperty (umlsSources sampleCodeSystems)
              (jsStr (UmlsRelationship.SAB (UmlsRelationship.constructor line)))
            = Own source
         /\ "http://snomed.info/sct" = system source
         /\ Some "parent" = Some name
         /\ name <> ""
         /\ (prepareRelationshipProperties [docRel; docRela]
               !! relationshipKey (UmlsRelationship.constructor line) = Some name
             \/ (truthy (prepareRelationshipProperties [docRel; docRela]
                           !! relationshipKey (UmlsRelationship.constructor line))
                 = false
                 /\ ((UmlsRelationship.REL (UmlsRelationship.constructor line)
                      = Some "PAR"
                      /\ configuredProperty PARENT_PROPERTY (Own source)
                         = Done (Some name))
                     \/ (UmlsRelationship.REL (UmlsRelationship.constructor line)
                         = Some "CHD"
                         /\ configuredProperty CHILD_PROPERTY (Own source)
                            = Done (Some name))))).
Proof.
  eexists. split; [vm_compute; reflexivity|].
  split; [vm_compute; left; reflexivity|].
  eapply (main_relationship_destination sampleCodeSystems
            [rowSynonym; rowFullName] [attrParent] [docRel; docRela]
            [relParent; relOther] _ "http://snomed.info/sct"
            [ Property.mk (Some "73211009") (Some "parent") (Some "73211009");
              Property.mk (Some "73211009") (Some "47429007") (Some "73211009") ]
            (Property.mk (Some "73211009") (Some "parent") (Some "73211009")));
    [vm_compute; reflexivity|vm_compute; left; reflexivity|left; reflexivity].
Defined.

Lemma concept_pass_posts_accepted_rows_witness :
  exists st,
    processConcepts sampleCodeSystems [rowSynonym; rowObsoleteSnomed; rowFullName]
    = Done st
    /\ In ("http://snomed.info/sct",
           [ Coding.mk (Some "73211009") (Some "DM");
             Coding.mk (Some "73211009") (Some "Diabetes mellitus (disorder)") ])
         (posted (Concepts.codings st))
    /\ exists line source,
         In line [rowSynonym; rowObsoleteSnomed; rowFullName]
         /\ passesFilters sampleCodeSystems (UmlsConcept.constructor line)
            = Some source
         /\ "http://snomed.info/sct" = system source
         /\ Coding.mk (Some "73211009") (Some "DM")
            = Coding.mk (UmlsConcept.CODE (UmlsConcept.constructor line))
                (UmlsConcept.STR (UmlsConcept.constructor line)).
Proof.
  eexists. split; [vm_compute; reflexivity|].
  split; [vm_compute; left; reflexivity|].
  eapply (concept_pass_posts_accepted_rows sampleCodeSystems
            [rowSynonym; rowObsoleteSnomed; rowFullName] _
            "http://snomed.info/sct"
            [ Coding.mk (Some "73211009") (Some "DM");
              Coding.mk (Some "73211009") (Some "Diabetes mellitus (disorder)") ]);
    [vm_compute; reflexivity|vm_compute; left; reflexivity|left; reflexivity].
Defined.
